(** * CapitalFlow: a shallow embedding of the calculation core and the
    endpoints the specification's testable properties are about.

    Python values are embedded as follows.
    - [Decimal] is a rational number ([Q]); sums, differences and products
      are the exact ones, a quotient raises what [decimal] raises on a zero
      divisor.  The context rounding (28 significant digits) is not
      modelled, results are compared with [==].
    - [datetime] is an instant, counted in seconds from the epoch after
      [_normalize_datetime]; [date] is a proleptic Gregorian day number.
    - [float] is IEEE binary64 ([PrimFloat.float]); the C library's [pow]
      is a parameter of the functions that use [**].
    - a raised exception is the [Raise] result of the [res] monad.
    - an ORM row is its attribute dictionary ([gmap string val]).  *)

From Stdlib Require Import ZArith QArith Qabs Qminmax Lqa Lia List String Ascii Bool.
From Stdlib Require Import Floats Uint63.
From stdpp Require Import gmap strings list sorting.
Import ListNotations.

Local Open Scope string_scope.
Local Open Scope list_scope.

#[local] Set Warnings "-inexact-float,-register-all".

(** ** Exceptions and the result monad *)

Inductive exn : Type :=
| ValueError (msg : string)
| TypeError (msg : string)
| AttributeError (owner attr : string)
| IndexError (msg : string)
| ZeroDivisionError
| OverflowError
| DivisionByZero
| InvalidOperation
| HTTPException (status_code : Z) (detail : string).

Inductive res (A : Type) : Type :=
| Ok (a : A)
| Raise (e : exn).
Arguments Ok {A} a.
Arguments Raise {A} e.

#[global] Instance res_ret : MRet res := fun _ a => Ok a.
#[global] Instance res_bind : MBind res := fun _ _ k m =>
  match m with
  | Ok a => k a
  | Raise e => Raise e
  end.

(** [try: m except Exception as e: h e] *)
Definition try_except {A : Type} (m : res A) (h : exn -> res A) : res A :=
  match m with
  | Ok a => Ok a
  | Raise e => h e
  end.

Definition is_ok {A : Type} (m : res A) : bool :=
  match m with Ok _ => true | Raise _ => false end.

(** ** Decimal arithmetic *)

Abbreviation Decimal := Q (only parsing).

Definition dec_is_zero (x : Q) : bool := Qeq_bool x 0.
Definition dec_le (x y : Q) : bool := Qle_bool x y.
Definition dec_lt (x y : Q) : bool := negb (Qle_bool y x).
Definition dec_gt (x y : Q) : bool := dec_lt y x.

(** [x / y] on Decimals, with the default context's traps. *)
Definition dec_div (x y : Q) : res Q :=
  if dec_is_zero y
  then (if dec_is_zero x then Raise InvalidOperation else Raise DivisionByZero)
  else Ok (x / y)%Q.

(** [a or b] where [a] may be [None] or a zero Decimal (both falsy). *)
Definition dec_or (a : option Q) (b : Q) : Q :=
  match a with
  | Some x => if dec_is_zero x then b else x
  | None => b
  end.

(** ** [sorted(xs, key=...)], [sorted(xs, key=..., reverse=True)] and
    [min(xs, key=...)]

    Python's sort is stable: elements with equal keys keep their relative
    order, in both directions; [min] returns the first minimal element. *)

Section Sorted.
Context {A : Type} (key : A -> Z).

Fixpoint insert_asc (x : A) (l : list A) : list A :=
  match l with
  | [] => [x]
  | y :: l' => if (key x <=? key y)%Z then x :: l else y :: insert_asc x l'
  end.

Fixpoint insert_desc (x : A) (l : list A) : list A :=
  match l with
  | [] => [x]
  | y :: l' => if (key y <=? key x)%Z then x :: l else y :: insert_desc x l'
  end.

Definition sorted (l : list A) : list A := fold_right insert_asc [] l.

Definition sorted_reverse (l : list A) : list A := fold_right insert_desc [] l.

Fixpoint min_by_from (best : A) (l : list A) : A :=
  match l with
  | [] => best
  | y :: l' => min_by_from (if (key y <? key best)%Z then y else best) l'
  end.

Definition min_by (l : list A) : option A :=
  match l with
  | [] => None
  | x :: l' => Some (min_by_from x l')
  end.

End Sorted.

(** ** app/db/models.py: enumerations and the rows the calculators read *)

Inductive AssetClass : Type :=
| EQUITY | MUTUAL_FUND | BOND | COMMODITY | REAL_ESTATE | CASH | CRYPTOCURRENCY.

Inductive Currency : Type := INR | USD | EUR | GBP.

Inductive TransactionType : Type :=
| BUY | SELL | DIVIDEND | INTEREST | BONUS | SPLIT | SPIN_OFF.

Definition TransactionType_eqb (a b : TransactionType) : bool :=
  match a, b with
  | BUY, BUY | SELL, SELL | DIVIDEND, DIVIDEND | INTEREST, INTEREST
  | BONUS, BONUS | SPLIT, SPLIT | SPIN_OFF, SPIN_OFF => true
  | _, _ => false
  end.

(** A datetime after [_normalize_datetime]: seconds from the epoch, UTC. *)
Abbreviation datetime := Z (only parsing).

(** [(a - b).days] *)
Definition days_between (a b : Z) : Z := ((a - b) / 86400)%Z.

Module Transaction.
Record t : Type := mk {
  id : string;
  instrument_id : string;
  instrument : option string;        (* the related instrument's name *)
  transaction_type : TransactionType;
  transaction_date : datetime;
  quantity : Decimal;
  price : Decimal;
  gross_amount : Decimal;
  net_amount : option Decimal;
  currency : Currency
}.
End Transaction.

Module TaxLot.
Record t : Type := mk {
  position_id : string;
  transaction_id : string;
  quantity : Decimal;
  remaining_quantity : Decimal;
  cost_per_share : Decimal;
  acquisition_date : datetime;
  is_closed : bool
}.
End TaxLot.

(** ** app/portfolio/positions.py *)

Inductive TaxLotMethod : Type := FIFO | LIFO | SPEC_ID.

Module TaxLotSnapshot.
Record t : Type := mk {
  acquisition_date : datetime;
  quantity : Decimal;
  remaining_quantity : Decimal;
  cost_per_share : Decimal;
  total_cost : Decimal;
  is_long_term : bool;
  days_held : Z
}.
End TaxLotSnapshot.

Module PositionSnapshot.
Record t : Type := mk {
  instrument_id : string;
  instrument_name : string;
  quantity : Decimal;
  average_cost : Decimal;
  total_cost : Decimal;
  current_price : option Decimal;
  market_value : option Decimal;
  unrealized_pnl : option Decimal;
  currency : Currency;
  tax_lots : list TaxLotSnapshot.t
}.
End PositionSnapshot.

Module RealizedGain.
Record t : Type := mk {
  instrument_id : string;
  instrument_name : string;
  sale_date : datetime;
  sale_quantity : Decimal;
  sale_price : Decimal;
  sale_proceeds : Decimal;
  cost_basis : Decimal;
  cost_per_share : Decimal;
  realized_gain : Decimal;
  gain_percentage : Decimal;
  is_long_term : bool;
  holding_period_days : Z;
  sale_transaction_id : string;
  acquisition_lots : list (string * Decimal * Decimal)
}.
End RealizedGain.

(** [min(a, b)]: [a] unless [b < a]. *)
Definition dec_min (a b : Q) : Q := if dec_lt b a then b else a.

Module TaxLotManager.

(** [_process_purchase]: a new open lot is appended. *)
Definition _process_purchase (transaction : Transaction.t)
    (existing_lots : list TaxLot.t) : list TaxLot.t * list RealizedGain.t :=
  let new_lot := {|
    TaxLot.position_id := "";
    TaxLot.transaction_id := Transaction.id transaction;
    TaxLot.quantity := Transaction.quantity transaction;
    TaxLot.remaining_quantity := Transaction.quantity transaction;
    TaxLot.cost_per_share := Transaction.price transaction;
    TaxLot.acquisition_date := Transaction.transaction_date transaction;
    TaxLot.is_closed := false |} in
  (existing_lots ++ [new_lot], []).

(** The variables of the loop of [_process_sale]. *)
Record sale_state : Type := mk_sale_state {
  remaining_to_sell : Decimal;
  updated_lots : list TaxLot.t;
  acquisition_lots : list (string * Decimal * Decimal);
  total_cost_basis : Decimal
}.

(** One pass through the body of [for lot in sorted_lots]. The lot is
    updated in place in the source; the updated lot is what the loop
    appends. *)
Definition sale_step (st : sale_state) (lot : TaxLot.t) : sale_state :=
  if dec_le (remaining_to_sell st) 0 then
    mk_sale_state (remaining_to_sell st) (updated_lots st ++ [lot])
                  (acquisition_lots st) (total_cost_basis st)
  else if dec_le (TaxLot.remaining_quantity lot) 0 then
    mk_sale_state (remaining_to_sell st) (updated_lots st ++ [lot])
                  (acquisition_lots st) (total_cost_basis st)
  else
    let quantity_from_lot :=
      dec_min (remaining_to_sell st) (TaxLot.remaining_quantity lot) in
    let cost_from_lot := (quantity_from_lot * TaxLot.cost_per_share lot)%Q in
    let remaining := (TaxLot.remaining_quantity lot - quantity_from_lot)%Q in
    let lot' := {|
      TaxLot.position_id := TaxLot.position_id lot;
      TaxLot.transaction_id := TaxLot.transaction_id lot;
      TaxLot.quantity := TaxLot.quantity lot;
      TaxLot.remaining_quantity := remaining;
      TaxLot.cost_per_share := TaxLot.cost_per_share lot;
      TaxLot.acquisition_date := TaxLot.acquisition_date lot;
      TaxLot.is_closed :=
        if dec_le remaining 0 then true else TaxLot.is_closed lot |} in
    mk_sale_state
      (remaining_to_sell st - quantity_from_lot)%Q
      (updated_lots st ++ [lot'])
      (acquisition_lots st ++
         [(TaxLot.transaction_id lot, quantity_from_lot, cost_from_lot)])
      (total_cost_basis st + cost_from_lot)%Q.

Definition sort_lots (method : TaxLotMethod) (lots : list TaxLot.t)
    : list TaxLot.t :=
  match method with
  | FIFO => sorted TaxLot.acquisition_date lots
  | LIFO => sorted_reverse TaxLot.acquisition_date lots
  | SPEC_ID => lots
  end.

Definition sale_loop (method : TaxLotMethod) (sale_quantity : Decimal)
    (existing_lots : list TaxLot.t) : sale_state :=
  fold_left sale_step (sort_lots method existing_lots)
            (mk_sale_state sale_quantity [] [] 0).

(** [_process_sale]. The only operation that can raise is the quotient
    [total_cost_basis / sale_quantity]; it does so for a zero sale quantity,
    when the loop has changed no lot. *)
Definition _process_sale (method : TaxLotMethod) (transaction : Transaction.t)
    (existing_lots : list TaxLot.t)
    : res (list TaxLot.t * list RealizedGain.t) :=
  let sale_quantity := Transaction.quantity transaction in
  let sale_price := Transaction.price transaction in
  let sale_date := Transaction.transaction_date transaction in
  let st := sale_loop method sale_quantity existing_lots in
  let sale_proceeds := (sale_quantity * sale_price)%Q in
  let realized_gain_amount := (sale_proceeds - total_cost_basis st)%Q in
  let gain_percentage :=
    if dec_gt (total_cost_basis st) 0
    then (realized_gain_amount / total_cost_basis st * 100)%Q
    else 0%Q in
  let first_acquisition_date :=
    match min_by TaxLot.acquisition_date existing_lots with
    | Some lot => TaxLot.acquisition_date lot
    | None => sale_date
    end in
  let holding_days := days_between sale_date first_acquisition_date in
  let is_long_term := (365 <=? holding_days)%Z in
  cost_per_share ← dec_div (total_cost_basis st) sale_quantity;
  Ok (updated_lots st,
      [ {| RealizedGain.instrument_id := Transaction.instrument_id transaction;
           RealizedGain.instrument_name := "";
           RealizedGain.sale_date := sale_date;
           RealizedGain.sale_quantity := sale_quantity;
           RealizedGain.sale_price := sale_price;
           RealizedGain.sale_proceeds := sale_proceeds;
           RealizedGain.cost_basis := total_cost_basis st;
           RealizedGain.cost_per_share := cost_per_share;
           RealizedGain.realized_gain := realized_gain_amount;
           RealizedGain.gain_percentage := gain_percentage;
           RealizedGain.is_long_term := is_long_term;
           RealizedGain.holding_period_days := holding_days;
           RealizedGain.sale_transaction_id := Transaction.id transaction;
           RealizedGain.acquisition_lots := acquisition_lots st |} ]).

Definition process_transaction (method : TaxLotMethod)
    (transaction : Transaction.t) (existing_lots : list TaxLot.t)
    : res (list TaxLot.t * list RealizedGain.t) :=
  match Transaction.transaction_type transaction with
  | BUY => Ok (_process_purchase transaction existing_lots)
  | SELL => _process_sale method transaction existing_lots
  | DIVIDEND => Ok (existing_lots, [])
  | _ => Ok (existing_lots, [])
  end.

End TaxLotManager.

Module PositionCalculator.

(** The variables of the replay loop of [calculate_position]. *)
Record replay_state : Type := mk_replay_state {
  total_quantity : Decimal;
  total_cost : Decimal;
  tax_lots : list TaxLot.t;
  realized_gains : list RealizedGain.t
}.

Definition replay_init : replay_state := mk_replay_state 0 0 [] [].

(** The body of [for transaction in sorted_transactions]; the calculator's
    tax-lot manager is the default one (FIFO). *)
Definition replay_step (st : replay_state) (transaction : Transaction.t)
    : res replay_state :=
  match Transaction.transaction_type transaction with
  | BUY =>
      let total_quantity' :=
        (total_quantity st + Transaction.quantity transaction)%Q in
      let total_cost' :=
        (total_cost st + dec_or (Transaction.net_amount transaction)
                                (Transaction.gross_amount transaction))%Q in
      r ← TaxLotManager.process_transaction FIFO transaction (tax_lots st);
      Ok (mk_replay_state total_quantity' total_cost' (fst r)
                          (realized_gains st ++ snd r))
  | SELL =>
      let total_quantity' :=
        (total_quantity st - Transaction.quantity transaction)%Q in
      r ← TaxLotManager.process_transaction FIFO transaction (tax_lots st);
      Ok (mk_replay_state total_quantity' (total_cost st) (fst r)
                          (realized_gains st ++ snd r))
  | _ => Ok st
  end.

Fixpoint replay_from (st : replay_state) (transactions : list Transaction.t)
    : res replay_state :=
  match transactions with
  | [] => Ok st
  | transaction :: rest =>
      st' ← replay_step st transaction;
      replay_from st' rest
  end.


(** [sum(lot.remaining_quantity * lot.cost_per_share for lot in tax_lots
         if lot.remaining_quantity > 0)] *)
Fixpoint remaining_cost_of (lots : list TaxLot.t) : Decimal :=
  match lots with
  | [] => 0%Q
  | lot :: rest =>
      if dec_gt (TaxLot.remaining_quantity lot) 0
      then (TaxLot.remaining_quantity lot * TaxLot.cost_per_share lot
            + remaining_cost_of rest)%Q
      else remaining_cost_of rest
  end.

Definition lot_snapshots (valuation_date : datetime) (lots : list TaxLot.t)
    : list TaxLotSnapshot.t :=
  omap (fun lot =>
    if dec_gt (TaxLot.remaining_quantity lot) 0 then
      let holding_days :=
        days_between valuation_date (TaxLot.acquisition_date lot) in
      Some {|
        TaxLotSnapshot.acquisition_date := TaxLot.acquisition_date lot;
        TaxLotSnapshot.quantity := TaxLot.quantity lot;
        TaxLotSnapshot.remaining_quantity := TaxLot.remaining_quantity lot;
        TaxLotSnapshot.cost_per_share := TaxLot.cost_per_share lot;
        TaxLotSnapshot.total_cost :=
          (TaxLot.remaining_quantity lot * TaxLot.cost_per_share lot)%Q;
        TaxLotSnapshot.is_long_term := (365 <=? holding_days)%Z;
        TaxLotSnapshot.days_held := holding_days |}
    else None) lots.

(** [calculate_position]; [now] is the reading of [datetime.now()] used
    when no valuation date is given. *)
Definition calculate_position (now : datetime)
    (transactions : list Transaction.t) (current_price : option Decimal)
    (valuation_date : option datetime) : res PositionSnapshot.t :=
  if bool_decide (transactions = []) then
    Raise (ValueError "No transactions provided")
  else
  let sorted_transactions :=
    sorted Transaction.transaction_date transactions in
  match sorted_transactions with
  | [] => Raise (IndexError "list index out of range")
  | first_txn :: _ =>
      st ← replay_from replay_init sorted_transactions;
      let remaining_cost := remaining_cost_of (tax_lots st) in
      let average_cost :=
        if dec_gt (total_quantity st) 0
        then (remaining_cost / total_quantity st)%Q else 0%Q in
      let priced :=
        match current_price with
        | Some p => negb (dec_is_zero p) && dec_gt (total_quantity st) 0
        | None => false
        end in
      let market_value :=
        match current_price with
        | Some p => if priced then Some (total_quantity st * p)%Q else None
        | None => None
        end in
      let unrealized_pnl :=
        match market_value with
        | Some mv => Some (mv - remaining_cost)%Q
        | None => None
        end in
      let valuation_date' :=
        match valuation_date with Some d => d | None => now end in
      Ok {|
        PositionSnapshot.instrument_id := Transaction.instrument_id first_txn;
        PositionSnapshot.instrument_name :=
          match Transaction.instrument first_txn with
          | Some name => name
          | None => ""
          end;
        PositionSnapshot.quantity := total_quantity st;
        PositionSnapshot.average_cost := average_cost;
        PositionSnapshot.total_cost := remaining_cost;
        PositionSnapshot.current_price := current_price;
        PositionSnapshot.market_value := market_value;
        PositionSnapshot.unrealized_pnl := unrealized_pnl;
        PositionSnapshot.currency := Transaction.currency first_txn;
        PositionSnapshot.tax_lots := lot_snapshots valuation_date' (tax_lots st)
      |}
  end.

End PositionCalculator.

(** ** Strings: [str.upper], [str.strip], truthiness and [hashlib.md5]

    A [string] holds the UTF-8 bytes of the Python string; [upper] and
    [strip] are the ASCII ones. *)

Definition upper_ascii (c : ascii) : ascii :=
  let n := nat_of_ascii c in
  if (97 <=? n)%nat && (n <=? 122)%nat then ascii_of_nat (n - 32) else c.

Fixpoint upper (s : string) : string :=
  match s with
  | EmptyString => EmptyString
  | String c s' => String (upper_ascii c) (upper s')
  end.

Definition is_space (c : ascii) : bool :=
  let n := nat_of_ascii c in
  (n =? 32)%nat || ((9 <=? n)%nat && (n <=? 13)%nat).

Fixpoint lstrip (s : string) : string :=
  match s with
  | EmptyString => EmptyString
  | String c s' => if is_space c then lstrip s' else s
  end.

Fixpoint rstrip (s : string) : string :=
  match s with
  | EmptyString => EmptyString
  | String c s' =>
      match rstrip s' with
      | EmptyString => if is_space c then EmptyString else String c EmptyString
      | r => String c r
      end
  end.

Definition strip (s : string) : string := rstrip (lstrip s).

(** [bool(s)] for an [Optional[str]]. *)
Definition str_truthy (o : option string) : bool :=
  match o with
  | Some s => negb (String.eqb s "")
  | None => false
  end.

(** [s[:n]] *)
Definition str_take (n : nat) (s : string) : string := String.substring 0 n s.

Module md5.

Definition K : list Z := [
  0xd76aa478; 0xe8c7b756; 0x242070db; 0xc1bdceee;
  0xf57c0faf; 0x4787c62a; 0xa8304613; 0xfd469501;
  0x698098d8; 0x8b44f7af; 0xffff5bb1; 0x895cd7be;
  0x6b901122; 0xfd987193; 0xa679438e; 0x49b40821;
  0xf61e2562; 0xc040b340; 0x265e5a51; 0xe9b6c7aa;
  0xd62f105d; 0x02441453; 0xd8a1e681; 0xe7d3fbc8;
  0x21e1cde6; 0xc33707d6; 0xf4d50d87; 0x455a14ed;
  0xa9e3e905; 0xfcefa3f8; 0x676f02d9; 0x8d2a4c8a;
  0xfffa3942; 0x8771f681; 0x6d9d6122; 0xfde5380c;
  0xa4beea44; 0x4bdecfa9; 0xf6bb4b60; 0xbebfbc70;
  0x289b7ec6; 0xeaa127fa; 0xd4ef3085; 0x04881d05;
  0xd9d4d039; 0xe6db99e5; 0x1fa27cf8; 0xc4ac5665;
  0xf4292244; 0x432aff97; 0xab9423a7; 0xfc93a039;
  0x655b59c3; 0x8f0ccc92; 0xffeff47d; 0x85845dd1;
  0x6fa87e4f; 0xfe2ce6e0; 0xa3014314; 0x4e0811a1;
  0xf7537e82; 0xbd3af235; 0x2ad7d2bb; 0xeb86d391 ]%Z.

Definition S : list Z := [
  7; 12; 17; 22; 7; 12; 17; 22; 7; 12; 17; 22; 7; 12; 17; 22;
  5; 9; 14; 20; 5; 9; 14; 20; 5; 9; 14; 20; 5; 9; 14; 20;
  4; 11; 16; 23; 4; 11; 16; 23; 4; 11; 16; 23; 4; 11; 16; 23;
  6; 10; 15; 21; 6; 10; 15; 21; 6; 10; 15; 21; 6; 10; 15; 21 ]%Z.

Definition w32 (x : Z) : Z := (x mod 2 ^ 32)%Z.

Definition rotl (x c : Z) : Z :=
  w32 (Z.lor (Z.shiftl x c) (Z.shiftr x (32 - c))).

Definition not32 (x : Z) : Z := Z.lxor x 0xffffffff.

Fixpoint le_bytes (n : nat) (x : Z) : list Z :=
  match n with
  | O => []
  | Datatypes.S n' => (x mod 256)%Z :: le_bytes n' (x / 256)%Z
  end.

Fixpoint le_words (bs : list Z) : list Z :=
  match bs with
  | b0 :: b1 :: b2 :: b3 :: rest =>
      (b0 + 256 * b1 + 65536 * b2 + 16777216 * b3)%Z :: le_words rest
  | _ => []
  end.

Definition pad (msg : list Z) : list Z :=
  let len := Z.of_nat (length msg) in
  msg ++ [128%Z] ++ repeat 0%Z (Z.to_nat ((55 - len) mod 64))
      ++ le_bytes 8 ((8 * len) mod 2 ^ 64)%Z.

Definition round (M : list Z) (st : Z * Z * Z * Z) (i : nat)
    : Z * Z * Z * Z :=
  let '(a, b, c, d) := st in
  let iz := Z.of_nat i in
  let '(f, g) :=
    if (iz <? 16)%Z then
      (Z.lor (Z.land b c) (Z.land (not32 b) d), iz)
    else if (iz <? 32)%Z then
      (Z.lor (Z.land d b) (Z.land (not32 d) c), ((5 * iz + 1) mod 16)%Z)
    else if (iz <? 48)%Z then
      (Z.lxor (Z.lxor b c) d, ((3 * iz + 5) mod 16)%Z)
    else
      (Z.lxor c (Z.lor b (not32 d)), ((7 * iz) mod 16)%Z) in
  let f' := w32 (f + a + nth i K 0 + nth (Z.to_nat g) M 0)%Z in
  (d, w32 (b + rotl f' (nth i S 0))%Z, b, c).

Definition block (st : Z * Z * Z * Z) (M : list Z) : Z * Z * Z * Z :=
  let '(a0, b0, c0, d0) := st in
  let '(a, b, c, d) := fold_left (round M) (seq 0 64) st in
  (w32 (a0 + a), w32 (b0 + b), w32 (c0 + c), w32 (d0 + d))%Z.

Fixpoint blocks (n : nat) (st : Z * Z * Z * Z) (ws : list Z)
    : Z * Z * Z * Z :=
  match n with
  | O => st
  | Datatypes.S n' =>
      match ws with
      | [] => st
      | _ => blocks n' (block st (firstn 16 ws)) (skipn 16 ws)
      end
  end.

Definition digest (msg : list Z) : list Z :=
  let ws := le_words (pad msg) in
  let '(a, b, c, d) :=
    blocks (length ws)
           (0x67452301, 0xefcdab89, 0x98badcfe, 0x10325476)%Z ws in
  le_bytes 4 a ++ le_bytes 4 b ++ le_bytes 4 c ++ le_bytes 4 d.

Definition hex_digit (n : Z) : ascii :=
  ascii_of_nat (Z.to_nat (if (n <? 10)%Z then 48 + n else 87 + n)%Z).

Fixpoint hex (bs : list Z) : string :=
  match bs with
  | [] => EmptyString
  | b :: rest =>
      String (hex_digit (b / 16)%Z) (String (hex_digit (b mod 16)%Z) (hex rest))
  end.

Definition bytes_of (s : string) : list Z :=
  map (fun c => Z.of_nat (nat_of_ascii c)) (list_ascii_of_string s).

(** [hashlib.md5(s.encode()).hexdigest()] *)
Definition hexdigest (s : string) : string := hex (digest (bytes_of s)).

End md5.

(** ** app/ingestion/base.py *)

Module ParsedTransaction.
Record t : Type := mk {
  transaction_type : TransactionType;
  transaction_date : datetime;
  quantity : Decimal;
  price : Decimal;
  gross_amount : Decimal;
  instrument_name : string;
  symbol : option string;
  isin : option string;
  amfi_code : option string;
  cusip : option string;
  settlement_date : option datetime;
  brokerage : Decimal;
  taxes : Decimal;
  other_charges : Decimal;
  net_amount : option Decimal;
  currency : Currency;
  exchange : option string;
  source_reference : option string;
  raw_data : option (gmap string string)
}.

(** [__post_init__]: the net amount is derived when none was given. *)
Definition __post_init__ (self : t) : t :=
  match net_amount self with
  | Some _ => self
  | None =>
      let derived :=
        match transaction_type self with
        | BUY => (gross_amount self + brokerage self + taxes self
                  + other_charges self)%Q
        | _ => (gross_amount self - brokerage self - taxes self
                - other_charges self)%Q
        end in
      mk (transaction_type self) (transaction_date self) (quantity self)
         (price self) (gross_amount self) (instrument_name self)
         (symbol self) (isin self) (amfi_code self) (cusip self)
         (settlement_date self) (brokerage self) (taxes self)
         (other_charges self) (Some derived) (currency self) (exchange self)
         (source_reference self) (raw_data self)
  end.

(** The dataclass constructor: the fields are stored, then
    [__post_init__] runs. *)
Definition new (transaction_type : TransactionType)
    (transaction_date : datetime) (quantity price gross_amount : Decimal)
    (instrument_name : string) (symbol isin amfi_code cusip : option string)
    (settlement_date : option datetime)
    (brokerage taxes other_charges : Decimal) (net_amount : option Decimal)
    (currency : Currency) (exchange source_reference : option string)
    (raw_data : option (gmap string string)) : t :=
  __post_init__
    (mk transaction_type transaction_date quantity price gross_amount
        instrument_name symbol isin amfi_code cusip settlement_date
        brokerage taxes other_charges net_amount currency exchange
        source_reference raw_data).
End ParsedTransaction.

(** ** app/canonicalization/canonicalizer.py *)

Definition AssetClass_value (a : AssetClass) : string :=
  match a with
  | EQUITY => "equity"
  | MUTUAL_FUND => "mutual_fund"
  | BOND => "bond"
  | COMMODITY => "commodity"
  | REAL_ESTATE => "real_estate"
  | CASH => "cash"
  | CRYPTOCURRENCY => "cryptocurrency"
  end.

Module IdentifierType.
Inductive t : Type := ISIN | AMFI_CODE | CUSIP | SYMBOL | MANUAL.
End IdentifierType.

Module InstrumentIdentifier.
Record t : Type := mk {
  identifier_type : IdentifierType.t;
  value : string;
  exchange : option string;
  country : option string
}.

(** [__post_init__]: the value is stripped and upper-cased, and so are a
    non-empty exchange and a non-empty country. *)
Definition __post_init__ (self : t) : t :=
  let norm (o : option string) :=
    if str_truthy o then option_map (fun s => upper (strip s)) o else o in
  mk (identifier_type self) (upper (strip (value self)))
     (norm (exchange self)) (norm (country self)).

Definition new (identifier_type : IdentifierType.t) (value : string)
    (exchange country : option string) : t :=
  __post_init__ (mk identifier_type value exchange country).
End InstrumentIdentifier.

Module CanonicalIdGenerator.
(** [generate] *)
Definition generate (primary_identifier : InstrumentIdentifier.t)
    (asset_class : AssetClass) (name : string) : string :=
  match InstrumentIdentifier.identifier_type primary_identifier with
  | IdentifierType.ISIN =>
      ("ISIN:" ++ InstrumentIdentifier.value primary_identifier)%string
  | IdentifierType.AMFI_CODE =>
      ("AMFI:" ++ InstrumentIdentifier.value primary_identifier)%string
  | IdentifierType.CUSIP =>
      ("CUSIP:" ++ InstrumentIdentifier.value primary_identifier)%string
  | IdentifierType.SYMBOL =>
      let exchange :=
        if str_truthy (InstrumentIdentifier.exchange primary_identifier)
        then default "" (InstrumentIdentifier.exchange primary_identifier)
        else "UNK" in
      (exchange ++ ":" ++ InstrumentIdentifier.value primary_identifier)%string
  | IdentifierType.MANUAL =>
      let name_hash := upper (str_take 8 (md5.hexdigest name)) in
      ("MANUAL:" ++ upper (AssetClass_value asset_class) ++ ":"
       ++ name_hash)%string
  end.
End CanonicalIdGenerator.

Module InstrumentCanonicalizer.
(** The priority table of [_select_primary_identifier]. *)
Definition priority (ty : IdentifierType.t) : Z :=
  match ty with
  | IdentifierType.ISIN => 1
  | IdentifierType.AMFI_CODE => 2
  | IdentifierType.CUSIP => 3
  | IdentifierType.SYMBOL => 4
  | IdentifierType.MANUAL => 5
  end.

(** [_select_primary_identifier]; both branches of its conditional index
    the first element, which an empty list does not have. *)
Definition _select_primary_identifier
    (identifiers : list InstrumentIdentifier.t) : res InstrumentIdentifier.t :=
  let sorted_identifiers :=
    sorted (fun x => priority (InstrumentIdentifier.identifier_type x))
           identifiers in
  match sorted_identifiers with
  | first :: _ => Ok first
  | [] =>
      match identifiers with
      | first :: _ => Ok first
      | [] => Raise (IndexError "list index out of range")
      end
  end.

(** The canonical id [_create_new_instrument] gives a new instrument. *)
Definition new_canonical_id (name : string)
    (identifiers : list InstrumentIdentifier.t) (asset_class : AssetClass)
    : res string :=
  primary_identifier ← _select_primary_identifier identifiers;
  Ok (CanonicalIdGenerator.generate primary_identifier asset_class name).
End InstrumentCanonicalizer.

(** ** app/ingestion/service.py *)

Module IngestionService.
(** [_generate_canonical_id] *)
Definition _generate_canonical_id (parsed_txn : ParsedTransaction.t)
    : string :=
  if str_truthy (ParsedTransaction.isin parsed_txn) then
    ("ISIN:" ++ default "" (ParsedTransaction.isin parsed_txn))%string
  else if str_truthy (ParsedTransaction.amfi_code parsed_txn) then
    ("AMFI:" ++ default "" (ParsedTransaction.amfi_code parsed_txn))%string
  else if str_truthy (ParsedTransaction.cusip parsed_txn) then
    ("CUSIP:" ++ default "" (ParsedTransaction.cusip parsed_txn))%string
  else if str_truthy (ParsedTransaction.symbol parsed_txn)
          && str_truthy (ParsedTransaction.exchange parsed_txn) then
    (default "" (ParsedTransaction.exchange parsed_txn) ++ ":"
     ++ default "" (ParsedTransaction.symbol parsed_txn))%string
  else
    let name_hash :=
      str_take 8 (md5.hexdigest (ParsedTransaction.instrument_name parsed_txn))
    in ("MANUAL:" ++ name_hash)%string.
End IngestionService.


(** ** Python floats

    A float is an IEEE binary64 number, and [+], [-], [*], comparisons and
    [abs] are the IEEE ones.  [/] raises on a zero divisor.  [**] goes
    through the C library's [pow], the parameter [libm_pow] below, and
    raises when that overflows. *)

(** [float(n)] for an integer below [2^63] in magnitude. *)
Definition float_of_Z (z : Z) : float :=
  if (z <? 0)%Z then (- PrimFloat.of_uint63 (Uint63.of_Z (- z)))%float
  else PrimFloat.of_uint63 (Uint63.of_Z z).

(** [x / y] *)
Definition float_div (x y : float) : res float :=
  if (y =? 0)%float then Raise ZeroDivisionError else Ok (x / y)%float.

(** The float is a whole number. *)
Definition float_is_integral (y : float) : bool :=
  match Prim2SF y with
  | S754_zero _ => true
  | S754_finite _ m e =>
      (0 <=? e)%Z || (Z.pos m mod 2 ^ (- e) =? 0)%Z
  | _ => false
  end.

Section FloatPow.
Variable libm_pow : float -> float -> float.

(** [x ** y]: one for a zero exponent, ZeroDivisionError for zero to a
    negative power, OverflowError when finite operands give an infinite
    power.  A negative base with a fractional exponent gives a complex
    number in Python, and complex numbers are not modelled: the run is
    ended there with the TypeError that ordering a complex rate raises.
    The routine below takes powers of [1 + rate], negative only when its
    guess is below -1; its one caller passes 0.1. *)
Definition float_pow (x y : float) : res float :=
  if (y =? 0)%float then Ok 1%float
  else if (x =? 0)%float && (y <? 0)%float then Raise ZeroDivisionError
  else if (x <? 0)%float && PrimFloat.is_finite y
          && negb (float_is_integral y)
  then Raise (TypeError "complex")
  else
    let r := libm_pow x y in
    if PrimFloat.is_infinity r && PrimFloat.is_finite x
       && PrimFloat.is_finite y
    then Raise OverflowError else Ok r.

End FloatPow.

(** ** app/portfolio/returns.py *)

Module CashFlow.
Record t : Type := mk {
  date : datetime;
  amount : Decimal;
  transaction_type : TransactionType;
  transaction_id : option string
}.
End CashFlow.

Module ReturnsCalculator.
Section WithLibm.
Variable libm_pow : float -> float -> float.

(** The variables of the inner loop of the Newton-Raphson routine; the
    rate is one of them, the loop may move it off [-1.0]. *)
Record npv_state : Type := mk_npv_state {
  rate_of : float;
  npv_of : float;
  dnpv_of : float
}.

(** The body of [for i, (amount, year) in enumerate(zip(amounts, years))]. *)
Definition npv_step (st : npv_state) (amount_year : float * float)
    : res npv_state :=
  let '(amount, year) := amount_year in
  let rate := if (rate_of st =? -1)%float then (-0.99999)%float
              else rate_of st in
  p ← float_pow libm_pow (1 + rate)%float year;
  discounted_amount ← float_div amount p;
  let npv := (npv_of st + discounted_amount)%float in
  if negb (year =? 0)%float then
    q ← float_div (year * discounted_amount)%float (1 + rate)%float;
    Ok (mk_npv_state rate npv (dnpv_of st - q)%float)
  else Ok (mk_npv_state rate npv (dnpv_of st)).

Fixpoint npv_loop (st : npv_state) (flows : list (float * float))
    : res npv_state :=
  match flows with
  | [] => Ok st
  | flow :: rest => st' ← npv_step st flow; npv_loop st' rest
  end.

(** How a run of the iteration ends. *)
Inductive nr_exit : Type :=
| Converged            (* [abs(npv) < tolerance]: the rate is returned *)
| FlatDerivative       (* [abs(dnpv) < 1e-10]: break *)
| RateOutOfRange       (* [rate < -0.99 or rate > 10.0]: break *)
| Exhausted            (* [range(max_iterations)] is used up *)
| Raised.              (* a float operation raised *)

(** [for _ in range(fuel)]: the result, how the loop ended and the number
    of passes through its body. *)
Fixpoint nr_iterate (fuel : nat) (flows : list (float * float))
    (rate : float) : res (option float) * nr_exit * nat :=
  match fuel with
  | O => (Ok None, Exhausted, O)
  | S fuel' =>
      match npv_loop (mk_npv_state rate 0 0) flows with
      | Raise e => (Raise e, Raised, 1%nat)
      | Ok st =>
          if (abs (npv_of st) <? 1e-6)%float then
            (Ok (Some (rate_of st)), Converged, 1%nat)
          else if (abs (dnpv_of st) <? 1e-10)%float then
            (Ok None, FlatDerivative, 1%nat)
          else
            match float_div (npv_of st) (dnpv_of st) with
            | Raise e => (Raise e, Raised, 1%nat)
            | Ok step =>
                let rate' := (rate_of st - step)%float in
                if (rate' <? -0.99)%float || (10 <? rate')%float then
                  (Ok None, RateOutOfRange, 1%nat)
                else
                  let '(r, how, n) := nr_iterate fuel' flows rate' in
                  (r, how, S n)
            end
      end
  end.

Definition max_iterations : nat := 100.

(** The years from the first date, [days / 365.25]. *)
Definition years_of (dates : list datetime) : list float :=
  match dates with
  | [] => []
  | base_date :: _ =>
      map (fun date =>
             (float_of_Z (days_between date base_date) / 365.25)%float) dates
  end.

(** The routine with its trace: result, exit and number of iterations. *)
Definition newton_raphson_trace (dates : list datetime)
    (amounts : list float) (guess : float)
    : res (option float) * nr_exit * nat :=
  nr_iterate max_iterations (zip amounts (years_of dates)) guess.

(** [_calculate_xirr_newton_raphson] *)
Definition _calculate_xirr_newton_raphson (dates : list datetime)
    (amounts : list float) (guess : float) : res (option float) :=
  if negb (length dates =? length amounts)%nat then Ok None
  else if (length dates <? 2)%nat then Ok None
  else fst (fst (newton_raphson_trace dates amounts guess)).

Section Conversions.
(** [float(d)] for a Decimal and [Decimal(str(x))] for a float. *)
Variable float_of_decimal : Q -> float.
Variable decimal_of_float : float -> Q.

(** [calculate_xirr]: whatever the routine raises is caught and logged. *)
Definition calculate_xirr (cash_flows : list CashFlow.t)
    (current_value : Decimal) (valuation_date : datetime)
    : option Decimal :=
  match cash_flows with
  | [] => None
  | _ =>
      let dates := map CashFlow.date cash_flows ++ [valuation_date] in
      let amounts :=
        map (fun cf => float_of_decimal (CashFlow.amount cf)) cash_flows
        ++ [float_of_decimal current_value] in
      match _calculate_xirr_newton_raphson dates amounts 0.1 with
      | Ok (Some xirr) => Some (decimal_of_float xirr)
      | Ok None => None
      | Raise _ => None
      end
  end.

End Conversions.
End WithLibm.
End ReturnsCalculator.

(** ** ORM rows

    A loaded row is its attribute dictionary: the mapped columns, and the
    related rows its query loaded.  Reading an attribute the dictionary
    does not hold raises AttributeError, and so does naming, in a query, an
    attribute the mapped class does not declare. *)

Inductive val : Type :=
| VNone
| VStr (s : string)
| VDec (q : Q)
| VInt (z : Z)
| VBool (b : bool)
| VDate (d : Z)                       (* a day number *)
| VObj (fields : gmap string val).

Abbreviation row := (gmap string val) (only parsing).

(** [obj.name] on an instance of class [cls]. *)
Definition getattr (cls : string) (obj : gmap string val) (name : string)
    : res val :=
  match obj !! name with
  | Some v => Ok v
  | None => Raise (AttributeError cls name)
  end.

(** [obj.name = v] *)
Definition setattr (obj : gmap string val) (name : string) (v : val)
    : gmap string val :=
  <[name := v]> obj.

(** [Cls.name] when a query is built: the name must be declared. *)
Definition class_attr (models : string -> list string) (cls name : string)
    : res unit :=
  if bool_decide (name ∈ models cls) then Ok tt
  else Raise (AttributeError cls name).

Definition as_dec (v : val) : res Q :=
  match v with
  | VDec q => Ok q
  | VInt z => Ok (inject_Z z)
  | _ => Raise (TypeError "Decimal expected")
  end.

Definition as_date (v : val) : res Z :=
  match v with
  | VDate d => Ok d
  | _ => Raise (TypeError "date expected")
  end.

Definition as_str (v : val) : res string :=
  match v with
  | VStr s => Ok s
  | _ => Raise (TypeError "str expected")
  end.

Definition as_optional_str (v : val) : res (option string) :=
  match v with
  | VStr s => Ok (Some s)
  | VNone => Ok None
  | _ => Raise (TypeError "Optional[str] expected")
  end.

(** A related row; reading through [None] raises AttributeError. *)
Definition as_obj (cls : string) (v : val) (name : string)
    : res (gmap string val) :=
  match v with
  | VObj o => Ok o
  | VNone => Raise (AttributeError "NoneType" name)
  | _ => Raise (AttributeError cls name)
  end.

(** [not v] *)
Definition val_falsy (v : val) : bool :=
  match v with
  | VNone => true
  | VStr s => String.eqb s ""
  | VDec q => dec_is_zero q
  | VInt z => (z =? 0)%Z
  | VBool b => negb b
  | VDate _ => false
  | VObj _ => false
  end.

(** SQL comparisons of a column of a row with a value; a NULL or missing
    column satisfies none. *)
Definition col_eq_str (o : gmap string val) (name : string) (s : string)
    : bool :=
  match o !! name with
  | Some (VStr s') => String.eqb s' s
  | _ => false
  end.

Definition col_date_between (o : gmap string val) (name : string)
    (lo hi : Z) : bool :=
  match o !! name with
  | Some (VDate d) => (lo <=? d)%Z && (d <=? hi)%Z
  | _ => false
  end.

Definition col_dec_positive (o : gmap string val) (name : string) : bool :=
  match o !! name with
  | Some (VDec q) => dec_gt q 0
  | Some (VInt z) => (0 <? z)%Z
  | _ => false
  end.

(** The row a foreign key joins to, loaded under [name]. *)
Definition joined (o : gmap string val) (name : string)
    : option (gmap string val) :=
  match o !! name with
  | Some (VObj r) => Some r
  | _ => None
  end.

(** The attributes app/db/models.py declares, class by class; every class
    has those of [Base]. *)
Definition app_db_models (cls : string) : list string :=
  ["id"; "created_at"; "updated_at"] ++
  if String.eqb cls "User" then
    ["email"; "hashed_password"; "full_name"; "is_active"; "is_verified";
     "portfolios"; "uploads"]
  else if String.eqb cls "Portfolio" then
    ["user_id"; "name"; "description"; "base_currency"; "is_default";
     "user"; "positions"; "transactions"]
  else if String.eqb cls "Instrument" then
    ["canonical_id"; "name"; "asset_class"; "currency"; "isin"; "amfi_code";
     "cusip"; "primary_exchange"; "symbol"; "sector"; "industry"; "country";
     "face_value"; "lot_size"; "is_active"; "prices"; "positions";
     "transactions"; "corporate_actions"]
  else if String.eqb cls "Transaction" then
    ["portfolio_id"; "instrument_id"; "transaction_type"; "transaction_date";
     "settlement_date"; "quantity"; "price"; "gross_amount"; "brokerage";
     "taxes"; "other_charges"; "net_amount"; "currency"; "fx_rate";
     "source_file_id"; "source_reference"; "notes"; "extra_data";
     "portfolio"; "instrument"; "source_file"; "tax_lots"]
  else if String.eqb cls "Position" then
    ["portfolio_id"; "instrument_id"; "quantity"; "average_cost";
     "total_cost"; "current_price"; "market_value"; "unrealized_pnl";
     "currency"; "last_updated"; "portfolio"; "instrument"; "tax_lots"]
  else if String.eqb cls "TaxLot" then
    ["position_id"; "transaction_id"; "quantity"; "remaining_quantity";
     "cost_per_share"; "acquisition_date"; "is_closed"; "position";
     "transaction"]
  else if String.eqb cls "CorporateAction" then
    ["instrument_id"; "action_type"; "status"; "ex_date"; "record_date";
     "payment_date"; "ratio_old"; "ratio_new"; "cash_amount"; "description";
     "created_by"; "instrument"]
  else [].

(** ** [str.replace], [str.split], [int] and [datetime.date] *)

Fixpoint str_drop (n : nat) (s : string) : string :=
  match n, s with
  | O, _ => s
  | S n', String _ s' => str_drop n' s'
  | S _, EmptyString => EmptyString
  end.

Fixpoint str_replace_from (fuel : nat) (old new s : string) : string :=
  match fuel with
  | O => s
  | S fuel' =>
      match s with
      | EmptyString => EmptyString
      | String c s' =>
          if String.prefix old s
          then (new ++ str_replace_from fuel' old new
                         (str_drop (String.length old) s))%string
          else String c (str_replace_from fuel' old new s')
      end
  end.

(** [s.replace(old, new)] for a non-empty [old]. *)
Definition str_replace (old new s : string) : string :=
  if String.eqb old "" then s
  else str_replace_from (String.length s) old new s.

(** [s.split(sep)] for a separator of one character. *)
Fixpoint str_split (sep : ascii) (s : string) : list string :=
  match s with
  | EmptyString => [EmptyString]
  | String c s' =>
      if Ascii.eqb c sep then EmptyString :: str_split sep s'
      else match str_split sep s' with
           | part :: parts => String c part :: parts
           | [] => [String c EmptyString]
           end
  end.

Definition digit_of (c : ascii) : option Z :=
  let n := nat_of_ascii c in
  if (48 <=? n)%nat && (n <=? 57)%nat then Some (Z.of_nat (n - 48)) else None.

(** Decimal digits, single underscores allowed between them. *)
Fixpoint parse_digits (acc : Z) (after_digit : bool) (s : string)
    : option Z :=
  match s with
  | EmptyString => if after_digit then Some acc else None
  | String c s' =>
      match digit_of c with
      | Some d => parse_digits (10 * acc + d)%Z true s'
      | None =>
          if Ascii.eqb c "_" && after_digit
          then parse_digits acc false s' else None
      end
  end.

(** [int(s)] for ASCII input: blanks around, a sign, decimal digits. *)
Definition py_int (s : string) : res Z :=
  let bad := Raise (ValueError "invalid literal for int() with base 10") in
  match strip s with
  | String "+" r =>
      match parse_digits 0 false r with Some n => Ok n | None => bad end
  | String "-" r =>
      match parse_digits 0 false r with Some n => Ok (- n)%Z | None => bad end
  | t => match parse_digits 0 false t with Some n => Ok n | None => bad end
  end.

Definition is_leap (y : Z) : bool :=
  (y mod 4 =? 0)%Z && (negb (y mod 100 =? 0)%Z || (y mod 400 =? 0)%Z).

Definition days_in_month (y m : Z) : Z :=
  if (m =? 2)%Z then (if is_leap y then 29 else 28)%Z
  else if (m =? 4)%Z || (m =? 6)%Z || (m =? 9)%Z || (m =? 11)%Z then 30%Z
  else 31%Z.

Definition days_before_year (y : Z) : Z :=
  let p := (y - 1)%Z in (365 * p + p / 4 - p / 100 + p / 400)%Z.

Definition days_before_month (y m : Z) : Z :=
  fold_left (fun acc k => (acc + days_in_month y (Z.of_nat k))%Z)
            (seq 1 (Z.to_nat (m - 1))) 0%Z.

(** [date(y, m, d)] as its ordinal (0001-01-01 is day 1). *)
Definition date (y m d : Z) : res Z :=
  if (1 <=? y)%Z && (y <=? 9999)%Z && (1 <=? m)%Z && (m <=? 12)%Z
     && (1 <=? d)%Z && (d <=? days_in_month y m)%Z
  then Ok (days_before_year y + days_before_month y m + d)%Z
  else Raise (ValueError "date value out of range").


(** ** app/api/v1/endpoints/auth.py *)

Module User.
Record t : Type := mk {
  id : string;
  email : string;
  hashed_password : string;
  full_name : string;
  is_active : bool;
  is_verified : bool;
  created_at : datetime
}.
End User.

Module UserRegister.
Record t : Type := mk {
  email : string;
  password : string;
  full_name : string
}.
End UserRegister.

Module UserResponse.
Record t : Type := mk {
  id : string;
  email : string;
  full_name : string;
  is_active : bool;
  created_at : datetime
}.
End UserResponse.

(** The unit of work of a request on the users table: the committed rows
    and the rows added since the last commit. *)
Record session : Type := mk_session {
  users : list User.t;
  pending : list User.t
}.

Definition db_add (u : User.t) (db : session) : session :=
  mk_session (users db) (pending db ++ [u]).

Definition db_commit (db : session) : session :=
  mk_session (users db ++ pending db) [].

Definition db_rollback (db : session) : session :=
  mk_session (users db) [].

(** [result.scalar_one_or_none()] *)
Definition scalar_one_or_none {A : Type} (rows : list A) : res (option A) :=
  match rows with
  | [] => Ok None
  | [r] => Ok (Some r)
  | _ => Raise (ValueError "MultipleResultsFound")
  end.

(** [select(User).where(User.email == email)]; the query flushes the
    pending rows first. *)
Definition select_user_by_email (email : string) (db : session)
    : list User.t :=
  List.filter (fun u => String.eqb (User.email u) email)
              (users db ++ pending db).

Section Register.
(** [hashlib.sha256(s.encode()).hexdigest()], the identifier the new row
    gets and the server's clock. *)
Variable sha256_hexdigest : string -> string.
Variable new_id : string.
Variable now : datetime.

Definition get_password_hash (password : string) : string :=
  sha256_hexdigest password.

(** The [try] block of [register]. *)
Definition register_body (user_data : UserRegister.t) (db : session)
    : res UserResponse.t * session :=
  match scalar_one_or_none
          (select_user_by_email (UserRegister.email user_data) db) with
  | Raise e => (Raise e, db)
  | Ok (Some existing_user) =>
      (Raise (HTTPException 400 "Email already registered"), db)
  | Ok None =>
      let hashed_password :=
        get_password_hash (UserRegister.password user_data) in
      let new_user :=
        User.mk new_id (UserRegister.email user_data) hashed_password
                (UserRegister.full_name user_data) true false now in
      let db' := db_commit (db_add new_user db) in
      (Ok (UserResponse.mk (User.id new_user) (User.email new_user)
                           (User.full_name new_user)
                           (User.is_active new_user)
                           (User.created_at new_user)), db')
  end.

(** [register]: [except Exception] takes whatever the block raised, the
    HTTPException of the duplicate check included, rolls back and raises
    the 500. *)
Definition register (user_data : UserRegister.t) (db : session)
    : res UserResponse.t * session :=
  match register_body user_data db with
  | (Ok response, db') => (Ok response, db')
  | (Raise e, db') =>
      (Raise (HTTPException 500 "Registration failed"), db_rollback db')
  end.

End Register.

(** ** app/api/v1/endpoints/reports.py *)

Module TaxLotDetails.
Record t : Type := mk {
  tax_lot_id : string;
  buy_transaction_id : string;
  sell_transaction_id : string
}.
End TaxLotDetails.

Module CapitalGainsReportItem.
Record t : Type := mk {
  instrument_name : string;
  isin : option string;
  quantity : Decimal;
  buy_date : Z;
  sell_date : Z;
  buy_price : Decimal;
  sell_price : Decimal;
  buy_value : Decimal;
  sell_value : Decimal;
  capital_gain : Decimal;
  holding_period_days : Z;
  is_long_term : bool;
  tax_lot_details : TaxLotDetails.t
}.
End CapitalGainsReportItem.

Module CapitalGainsResponse.
Record t : Type := mk {
  financial_year : string;
  report_date : Z;
  total_transactions : nat;
  total_short_term_gains : Decimal;
  total_long_term_gains : Decimal;
  net_capital_gains : Decimal;
  gains_items : list CapitalGainsReportItem.t
}.
End CapitalGainsResponse.

Module reports.
Section Report.
(** The mapped classes the endpoint imports. *)
Variable models : string -> list string.

(** The financial year's window: April 1 to March 31. *)
Definition parse_financial_year (financial_year : string) : res (Z * Z) :=
  let fy_parts := str_split "-" (str_replace "FY" "" financial_year) in
  match fy_parts with
  | part0 :: part1 :: _ =>
      start_year ← py_int part0;
      n ← py_int part1;
      let end_year := if (n <? 100)%Z then (n + 2000)%Z else n in
      fy_start ← date start_year 4 1;
      fy_end ← date end_year 3 31;
      Ok (fy_start, fy_end)
  | [part0] => _ ← py_int part0; Raise (IndexError "list index out of range")
  | [] => Raise (IndexError "list index out of range")
  end.

(** Building the query names these attributes, in this order. *)
Definition build_query (portfolio_id : option string) : res unit :=
  _ ← class_attr models "TaxLot" "transaction";
  _ ← class_attr models "Transaction" "instrument";
  _ ← class_attr models "TaxLot" "buy_transaction";
  _ ← class_attr models "Transaction" "instrument";
  _ ← class_attr models "TaxLot" "transaction_id";
  _ ← class_attr models "Transaction" "id";
  _ ← class_attr models "Transaction" "portfolio_id";
  _ ← class_attr models "Portfolio" "id";
  _ ← class_attr models "Portfolio" "user_id";
  _ ← class_attr models "TaxLot" "status";
  _ ← class_attr models "Transaction" "transaction_date";
  _ ← class_attr models "Transaction" "transaction_date";
  _ ← class_attr models "Transaction" "transaction_type";
  if str_truthy portfolio_id then class_attr models "Portfolio" "id"
  else Ok tt.

(** The rows the query selects: realized lots joined to their sell
    transaction in the window and to the caller's portfolio. *)
Definition selected (fy_start fy_end : Z) (user_id : string)
    (portfolio_id : option string) (tax_lot : gmap string val) : bool :=
  match joined tax_lot "transaction" with
  | Some txn =>
      match joined txn "portfolio" with
      | Some portfolio =>
          col_eq_str portfolio "user_id" user_id
          && col_eq_str tax_lot "status" "realized"
          && col_date_between txn "transaction_date" fy_start fy_end
          && col_eq_str txn "transaction_type" "sell"
          && (if str_truthy portfolio_id
              then col_eq_str portfolio "id" (default "" portfolio_id)
              else true)
      | None => false
      end
  | None => false
  end.

(** The variables of the loop over the selected lots. *)
Record report_state : Type := mk_report_state {
  gains_items : list CapitalGainsReportItem.t;
  total_short_term_gains : Decimal;
  total_long_term_gains : Decimal
}.

(** The body of [for tax_lot in tax_lots]. *)
Definition report_step (st : report_state) (tax_lot : gmap string val)
    : res report_state :=
  sell_txn ← (v ← getattr "TaxLot" tax_lot "transaction";
              as_obj "TaxLot" v "transaction_date");
  buy_txn ← (v ← getattr "TaxLot" tax_lot "buy_transaction";
             as_obj "TaxLot" v "transaction_date");
  sell_date ← (v ← getattr "Transaction" sell_txn "transaction_date";
               as_date v);
  buy_date ← (v ← getattr "Transaction" buy_txn "transaction_date";
              as_date v);
  let holding_days := (sell_date - buy_date)%Z in
  let is_long_term := (365 <? holding_days)%Z in
  quantity ← (v ← getattr "TaxLot" tax_lot "quantity"; as_dec v);
  buy_price ← (v ← getattr "TaxLot" tax_lot "buy_price"; as_dec v);
  let buy_value := (quantity * buy_price)%Q in
  sell_price ← (v ← getattr "TaxLot" tax_lot "sell_price"; as_dec v);
  let sell_value := (quantity * sell_price)%Q in
  let capital_gain := (sell_value - buy_value)%Q in
  let total_long_term_gains' :=
    if is_long_term then (total_long_term_gains st + capital_gain)%Q
    else total_long_term_gains st in
  let total_short_term_gains' :=
    if is_long_term then total_short_term_gains st
    else (total_short_term_gains st + capital_gain)%Q in
  instrument ← (v ← getattr "Transaction" sell_txn "instrument";
                as_obj "Transaction" v "name");
  instrument_name ← (v ← getattr "Instrument" instrument "name"; as_str v);
  isin ← (v ← getattr "Instrument" instrument "isin"; as_optional_str v);
  tax_lot_id ← (v ← getattr "TaxLot" tax_lot "id"; as_str v);
  buy_transaction_id ← (v ← getattr "Transaction" buy_txn "id"; as_str v);
  sell_transaction_id ← (v ← getattr "Transaction" sell_txn "id"; as_str v);
  let gains_item :=
    CapitalGainsReportItem.mk instrument_name isin quantity buy_date
      sell_date buy_price sell_price buy_value sell_value capital_gain
      holding_days is_long_term
      (TaxLotDetails.mk tax_lot_id buy_transaction_id sell_transaction_id) in
  Ok (mk_report_state (gains_items st ++ [gains_item])
                      total_short_term_gains' total_long_term_gains').

Fixpoint report_loop (st : report_state) (tax_lots : list (gmap string val))
    : res report_state :=
  match tax_lots with
  | [] => Ok st
  | tax_lot :: rest => st' ← report_step st tax_lot; report_loop st' rest
  end.

(** The [try] block of [get_capital_gains_report]; [table] holds the tax
    lots with their related rows, [today] is [datetime.now().date()]. *)
Definition report_body (today : Z) (financial_year : string)
    (portfolio_id : option string) (current_user : User.t)
    (table : list (gmap string val)) : res CapitalGainsResponse.t :=
  fy ← parse_financial_year financial_year;
  _ ← build_query portfolio_id;
  let tax_lots :=
    List.filter (selected (fst fy) (snd fy) (User.id current_user)
                          portfolio_id) table in
  st ← report_loop (mk_report_state [] 0 0) tax_lots;
  Ok (CapitalGainsResponse.mk financial_year today
        (length (gains_items st))
        (total_short_term_gains st) (total_long_term_gains st)
        (total_short_term_gains st + total_long_term_gains st)%Q
        (gains_items st)).

(** [get_capital_gains_report] *)
Definition get_capital_gains_report (today : Z) (financial_year : string)
    (portfolio_id : option string) (current_user : User.t)
    (table : list (gmap string val)) : res CapitalGainsResponse.t :=
  try_except
    (report_body today financial_year portfolio_id current_user table)
    (fun e => Raise (HTTPException 500 "Error generating capital gains report")).

End Report.
End reports.

(** ** app/portfolio/corporate_actions.py *)

Module CorporateActionProcessor.

(** The rows the processor's session holds: positions, and tax lots with
    the transaction they join to. *)
Record store : Type := mk_store {
  positions : list (gmap string val);
  tax_lots : list (gmap string val)
}.

(** [for obj in rows: body(obj)] over the rows of [table] the query
    selected.  The objects are updated in place: when the body raises, the
    changes made so far stay in the session. *)
Fixpoint for_selected (sel : gmap string val -> bool)
    (body : gmap string val -> res unit * gmap string val)
    (table : list (gmap string val)) : res unit * list (gmap string val) :=
  match table with
  | [] => (Ok tt, [])
  | obj :: rest =>
      if sel obj then
        match body obj with
        | (Ok _, obj') =>
            let '(r, rest') := for_selected sel body rest in (r, obj' :: rest')
        | (Raise e, obj') => (Raise e, obj' :: rest)
        end
      else
        let '(r, rest') := for_selected sel body rest in (r, obj :: rest')
  end.

Section Processor.
Variable models : string -> list string.

(** The body of [for position in positions]. *)
Definition split_position (split_ratio : Q) (position : gmap string val)
    : res unit * gmap string val :=
  match
    quantity ← (v ← getattr "Position" position "quantity"; as_dec v);
    let new_quantity := (quantity * split_ratio)%Q in
    average_price ← (v ← getattr "Position" position "average_price";
                     as_dec v);
    new_avg_price ← dec_div average_price split_ratio;
    Ok (new_quantity, new_avg_price)
  with
  | Ok (new_quantity, new_avg_price) =>
      (Ok tt, setattr (setattr position "quantity" (VDec new_quantity))
                      "average_price" (VDec new_avg_price))
  | Raise e => (Raise e, position)
  end.

(** The body of [for tax_lot in tax_lots]: the quantity is assigned before
    the buy price is read. *)
Definition split_tax_lot (split_ratio : Q) (tax_lot : gmap string val)
    : res unit * gmap string val :=
  match (v ← getattr "TaxLot" tax_lot "quantity"; as_dec v) with
  | Raise e => (Raise e, tax_lot)
  | Ok quantity =>
      let tax_lot' :=
        setattr tax_lot "quantity" (VDec (quantity * split_ratio)%Q) in
      match
        buy_price ← (v ← getattr "TaxLot" tax_lot' "buy_price"; as_dec v);
        dec_div buy_price split_ratio
      with
      | Ok new_buy_price =>
          (Ok tt, setattr tax_lot' "buy_price" (VDec new_buy_price))
      | Raise e => (Raise e, tax_lot')
      end
  end.

Definition position_selected (instrument_id : string)
    (position : gmap string val) : bool :=
  col_eq_str position "instrument_id" instrument_id
  && col_dec_positive position "quantity".

Definition tax_lot_selected (instrument_id : string)
    (tax_lot : gmap string val) : bool :=
  match joined tax_lot "transaction" with
  | Some txn =>
      col_eq_str txn "instrument_id" instrument_id
      && col_eq_str tax_lot "status" "open"
  | None => false
  end.

(** [_process_stock_split]; the result comes with the session's rows as
    the call leaves them. *)
Definition _process_stock_split (action : gmap string val) (db : store)
    : res unit * store :=
  match
    ratio_old ← getattr "CorporateAction" action "ratio_old";
    ratio_new ← (if val_falsy ratio_old then Ok VNone
                 else getattr "CorporateAction" action "ratio_new");
    if val_falsy ratio_old || val_falsy ratio_new
    then Raise (ValueError "Stock split requires ratio_old and ratio_new")
    else
      n ← as_dec ratio_new;
      o ← as_dec ratio_old;
      split_ratio ← dec_div n o;
      _ ← class_attr models "Position" "instrument_id";
      instrument_id ← (v ← getattr "CorporateAction" action "instrument_id";
                       as_str v);
      _ ← class_attr models "Position" "quantity";
      Ok (split_ratio, instrument_id)
  with
  | Raise e => (Raise e, db)
  | Ok (split_ratio, instrument_id) =>
      match for_selected (position_selected instrument_id)
                         (split_position split_ratio) (positions db) with
      | (Raise e, positions') => (Raise e, mk_store positions' (tax_lots db))
      | (Ok _, positions') =>
          match
            _ ← class_attr models "Transaction" "instrument_id";
            class_attr models "TaxLot" "status"
          with
          | Raise e => (Raise e, mk_store positions' (tax_lots db))
          | Ok _ =>
              let '(r, tax_lots') :=
                for_selected (tax_lot_selected instrument_id)
                             (split_tax_lot split_ratio) (tax_lots db) in
              (r, mk_store positions' tax_lots')
          end
      end
  end.

End Processor.
End CorporateActionProcessor.

(** ** Vocabulary of the statements *)

Section Nondecreasing.
Context {A : Type} (key : A -> Z).


End Nondecreasing.

(** An open lot still holds shares. *)
Definition is_open (lot : TaxLot.t) : bool :=
  dec_gt (TaxLot.remaining_quantity lot) 0.

(** Total remaining quantity across the open lots. *)
Fixpoint open_total (lots : list TaxLot.t) : Decimal :=
  match lots with
  | [] => 0%Q
  | lot :: rest =>
      if is_open lot
      then (TaxLot.remaining_quantity lot + open_total rest)%Q
      else open_total rest
  end.

(** The invariant of a tax lot. *)
Definition lot_inv (lot : TaxLot.t) : Prop :=
  (0 <= TaxLot.remaining_quantity lot)%Q /\
  (TaxLot.remaining_quantity lot <= TaxLot.quantity lot)%Q /\
  (TaxLot.is_closed lot = true <-> (TaxLot.remaining_quantity lot == 0)%Q).


(** A sequence of transactions applied through the tax-lot manager, one
    [process_transaction] after the other. *)
Fixpoint process_all (method : TaxLotMethod) (transactions : list Transaction.t)
    (lots : list TaxLot.t) : res (list TaxLot.t) :=
  match transactions with
  | [] => Ok lots
  | transaction :: rest =>
      r ← TaxLotManager.process_transaction method transaction lots;
      process_all method rest (fst r)
  end.

(** What an overselling sale leaves of a lot: an open lot ends closed and
    empty, any other lot is untouched. *)
Definition consumed (lot lot' : TaxLot.t) : Prop :=
  if is_open lot then
    (TaxLot.remaining_quantity lot' == 0)%Q /\
    TaxLot.is_closed lot' = true /\
    TaxLot.position_id lot' = TaxLot.position_id lot /\
    TaxLot.transaction_id lot' = TaxLot.transaction_id lot /\
    TaxLot.quantity lot' = TaxLot.quantity lot /\
    TaxLot.cost_per_share lot' = TaxLot.cost_per_share lot /\
    TaxLot.acquisition_date lot' = TaxLot.acquisition_date lot
  else lot' = lot.

(** The entry a sale records for a lot it takes whole. *)
Definition whole_lot_entry (lot : TaxLot.t) : string * Decimal * Decimal :=
  (TaxLot.transaction_id lot, TaxLot.remaining_quantity lot,
   (TaxLot.remaining_quantity lot * TaxLot.cost_per_share lot)%Q).

(** The calculator's running quantity is covered by the open lots. *)
Definition replay_inv (st : PositionCalculator.replay_state) : Prop :=
  (PositionCalculator.total_quantity st <=
   open_total (PositionCalculator.tax_lots st))%Q.

(** Sample transactions. *)
Definition trade (id : string) (ty : TransactionType) (date : datetime)
    (q p : Decimal) : Transaction.t :=
  Transaction.mk id "INE002A01018" None ty date q p (q * p)%Q (Some (q * p)%Q) INR.


Definition zero_buy : Transaction.t := trade "b0" BUY 86400 0 30.

Definition negative_sell : Transaction.t := trade "s0" SELL 86400 (-10) 45.

Definition small_sell : Transaction.t := trade "s1" SELL 172800 5 45.

Definition oversell_history : list Transaction.t :=
  [ trade "b1" BUY 86400 100 30; trade "s1" SELL 172800 150 45 ].

(** The purchase a manual gold entry becomes (app/ingestion/manual_assets.py):
    no identifier at all, the exchange is MANUAL. *)
Definition gold_purchase : ParsedTransaction.t :=
  ParsedTransaction.new BUY 86400 10 6000 60000
    "Gold (physical_gold) - Physical" None None None None None 0 0 0
    (Some 60000%Q) INR (Some "MANUAL") None None.

(** A registered user. *)
Definition sample_user : User.t :=
  User.mk "u1" "alice@example.com"
    "5e884898da28047151d0e56f8dc6292773603d0d6aabbdd62a11ef721d1542d8"
    "Alice" true false 0.

(** A 1-for-2 split of instrument i1, and a position in it as Position
    is mapped: 100 shares at average cost 50. *)
Definition split_1_for_2 : gmap string val :=
  list_to_map
    [ ("id", VStr "ca1"); ("instrument_id", VStr "i1");
      ("action_type", VStr "stock_split"); ("status", VStr "pending");
      ("ex_date", VDate 739000); ("record_date", VNone);
      ("payment_date", VNone); ("ratio_old", VDec 1); ("ratio_new", VDec 2);
      ("cash_amount", VNone); ("description", VNone); ("created_by", VNone) ].

Definition position_100_at_50 : gmap string val :=
  list_to_map
    [ ("id", VStr "p1"); ("portfolio_id", VStr "pf1");
      ("instrument_id", VStr "i1"); ("quantity", VDec 100);
      ("average_cost", VDec 50); ("total_cost", VDec 5000);
      ("current_price", VNone); ("market_value", VNone);
      ("unrealized_pnl", VNone); ("currency", VStr "INR");
      ("last_updated", VDate 739000) ].

(** Two cash flows 8000 years apart (2922000 days, 8000 years of 365.25
    days). *)
Definition far_dates : list datetime := [0; 2922000 * 86400]%Z.

Definition far_amounts : list float := [-1000; 1100]%float.

(** The known case: 1000 paid on day 0, a current value of 1100 on day
    365. *)
Definition known_flow : CashFlow.t :=
  CashFlow.mk 0%Z (-1000)%Q BUY None.

Definition known_valuation_date : datetime := (365 * 86400)%Z.

Definition known_dates : list datetime := [0; 365 * 86400]%Z.

Definition known_amounts : list float := [-1000; 1100]%float.

(** [365 / 365.25] *)
Definition known_year : float := 0.999315537303217%float.

(** The powers the routine asks of the C library on the known case, with
    their correctly rounded values: rows [(x, y, x ** y)]. *)
Definition known_powers : list (float * float * float) :=
  [ (1.1,                known_year, 1.099928242451653);
    (1.1000718066973527, known_year, 1.0999999953173554);
    (1.1000718113835104, known_year, 1.0999999999999999) ]%float.

(** The rate the routine returns on the known case, and [Decimal(str(.))]
    of it. *)
Definition known_rate : float := 0.10007181138351043%float.

Definition known_xirr : Decimal :=
  (10007181138351043 # 100000000000000000)%Q.

(** What the known case uses of the platform: the three powers, [float(.)]
    of the two amounts, [Decimal(str(.))] of the rate. *)
Definition known_platform (libm_pow : float -> float -> float)
    (float_of_decimal : Q -> float) (decimal_of_float : float -> Q) : Prop :=
  Forall (fun row => libm_pow (fst (fst row)) (snd (fst row)) = snd row)
    known_powers /\
  float_of_decimal (-1000)%Q = (-1000)%float /\
  float_of_decimal 1100%Q = 1100%float /\
  decimal_of_float known_rate = known_xirr.

(** A table for the power function, and the conversions on whole numbers. *)
Definition table_pow (table : list (float * float * float)) (x y : float)
    : float :=
  match
    List.find (fun row => (fst (fst row) =? x)%float
                          && (snd (fst row) =? y)%float) table
  with
  | Some row => snd row
  | None => PrimFloat.nan
  end.

Definition float_of_whole (q : Q) : float :=
  float_of_Z (Qnum q / Z.pos (Qden q)).


(** A schema that declares, besides what app/db/models.py does, the
    attributes reports.py and corporate_actions.py name. *)
Definition extended_models (cls : string) : list string :=
  app_db_models cls ++
  if String.eqb cls "TaxLot"
  then ["buy_transaction"; "status"; "buy_price"; "sell_price"]
  else if String.eqb cls "Position" then ["average_price"]
  else [].

Definition position_100_at_50_priced : gmap string val :=
  <["average_price" := VDec 50]> position_100_at_50.

(** Rows of such a schema for a report: an instrument, the user's
    portfolio, transactions, and realized lots with both transactions. *)
Definition sample_instrument : gmap string val :=
  list_to_map
    [ ("id", VStr "i1"); ("name", VStr "Infosys");
      ("isin", VStr "INE009A01021") ].

Definition sample_portfolio : gmap string val :=
  list_to_map [ ("id", VStr "pf1"); ("user_id", VStr "u1") ].

Definition sample_transaction (id type : string) (day : Z)
    : gmap string val :=
  list_to_map
    [ ("id", VStr id); ("portfolio_id", VStr "pf1");
      ("instrument_id", VStr "i1"); ("transaction_type", VStr type);
      ("transaction_date", VDate day);
      ("instrument", VObj sample_instrument);
      ("portfolio", VObj sample_portfolio) ].

Definition realized_lot (id : string) (buy_day sell_day : Z)
    (quantity buy_price sell_price : Q) : gmap string val :=
  list_to_map
    [ ("id", VStr id); ("status", VStr "realized");
      ("quantity", VDec quantity); ("buy_price", VDec buy_price);
      ("sell_price", VDec sell_price);
      ("transaction", VObj (sample_transaction "sell" "sell" sell_day));
      ("buy_transaction", VObj (sample_transaction "buy" "buy" buy_day)) ].

(** Sells on 2024-03-31, 2024-04-01, 2025-03-31 and 2025-04-01; the second
    lot was held 365 days, the third 366. *)
Definition sample_lots : list (gmap string val) :=
  [ realized_lot "l1" 738900 738976 10 100 110;
    realized_lot "l2" 738612 738977 10 100 120;
    realized_lot "l3" 738975 739341 10 100 90;
    realized_lot "l4" 739000 739342 10 100 130 ].

(** ** app/portfolio/positions.py: unrealized gains and the portfolio summary *)

Module UnrealizedGains.
Record t : Type := mk {
  total_unrealized : Decimal;
  short_term_unrealized : Decimal;
  long_term_unrealized : Decimal
}.
End UnrealizedGains.

(** The body of [for lot in tax_lots] of [calculate_unrealized_gains]. *)
Definition unrealized_step (current_price : Decimal)
    (valuation_date : datetime) (st : UnrealizedGains.t) (lot : TaxLot.t)
    : UnrealizedGains.t :=
  if dec_le (TaxLot.remaining_quantity lot) 0 then st
  else
    let current_value := (TaxLot.remaining_quantity lot * current_price)%Q in
    let cost_basis :=
      (TaxLot.remaining_quantity lot * TaxLot.cost_per_share lot)%Q in
    let unrealized_gain := (current_value - cost_basis)%Q in
    let total' := (UnrealizedGains.total_unrealized st + unrealized_gain)%Q in
    let holding_days :=
      days_between valuation_date (TaxLot.acquisition_date lot) in
    if (365 <=? holding_days)%Z then
      UnrealizedGains.mk total' (UnrealizedGains.short_term_unrealized st)
        (UnrealizedGains.long_term_unrealized st + unrealized_gain)%Q
    else
      UnrealizedGains.mk total'
        (UnrealizedGains.short_term_unrealized st + unrealized_gain)%Q
        (UnrealizedGains.long_term_unrealized st).

(** [TaxLotManager.calculate_unrealized_gains] *)
Definition calculate_unrealized_gains (tax_lots : list TaxLot.t)
    (current_price : Decimal) (valuation_date : datetime)
    : UnrealizedGains.t :=
  fold_left (unrealized_step current_price valuation_date) tax_lots
            (UnrealizedGains.mk 0 0 0).

Definition Currency_value (c : Currency) : string :=
  match c with INR => "INR" | USD => "USD" | EUR => "EUR" | GBP => "GBP" end.

Module PortfolioSummary.
Record t : Type := mk {
  total_positions : nat;
  total_invested : Decimal;
  current_value : Decimal;
  total_unrealized_pnl : Decimal;
  total_return_percentage : Decimal;
  base_currency : string
}.
End PortfolioSummary.

(** [if d:] for an [Optional[Decimal]]: [None] and zero are falsy. *)
Definition dec_truthy (d : option Q) : bool :=
  match d with
  | Some x => negb (dec_is_zero x)
  | None => false
  end.

(** The totals of the loop of [calculate_portfolio_summary]: cost, market
    value, unrealized P&L. *)
Definition summary_step (st : Q * Q * Q) (position : PositionSnapshot.t)
    : Q * Q * Q :=
  let '(total_cost, total_market_value, total_unrealized_pnl) := st in
  if dec_gt (PositionSnapshot.quantity position) 0 then
    (total_cost + PositionSnapshot.total_cost position,
     if dec_truthy (PositionSnapshot.market_value position)
     then total_market_value
          + default 0 (PositionSnapshot.market_value position)
     else total_market_value,
     if dec_truthy (PositionSnapshot.unrealized_pnl position)
     then total_unrealized_pnl
          + default 0 (PositionSnapshot.unrealized_pnl position)
     else total_unrealized_pnl)%Q
  else st.

(** [PositionCalculator.calculate_portfolio_summary] *)
Definition calculate_portfolio_summary (positions : list PositionSnapshot.t)
    (base_currency : Currency) : PortfolioSummary.t :=
  let '(total_cost, total_market_value, total_unrealized_pnl) :=
    fold_left summary_step positions (0, 0, 0)%Q in
  let total_return_pct :=
    if dec_gt total_cost 0
    then (total_unrealized_pnl / total_cost * 100)%Q else 0%Q in
  PortfolioSummary.mk (length positions) total_cost total_market_value
    total_unrealized_pnl total_return_pct (Currency_value base_currency).

(** ** app/portfolio/service.py: the positions of a portfolio *)

(** [transactions_by_instrument]: a dict keeps its keys in the order of
    their first insertion. *)
Fixpoint group_add (txn : Transaction.t)
    (groups : list (string * list Transaction.t))
    : list (string * list Transaction.t) :=
  match groups with
  | [] => [(Transaction.instrument_id txn, [txn])]
  | (k, l) :: rest =>
      if String.eqb k (Transaction.instrument_id txn)
      then (k, l ++ [txn]) :: rest
      else (k, l) :: group_add txn rest
  end.

Definition group_by_instrument (transactions : list Transaction.t)
    : list (string * list Transaction.t) :=
  fold_left (fun groups txn => group_add txn groups) transactions [].

Section PortfolioService.
(** [_get_current_price]: the latest close on or before the valuation
    date, as the prices table gives it. *)
Variable _get_current_price : string -> datetime -> option Decimal.

(** The body of [for instrument_id, instrument_transactions in ...]: a
    position that cannot be calculated is logged and skipped. *)
Definition position_of_group (now valuation_date : datetime)
    (group : string * list Transaction.t) : list PositionSnapshot.t :=
  match
    PositionCalculator.calculate_position now (snd group)
      (_get_current_price (fst group) valuation_date) (Some valuation_date)
  with
  | Ok position =>
      if dec_gt (PositionSnapshot.quantity position) 0 then [position]
      else []
  | Raise _ => []
  end.

(** [PortfolioService.calculate_portfolio_positions]; [transactions] are
    the portfolio's rows as the query returns them. *)
Definition calculate_portfolio_positions (now : datetime)
    (transactions : list Transaction.t) (valuation_date : option datetime)
    : list PositionSnapshot.t :=
  let valuation_date := default now valuation_date in
  match transactions with
  | [] => []
  | _ =>
      concat (map (position_of_group now valuation_date)
                  (group_by_instrument transactions))
  end.

End PortfolioService.

(** ** Vocabulary: what a sale took *)

(** The quantity and the cost a sale's acquisition entries add up to. *)
Definition acquired_quantity (entries : list (string * Decimal * Decimal))
    : Decimal :=
  fold_right (fun e acc => (snd (fst e) + acc)%Q) 0%Q entries.

Definition acquired_cost (entries : list (string * Decimal * Decimal))
    : Decimal :=
  fold_right (fun e acc => (snd e + acc)%Q) 0%Q entries.

(** Two transactions that differ at most in their amounts. *)
Definition same_trade (t t' : Transaction.t) : Prop :=
  Transaction.id t = Transaction.id t' /\
  Transaction.instrument_id t = Transaction.instrument_id t' /\
  Transaction.instrument t = Transaction.instrument t' /\
  Transaction.transaction_type t = Transaction.transaction_type t' /\
  Transaction.transaction_date t = Transaction.transaction_date t' /\
  Transaction.quantity t = Transaction.quantity t' /\
  Transaction.price t = Transaction.price t' /\
  Transaction.currency t = Transaction.currency t'.

(** The transactions of instrument [k], and the groups after the
    transactions [pre] have been filed: one key for each instrument met,
    with the instrument's transactions in their order. *)
Definition of_instrument (k : string) (t : Transaction.t) : bool :=
  String.eqb k (Transaction.instrument_id t).

Definition groups_of (pre : list Transaction.t)
    (groups : list (string * list Transaction.t)) : Prop :=
  List.NoDup (map fst groups) /\
  Forall (fun g => snd g <> [] /\
                   snd g = List.filter (of_instrument (fst g)) pre) groups /\
  Forall (fun t => In (Transaction.instrument_id t) (map fst groups)) pre.

(** Sample lots: 100 bought on day 1 at 30, 100 on day 2 at 40. *)
Definition two_lots : list TaxLot.t :=
  [ TaxLot.mk "" "b1" 100 100 30 86400 false;
    TaxLot.mk "" "b2" 100 100 40 172800 false ].


(** ** app/api/v1/endpoints/auth.py: login *)

Module UserLogin.
Record t : Type := mk {
  email : string;
  password : string
}.
End UserLogin.

Module Token.
Record t : Type := mk {
  access_token : string;
  token_type : string
}.
End Token.

Section Login.
(** [hashlib.sha256(s.encode()).hexdigest()]; [jwt.encode] of the claims
    [sub] and [exp] under the settings' key and algorithm;
    [datetime.utcnow()]; [settings.ACCESS_TOKEN_EXPIRE_MINUTES]. *)
Variable sha256_hexdigest : string -> string.
Variable jwt_encode : string -> datetime -> string.
Variable utcnow : datetime.
Variable ACCESS_TOKEN_EXPIRE_MINUTES : Z.

Definition verify_password (plain_password hashed_password : string) : bool :=
  String.eqb (sha256_hexdigest plain_password) hashed_password.

(** [create_access_token(data={"sub": sub}, expires_delta)]; the delta is
    in seconds, and a zero [timedelta] is falsy. *)
Definition create_access_token (sub : string) (expires_delta : option Z)
    : string :=
  let expire :=
    match expires_delta with
    | Some delta =>
        if (delta =? 0)%Z then (utcnow + 15 * 60)%Z else (utcnow + delta)%Z
    | None => (utcnow + 15 * 60)%Z
    end in
  jwt_encode sub expire.

(** The [try] block of [login]. *)
Definition login_body (user_credentials : UserLogin.t) (db : session)
    : res Token.t :=
  user ← scalar_one_or_none
           (select_user_by_email (UserLogin.email user_credentials) db);
  match user with
  | None => Raise (HTTPException 401 "Incorrect email or password")
  | Some user =>
      if negb (verify_password (UserLogin.password user_credentials)
                               (User.hashed_password user))
      then Raise (HTTPException 401 "Incorrect email or password")
      else if negb (User.is_active user)
      then Raise (HTTPException 400 "Inactive user")
      else
        let access_token :=
          create_access_token (User.email user)
            (Some (ACCESS_TOKEN_EXPIRE_MINUTES * 60)%Z) in
        Ok (Token.mk access_token "bearer")
  end.

(** [login]: an HTTPException passes ([except HTTPException: raise]),
    anything else becomes the 500. *)
Definition login (user_credentials : UserLogin.t) (db : session)
    : res Token.t :=
  try_except (login_body user_credentials db)
    (fun e =>
       match e with
       | HTTPException _ _ => Raise e
       | _ => Raise (HTTPException 500 "Login failed")
       end).

End Login.

(** ** app/portfolio/corporate_actions.py: bonus, dividend and
    [process_action] *)

(** [Cls(key=value, ...)] of a mapped class: the declarative constructor refuses
    a keyword the class has no attribute for. *)
Definition construct (models : string -> list string) (cls : string)
    (kwargs : list (string * val)) : res (gmap string val) :=
  match List.find (fun kv => negb (bool_decide (fst kv ∈ models cls))) kwargs
  with
  | Some kv =>
      Raise (TypeError ("'" ++ fst kv
                        ++ "' is an invalid keyword argument for " ++ cls))
  | None => Ok (list_to_map kwargs)
  end.

(** [a or b] *)
Definition val_or (a b : val) : val := if val_falsy a then b else a.

(** The processor's session with the corporate actions, keyed by their
    primary key, the positions and tax lots, and the transactions added. *)
Record ca_db : Type := mk_ca_db {
  actions : gmap string (gmap string val);
  rows : CorporateActionProcessor.store;
  added : list (gmap string val)
}.

Section ProcessAction.
Variable models : string -> list string.
(** How an f-string renders a member of CorporateActionType, given its
    value (the value itself or [CorporateActionType.NAME], by the Python
    version). *)
Variable format_action_type : string -> string.

(** The body of [for position in positions] of [_process_bonus_issue]. *)
Definition bonus_position (bonus_ratio : Q) (position : gmap string val)
    : res unit * gmap string val :=
  match
    quantity ← (v ← getattr "Position" position "quantity"; as_dec v);
    let bonus_shares := (quantity * bonus_ratio)%Q in
    let new_total_quantity := (quantity + bonus_shares)%Q in
    average_price ← (v ← getattr "Position" position "average_price";
                     as_dec v);
    new_avg_price ← dec_div (average_price * quantity) new_total_quantity;
    Ok (new_total_quantity, new_avg_price)
  with
  | Ok (new_total_quantity, new_avg_price) =>
      (Ok tt, setattr (setattr position "quantity" (VDec new_total_quantity))
                      "average_price" (VDec new_avg_price))
  | Raise e => (Raise e, position)
  end.

(** [_process_bonus_issue] *)
Definition _process_bonus_issue (action : gmap string val)
    (db : CorporateActionProcessor.store)
    : res unit * CorporateActionProcessor.store :=
  match
    ratio_old ← getattr "CorporateAction" action "ratio_old";
    ratio_new ← (if val_falsy ratio_old then Ok VNone
                 else getattr "CorporateAction" action "ratio_new");
    if val_falsy ratio_old || val_falsy ratio_new
    then Raise (ValueError "Bonus issue requires ratio_old and ratio_new")
    else
      n ← as_dec ratio_new;
      o ← as_dec ratio_old;
      bonus_ratio ← dec_div n o;
      _ ← class_attr models "Position" "instrument_id";
      instrument_id ← (v ← getattr "CorporateAction" action "instrument_id";
                       as_str v);
      _ ← class_attr models "Position" "quantity";
      Ok (bonus_ratio, instrument_id)
  with
  | Raise e => (Raise e, db)
  | Ok (bonus_ratio, instrument_id) =>
      let '(r, positions') :=
        CorporateActionProcessor.for_selected
          (CorporateActionProcessor.position_selected instrument_id)
          (bonus_position bonus_ratio)
          (CorporateActionProcessor.positions db) in
      (r, CorporateActionProcessor.mk_store positions'
            (CorporateActionProcessor.tax_lots db))
  end.

(** The body of [for position in positions] of [_process_dividend]: the
    transaction to add. *)
Definition dividend_transaction (action position : gmap string val)
    : res (gmap string val) :=
  quantity ← (v ← getattr "Position" position "quantity"; as_dec v);
  cash_amount ← (v ← getattr "CorporateAction" action "cash_amount";
                 as_dec v);
  let dividend_amount := (quantity * cash_amount)%Q in
  portfolio_id ← getattr "Position" position "portfolio_id";
  instrument_id ← getattr "CorporateAction" action "instrument_id";
  payment_date ← getattr "CorporateAction" action "payment_date";
  transaction_date ← (if val_falsy payment_date
                      then getattr "CorporateAction" action "ex_date"
                      else Ok payment_date);
  price ← getattr "CorporateAction" action "cash_amount";
  id ← (v ← getattr "CorporateAction" action "id"; as_str v);
  construct models "Transaction"
    [ ("portfolio_id", portfolio_id); ("instrument_id", instrument_id);
      ("transaction_type", VStr "dividend");
      ("transaction_date", transaction_date); ("quantity", VDec 0);
      ("price", price); ("amount", VDec dividend_amount);
      ("currency", VStr "INR");
      ("notes", VStr ("Dividend from corporate action " ++ id)) ].

Fixpoint dividend_loop (action : gmap string val)
    (positions : list (gmap string val)) (added : list (gmap string val))
    : res unit * list (gmap string val) :=
  match positions with
  | [] => (Ok tt, added)
  | position :: rest =>
      match dividend_transaction action position with
      | Ok dividend_txn => dividend_loop action rest (added ++ [dividend_txn])
      | Raise e => (Raise e, added)
      end
  end.

(** [_process_dividend]; the result comes with the transactions added. *)
Definition _process_dividend (action : gmap string val)
    (db : CorporateActionProcessor.store) (added : list (gmap string val))
    : res unit * list (gmap string val) :=
  match
    cash_amount ← getattr "CorporateAction" action "cash_amount";
    if val_falsy cash_amount
    then Raise (ValueError "Dividend requires cash_amount")
    else
      _ ← class_attr models "Position" "portfolio";
      _ ← class_attr models "Position" "instrument_id";
      instrument_id ← (v ← getattr "CorporateAction" action "instrument_id";
                       as_str v);
      _ ← class_attr models "Position" "quantity";
      Ok instrument_id
  with
  | Raise e => (Raise e, added)
  | Ok instrument_id =>
      dividend_loop action
        (List.filter (CorporateActionProcessor.position_selected instrument_id)
                     (CorporateActionProcessor.positions db))
        added
  end.

(** [action.status = status], on the row of the action in the session. *)
Definition set_status (action_id : string) (action : gmap string val)
    (status : string) (db : ca_db) : ca_db :=
  mk_ca_db (<[action_id := setattr action "status" (VStr status)]> (actions db))
           (rows db) (added db).

(** The dispatch of [process_action] on the action type. *)
Definition dispatch (action_type : string) (action : gmap string val)
    (db : ca_db) : res unit * ca_db :=
  if String.eqb action_type "stock_split" then
    let '(r, rows') :=
      CorporateActionProcessor._process_stock_split models action (rows db) in
    (r, mk_ca_db (actions db) rows' (added db))
  else if String.eqb action_type "bonus" then
    let '(r, rows') := _process_bonus_issue action (rows db) in
    (r, mk_ca_db (actions db) rows' (added db))
  else if String.eqb action_type "dividend" then
    let '(r, added') := _process_dividend action (rows db) (added db) in
    (r, mk_ca_db (actions db) (rows db) added')
  else
    (Raise (ValueError ("Unsupported corporate action type: "
                        ++ format_action_type action_type)),
     db).

(** [process_action].  The query for the action names
    [CorporateAction.instrument] and [CorporateAction.id], which the class
    declares; [models] is read for the classes the processors name.  When
    the action was found, the handler marks it failed, commits whatever the
    processors changed, and raises the exception again. *)
Definition process_action (action_id : string) (db : ca_db)
    : res bool * ca_db :=
  match actions db !! action_id with
  | None =>
      (Raise (ValueError ("Corporate action " ++ action_id ++ " not found")),
       db)
  | Some action =>
      match
        status ← (v ← getattr "CorporateAction" action "status"; as_str v);
        if negb (String.eqb status "pending")
        then Raise (ValueError ("Corporate action " ++ action_id
                                ++ " is not in pending status"))
        else Ok tt
      with
      | Raise e => (Raise e, set_status action_id action "failed" db)
      | Ok _ =>
          let action1 := setattr action "status" (VStr "processing") in
          let db1 := set_status action_id action "processing" db in
          match
            (v ← getattr "CorporateAction" action1 "action_type"; as_str v)
          with
          | Raise e => (Raise e, set_status action_id action1 "failed" db1)
          | Ok action_type =>
              match dispatch action_type action1 db1 with
              | (Ok _, db2) =>
                  (Ok true, set_status action_id action1 "completed" db2)
              | (Raise e, db2) =>
                  (Raise e, set_status action_id action1 "failed" db2)
              end
          end
      end
  end.

End ProcessAction.

(** A completed dividend action, and a session that holds it. *)
Definition completed_dividend : gmap string val :=
  list_to_map
    [ ("id", VStr "ca2"); ("instrument_id", VStr "i1");
      ("action_type", VStr "dividend"); ("status", VStr "completed");
      ("ex_date", VDate 739000); ("record_date", VNone);
      ("payment_date", VNone); ("ratio_old", VNone); ("ratio_new", VNone);
      ("cash_amount", VDec 5); ("description", VNone); ("created_by", VNone) ].

Definition sample_ca_db : ca_db :=
  mk_ca_db (<["ca1" := split_1_for_2]> (<["ca2" := completed_dividend]> ∅))
           (CorporateActionProcessor.mk_store [position_100_at_50] []) [].


(** ** Python's order on strings and tuples, [sorted] without a key,
    [str.join] and [str.split]

    Strings compare by code point, which on UTF-8 bytes is the order of
    the bytes; tuples compare by their first differing component. *)

Definition pair_compare {A B : Type} (cmpA : A -> A -> comparison)
    (cmpB : B -> B -> comparison) (x y : A * B) : comparison :=
  match cmpA (fst x) (fst y) with
  | Eq => cmpB (snd x) (snd y)
  | c => c
  end.

Definition triple_compare : string * string * string ->
    string * string * string -> comparison :=
  pair_compare (pair_compare String.compare String.compare) String.compare.

Section SortedBy.
Context {A : Type} (cmp : A -> A -> comparison).

(** [x < y] *)
Definition lt_by (x y : A) : bool :=
  match cmp x y with Lt => true | _ => false end.

Fixpoint insert_by (x : A) (l : list A) : list A :=
  match l with
  | [] => [x]
  | y :: l' => if lt_by y x then y :: insert_by x l' else x :: l
  end.

(** [sorted(l)]: stable, by [<] alone. *)
Definition sorted_by (l : list A) : list A := fold_right insert_by [] l.

(** [not (y < x)], the order of a sorted list. *)
Definition le_by (x y : A) : Prop := cmp x y <> Gt.

End SortedBy.

(** [sep.join(parts)] *)
Fixpoint str_join (sep : string) (parts : list string) : string :=
  match parts with
  | [] => ""
  | [p] => p
  | p :: rest => (p ++ sep ++ str_join sep rest)%string
  end.

(** White space for [str.split] and for the pattern [\s]: the ASCII
    white space and the separators 28 to 31. *)
Definition is_py_space (c : ascii) : bool :=
  let n := nat_of_ascii c in
  is_space c || ((28 <=? n)%nat && (n <=? 31)%nat).

(** [s.split()]: the runs of characters between white space; [cur] is the
    run being read. *)
Fixpoint words_from (cur : string) (s : string) : list string :=
  match s with
  | EmptyString => if String.eqb cur "" then [] else [cur]
  | String c s' =>
      if is_py_space c then
        if String.eqb cur "" then words_from "" s'
        else cur :: words_from "" s'
      else words_from (cur ++ String c "")%string s'
  end.

Definition str_words (s : string) : list string := words_from "" s.

Fixpoint str_filter (f : ascii -> bool) (s : string) : string :=
  match s with
  | EmptyString => EmptyString
  | String c s' => if f c then String c (str_filter f s') else str_filter f s'
  end.

(** ** app/canonicalization/canonicalizer.py: names, matching and the
    cache *)

Module Exchange.
Inductive t : Type := NSE | BSE | NASDAQ | NYSE | MANUAL.
End Exchange.

Definition IdentifierType_value (ty : IdentifierType.t) : string :=
  match ty with
  | IdentifierType.ISIN => "isin"
  | IdentifierType.AMFI_CODE => "amfi_code"
  | IdentifierType.CUSIP => "cusip"
  | IdentifierType.SYMBOL => "symbol"
  | IdentifierType.MANUAL => "manual"
  end.

Definition IdentifierType_eqb (a b : IdentifierType.t) : bool :=
  String.eqb (IdentifierType_value a) (IdentifierType_value b).

Module CanonicalInstrument.
Record t : Type := mk {
  canonical_id : string;
  name : string;
  asset_class : AssetClass;
  currency : Currency;
  primary_exchange : option Exchange.t;
  identifiers : list InstrumentIdentifier.t;
  sector : option string;
  industry : option string;
  country : string;
  face_value : option float;
  lot_size : Z;
  is_active : bool;
  confidence_score : float
}.
End CanonicalInstrument.

Module NameNormalizer.

Definition abbreviations : list (string * string) :=
  [ ("LTD", "LIMITED"); ("PVT", "PRIVATE"); ("CORP", "CORPORATION");
    ("INC", "INCORPORATED"); ("CO", "COMPANY"); ("TECH", "TECHNOLOGY");
    ("PHARM", "PHARMACEUTICALS"); ("INFRA", "INFRASTRUCTURE");
    ("FIN", "FINANCIAL"); ("SVC", "SERVICES"); ("MFG", "MANUFACTURING") ].

Definition stop_words : list string :=
  ["THE"; "OF"; "AND"; "OR"; "FOR"; "WITH"; "BY"].

Definition company_suffixes : list string :=
  [ "LIMITED"; "LTD"; "PRIVATE"; "PVT"; "CORPORATION"; "CORP";
    "INCORPORATED"; "INC"; "COMPANY"; "CO"; "LLC"; "LLP" ].

Definition str_in (s : string) (l : list string) : bool :=
  existsb (String.eqb s) l.

(** [abbreviations.get(word, word)] *)
Definition expand (word : string) : string :=
  match List.find (fun kv => String.eqb (fst kv) word) abbreviations with
  | Some kv => snd kv
  | None => word
  end.

(** A character the pattern [[^\w\s\-]] leaves in place.  On ASCII, [\w]
    is a letter, a digit or the underscore; the bytes of other characters
    are left in place. *)
Definition kept (c : ascii) : bool :=
  let n := nat_of_ascii c in
  ((65 <=? n)%nat && (n <=? 90)%nat) || ((97 <=? n)%nat && (n <=? 122)%nat)
  || ((48 <=? n)%nat && (n <=? 57)%nat) || (n =? 95)%nat
  || is_py_space c || (n =? 45)%nat || (128 <=? n)%nat.

(** [words[:-1]] when the last word is a company suffix. *)
Fixpoint drop_suffix (words : list string) : list string :=
  match words with
  | [] => []
  | [w] => if str_in w company_suffixes then [] else [w]
  | w :: rest => w :: drop_suffix rest
  end.

(** [normalize] *)
Definition normalize (name : string) : string :=
  if String.eqb name "" then ""
  else
    let normalized := strip (upper name) in
    let normalized := str_filter kept normalized in
    let words := str_words normalized in
    let words := map expand words in
    let words :=
      match words with
      | first :: (_ :: _) as rest =>
          first :: List.filter (fun w => negb (str_in w stop_words)) rest
      | _ => words
      end in
    let words := drop_suffix words in
    str_join " " words.

End NameNormalizer.

Module ExactMatcher.

(** The body of [for existing_id in instrument.identifiers]: on equal type
    and value, an exchange that both sides give and that differs goes on
    to the next identifier; otherwise the instrument is appended and the
    loop over its identifiers ends. *)
Fixpoint match_identifiers (query_id : InstrumentIdentifier.t)
    (instrument : CanonicalInstrument.t)
    (existing_ids : list InstrumentIdentifier.t)
    : list (CanonicalInstrument.t * float) :=
  match existing_ids with
  | [] => []
  | existing_id :: rest =>
      if IdentifierType_eqb (InstrumentIdentifier.identifier_type query_id)
                            (InstrumentIdentifier.identifier_type existing_id)
         && String.eqb (InstrumentIdentifier.value query_id)
                       (InstrumentIdentifier.value existing_id)
      then
        if str_truthy (InstrumentIdentifier.exchange query_id)
           && str_truthy (InstrumentIdentifier.exchange existing_id)
           && negb (String.eqb
                      (default "" (InstrumentIdentifier.exchange query_id))
                      (default "" (InstrumentIdentifier.exchange existing_id)))
        then match_identifiers query_id instrument rest
        else [(instrument, 1%float)]
      else match_identifiers query_id instrument rest
  end.

(** [match] *)
Definition match_ (query_identifiers : list InstrumentIdentifier.t)
    (existing_instruments : list CanonicalInstrument.t)
    : list (CanonicalInstrument.t * float) :=
  flat_map
    (fun query_id =>
       flat_map
         (fun instrument =>
            match_identifiers query_id instrument
              (CanonicalInstrument.identifiers instrument))
         existing_instruments)
    query_identifiers.

End ExactMatcher.

Module Canonicalizer.

(** [unique_matches]: a dict keeps the place of a key's first insertion;
    an entry is replaced when the confidence is higher. *)
Fixpoint unique_add (m : CanonicalInstrument.t * float)
    (unique : list (string * (CanonicalInstrument.t * float)))
    : list (string * (CanonicalInstrument.t * float)) :=
  match unique with
  | [] => [(CanonicalInstrument.canonical_id (fst m), m)]
  | (k, old) :: rest =>
      if String.eqb k (CanonicalInstrument.canonical_id (fst m))
      then (if (snd old <? snd m)%float then (k, m) else (k, old)) :: rest
      else (k, old) :: unique_add m rest
  end.

(** [_find_matches]: the exact matcher, then the fuzzy one, which returns
    no match. *)
Definition _find_matches (query_identifiers : list InstrumentIdentifier.t)
    (existing_instruments : list CanonicalInstrument.t)
    : list (CanonicalInstrument.t * float) :=
  let all_matches :=
    ExactMatcher.match_ query_identifiers existing_instruments ++ [] in
  map snd (fold_left (fun unique m => unique_add m unique) all_matches []).

(** [max(matches, key=lambda x: x[1])]: the first of the greatest. *)
Fixpoint best_from (best : CanonicalInstrument.t * float)
    (l : list (CanonicalInstrument.t * float))
    : CanonicalInstrument.t * float :=
  match l with
  | [] => best
  | m :: l' => best_from (if (snd best <? snd m)%float then m else best) l'
  end.

(** [_create_cache_key] *)
Definition _create_cache_key (name : string)
    (identifiers : list InstrumentIdentifier.t) : string :=
  let sorted_ids :=
    sorted_by triple_compare
      (map (fun id =>
              (IdentifierType_value (InstrumentIdentifier.identifier_type id),
               InstrumentIdentifier.value id,
               if str_truthy (InstrumentIdentifier.exchange id)
               then default "" (InstrumentIdentifier.exchange id) else ""))
           identifiers) in
  let key_parts :=
    name :: map (fun tve => (fst (fst tve) ++ ":" ++ snd (fst tve) ++ ":"
                             ++ snd tve)%string) sorted_ids in
  md5.hexdigest (str_join "|" key_parts).

(** [_create_new_instrument] *)
Definition _create_new_instrument (name : string)
    (identifiers : list InstrumentIdentifier.t) (asset_class : AssetClass)
    (currency : Currency) (exchange : option Exchange.t)
    : res CanonicalInstrument.t :=
  primary_identifier ←
    InstrumentCanonicalizer._select_primary_identifier identifiers;
  let canonical_id :=
    CanonicalIdGenerator.generate primary_identifier asset_class name in
  let normalized_name := NameNormalizer.normalize name in
  Ok (CanonicalInstrument.mk canonical_id normalized_name asset_class currency
        exchange identifiers None None "IN" None 1 true 1%float).

(** [canonicalize]; the cache is the canonicalizer's [_cache]. *)
Definition canonicalize (name : string)
    (identifiers : list InstrumentIdentifier.t) (asset_class : AssetClass)
    (currency : Currency) (existing_instruments : list CanonicalInstrument.t)
    (exchange : option Exchange.t) (cache : gmap string CanonicalInstrument.t)
    : res CanonicalInstrument.t * gmap string CanonicalInstrument.t :=
  let cache_key := _create_cache_key name identifiers in
  match cache !! cache_key with
  | Some cached => (Ok cached, cache)
  | None =>
      match _find_matches identifiers existing_instruments with
      | m :: matches =>
          let best_match := fst (best_from m matches) in
          (Ok best_match, <[cache_key := best_match]> cache)
      | [] =>
          match _create_new_instrument name identifiers asset_class currency
                  exchange with
          | Ok canonical_instrument =>
              (Ok canonical_instrument,
               <[cache_key := canonical_instrument]> cache)
          | Raise e => (Raise e, cache)
          end
      end
  end.

End Canonicalizer.

(** ** app/canonicalization/service.py: parsing identifiers *)

(** [d.get(k)] for a [Dict[str, Optional[str]]]. *)
Definition dict_get (d : gmap string (option string)) (k : string)
    : option string :=
  match d !! k with
  | Some v => v
  | None => None
  end.

(** [s.startswith(p)] *)
Definition startswith (p s : string) : bool := String.prefix p s.

(** [_parse_identifiers] *)
Definition _parse_identifiers (identifiers : gmap string (option string))
    (exchange : option string) : list InstrumentIdentifier.t :=
  (if str_truthy (dict_get identifiers "isin") then
     [InstrumentIdentifier.new IdentifierType.ISIN
        (default "" (dict_get identifiers "isin")) None
        (if startswith "IN" (default "" (dict_get identifiers "isin"))
         then Some "IN" else None)]
   else []) ++
  (if str_truthy (dict_get identifiers "amfi_code") then
     [InstrumentIdentifier.new IdentifierType.AMFI_CODE
        (default "" (dict_get identifiers "amfi_code")) None None]
   else []) ++
  (if str_truthy (dict_get identifiers "cusip") then
     [InstrumentIdentifier.new IdentifierType.CUSIP
        (default "" (dict_get identifiers "cusip")) None (Some "US")]
   else []) ++
  (if str_truthy (dict_get identifiers "symbol") then
     [InstrumentIdentifier.new IdentifierType.SYMBOL
        (default "" (dict_get identifiers "symbol")) exchange None]
   else []).

(** Sample identifiers. *)
Definition infy_isin : InstrumentIdentifier.t :=
  InstrumentIdentifier.new IdentifierType.ISIN "INE009A01021" None None.

Definition infy_symbol : InstrumentIdentifier.t :=
  InstrumentIdentifier.new IdentifierType.SYMBOL "INFY" (Some "NSE") None.

Definition infy : CanonicalInstrument.t :=
  CanonicalInstrument.mk "ISIN:INE009A01021" "INFOSYS" EQUITY INR
    (Some Exchange.NSE) [infy_isin; infy_symbol] None None "IN" None 1 true
    1%float.

(** ** Vocabulary: matching *)

(** Both identifiers name an exchange, and not the same one. *)
Definition exchanges_conflict (q e : InstrumentIdentifier.t) : Prop :=
  exists a b,
    InstrumentIdentifier.exchange q = Some a /\
    InstrumentIdentifier.exchange e = Some b /\
    a <> "" /\ b <> "" /\ a <> b.

(** The query identifier [q] identifies what [e] identifies. *)
Definition identifies (q e : InstrumentIdentifier.t) : Prop :=
  InstrumentIdentifier.identifier_type q
  = InstrumentIdentifier.identifier_type e /\
  InstrumentIdentifier.value q = InstrumentIdentifier.value e /\
  ~ exchanges_conflict q e.

Definition match_id (m : CanonicalInstrument.t * float) : string :=
  CanonicalInstrument.canonical_id (fst m).

(** The entries of [unique_matches] after the matches [seen]. *)
Definition unique_of (seen : list (CanonicalInstrument.t * float))
    (unique : list (string * (CanonicalInstrument.t * float))) : Prop :=
  List.NoDup (map fst unique) /\
  Forall (fun km => fst km = match_id (snd km) /\ In (snd km) seen) unique /\
  Forall (fun m => In (match_id m) (map fst unique)) seen.


(** ** app/canonicalization/service.py: conflicting instruments

    Instruments are ORM objects that the service changes in place, and a
    list of them holds references: the heap gives each reference its
    object, so that the same object can come more than once in a list. *)

Module Instrument.
Record t : Type := mk {
  id : string;
  canonical_id : string;
  name : string;
  asset_class : AssetClass;
  currency : Currency;
  isin : option string;
  amfi_code : option string;
  cusip : option string;
  primary_exchange : option Exchange.t;
  symbol : option string;
  sector : option string;
  industry : option string;
  country : string;
  face_value : option Decimal;
  lot_size : Z;
  is_active : bool
}.

Definition set_isin (v : option string) (i : t) : t :=
  mk (id i) (canonical_id i) (name i) (asset_class i) (currency i) v
     (amfi_code i) (cusip i) (primary_exchange i) (symbol i) (sector i)
     (industry i) (country i) (face_value i) (lot_size i) (is_active i).

Definition set_amfi_code (v : option string) (i : t) : t :=
  mk (id i) (canonical_id i) (name i) (asset_class i) (currency i) (isin i)
     v (cusip i) (primary_exchange i) (symbol i) (sector i)
     (industry i) (country i) (face_value i) (lot_size i) (is_active i).

Definition set_cusip (v : option string) (i : t) : t :=
  mk (id i) (canonical_id i) (name i) (asset_class i) (currency i) (isin i)
     (amfi_code i) v (primary_exchange i) (symbol i) (sector i)
     (industry i) (country i) (face_value i) (lot_size i) (is_active i).

Definition set_primary_exchange (v : option Exchange.t) (i : t) : t :=
  mk (id i) (canonical_id i) (name i) (asset_class i) (currency i) (isin i)
     (amfi_code i) (cusip i) v (symbol i) (sector i)
     (industry i) (country i) (face_value i) (lot_size i) (is_active i).

Definition set_symbol (v : option string) (i : t) : t :=
  mk (id i) (canonical_id i) (name i) (asset_class i) (currency i) (isin i)
     (amfi_code i) (cusip i) (primary_exchange i) v (sector i)
     (industry i) (country i) (face_value i) (lot_size i) (is_active i).

Definition set_sector (v : option string) (i : t) : t :=
  mk (id i) (canonical_id i) (name i) (asset_class i) (currency i) (isin i)
     (amfi_code i) (cusip i) (primary_exchange i) (symbol i) v
     (industry i) (country i) (face_value i) (lot_size i) (is_active i).

Definition set_industry (v : option string) (i : t) : t :=
  mk (id i) (canonical_id i) (name i) (asset_class i) (currency i) (isin i)
     (amfi_code i) (cusip i) (primary_exchange i) (symbol i) (sector i)
     v (country i) (face_value i) (lot_size i) (is_active i).

Definition set_is_active (v : bool) (i : t) : t :=
  mk (id i) (canonical_id i) (name i) (asset_class i) (currency i) (isin i)
     (amfi_code i) (cusip i) (primary_exchange i) (symbol i) (sector i)
     (industry i) (country i) (face_value i) (lot_size i) v.
End Instrument.

(** [obj.attr = ...] on the object of reference [r]. *)
Definition assign (h : nat -> Instrument.t) (r : nat)
    (f : Instrument.t -> Instrument.t) : nat -> Instrument.t :=
  fun r' => if Nat.eqb r' r then f (h r') else h r'.

(** [score_instrument] of [_choose_primary_instrument] *)
Definition score_instrument (instrument : Instrument.t) : Z :=
  let score := 0%Z in
  let score := if str_truthy (Instrument.isin instrument)
               then (score + 4)%Z else score in
  let score := if str_truthy (Instrument.amfi_code instrument)
               then (score + 3)%Z else score in
  let score := if str_truthy (Instrument.cusip instrument)
               then (score + 3)%Z else score in
  let score := if str_truthy (Instrument.symbol instrument)
               then (score + 2)%Z else score in
  let score := if str_truthy (Instrument.sector instrument)
               then (score + 1)%Z else score in
  score.

(** [max(l, key=key)]: the first of the greatest; ValueError on an empty
    list (its text is the interpreter's). *)
Fixpoint max_from {A : Type} (key : A -> Z) (best : A) (l : list A) : A :=
  match l with
  | [] => best
  | x :: l' => max_from key (if (key best <? key x)%Z then x else best) l'
  end.

Definition py_max {A : Type} (key : A -> Z) (l : list A) : res A :=
  match l with
  | [] => Raise (ValueError "max() arg is an empty sequence")
  | x :: l' => Ok (max_from key x l')
  end.

(** [_choose_primary_instrument] *)
Definition _choose_primary_instrument (h : nat -> Instrument.t)
    (instruments : list nat) : res nat :=
  py_max (fun r => score_instrument (h r)) instruments.

(** [if secondary.attr and not primary.attr: primary.attr = secondary.attr] *)
Definition copy_missing (get : Instrument.t -> option string)
    (set : option string -> Instrument.t -> Instrument.t)
    (h : nat -> Instrument.t) (primary secondary : nat)
    : nat -> Instrument.t :=
  if str_truthy (get (h secondary)) && negb (str_truthy (get (h primary)))
  then assign h primary (set (get (h secondary)))
  else h.

(** The same for the symbol, which takes the exchange with it. *)
Definition copy_symbol (h : nat -> Instrument.t) (primary secondary : nat)
    : nat -> Instrument.t :=
  if str_truthy (Instrument.symbol (h secondary))
     && negb (str_truthy (Instrument.symbol (h primary)))
  then
    let h := assign h primary
               (Instrument.set_symbol (Instrument.symbol (h secondary))) in
    assign h primary
      (Instrument.set_primary_exchange
         (Instrument.primary_exchange (h secondary)))
  else h.

(** [_merge_instrument_identifiers] *)
Definition _merge_instrument_identifiers (h : nat -> Instrument.t)
    (primary secondary : nat) : nat -> Instrument.t :=
  let h := copy_missing Instrument.isin Instrument.set_isin
             h primary secondary in
  let h := copy_missing Instrument.amfi_code Instrument.set_amfi_code
             h primary secondary in
  let h := copy_missing Instrument.cusip Instrument.set_cusip
             h primary secondary in
  let h := copy_symbol h primary secondary in
  let h := copy_missing Instrument.sector Instrument.set_sector
             h primary secondary in
  let h := copy_missing Instrument.industry Instrument.set_industry
             h primary secondary in
  assign h secondary (Instrument.set_is_active false).

(** One turn of the loop of [resolve_instrument_conflicts]. *)
Definition merge_other (primary_instrument : nat) (h : nat -> Instrument.t)
    (instrument : nat) : nat -> Instrument.t :=
  if negb (String.eqb (Instrument.id (h instrument))
                      (Instrument.id (h primary_instrument)))
  then _merge_instrument_identifiers h primary_instrument instrument
  else h.

(** [resolve_instrument_conflicts]: the reference it returns, and the heap
    it leaves. *)
Definition resolve_instrument_conflicts (h : nat -> Instrument.t)
    (conflicting_instruments : list nat)
    : res (option nat) * (nat -> Instrument.t) :=
  if (length conflicting_instruments <=? 1)%nat then
    (Ok (match conflicting_instruments with
         | first :: _ => Some first
         | [] => None
         end), h)
  else
    match _choose_primary_instrument h conflicting_instruments with
    | Raise e => (Raise e, h)
    | Ok primary_instrument =>
        (Ok (Some primary_instrument),
         fold_left (merge_other primary_instrument) conflicting_instruments h)
    end.

(** The instruments of a list that the loop merges into the primary one. *)
Definition others (h : nat -> Instrument.t) (primary : nat)
    (instruments : list nat) : list nat :=
  List.filter
    (fun r => negb (String.eqb (Instrument.id (h r))
                               (Instrument.id (h primary))))
    instruments.

(** The value an attribute ends with: the primary instrument's own when it
    has one, and otherwise that of the first other instrument that has
    one. *)
Definition first_truthy (own : option string)
    (others : list (option string)) : option string :=
  if str_truthy own then own
  else default own (List.find str_truthy others).

(** The exchange goes with the symbol. *)
Definition exchange_with_symbol (h : nat -> Instrument.t) (primary : nat)
    (others : list nat) : option Exchange.t :=
  if str_truthy (Instrument.symbol (h primary))
  then Instrument.primary_exchange (h primary)
  else match List.find (fun r => str_truthy (Instrument.symbol (h r)))
               others with
       | Some r => Instrument.primary_exchange (h r)
       | None => Instrument.primary_exchange (h primary)
       end.

(** The heap [h'] that merging the instruments [merged] into [primary]
    leaves of the heap [h]: each merged instrument is inactive and
    otherwise as it was, each attribute of the primary one that is copied
    has its first truthy value, the exchange goes with the symbol, and
    nothing else changes. *)
Definition merged_into (h : nat -> Instrument.t) (primary : nat)
    (merged : list nat) (h' : nat -> Instrument.t) : Prop :=
  let first get :=
    first_truthy (get (h primary)) (map (fun r => get (h r)) merged) in
  (forall r, In r merged -> h' r = Instrument.set_is_active false (h r)) /\
  (forall r, ~ In r merged -> r <> primary -> h' r = h r) /\
  Instrument.isin (h' primary) = first Instrument.isin /\
  Instrument.amfi_code (h' primary) = first Instrument.amfi_code /\
  Instrument.cusip (h' primary) = first Instrument.cusip /\
  Instrument.symbol (h' primary) = first Instrument.symbol /\
  Instrument.primary_exchange (h' primary)
  = exchange_with_symbol h primary merged /\
  Instrument.sector (h' primary) = first Instrument.sector /\
  Instrument.industry (h' primary) = first Instrument.industry /\
  Instrument.is_active (h' primary) = Instrument.is_active (h primary) /\
  Instrument.id (h' primary) = Instrument.id (h primary) /\
  Instrument.canonical_id (h' primary) = Instrument.canonical_id (h primary) /\
  Instrument.name (h' primary) = Instrument.name (h primary) /\
  Instrument.asset_class (h' primary) = Instrument.asset_class (h primary) /\
  Instrument.currency (h' primary) = Instrument.currency (h primary) /\
  Instrument.country (h' primary) = Instrument.country (h primary) /\
  Instrument.face_value (h' primary) = Instrument.face_value (h primary) /\
  Instrument.lot_size (h' primary) = Instrument.lot_size (h primary).

(** Three instruments of one company: the first with a symbol, the second
    with an ISIN and a sector, the third a second row of the first. *)
Definition conflict_heap (r : nat) : Instrument.t :=
  match r with
  | 0%nat => Instrument.mk "a" "NSE:INFY" "INFOSYS" EQUITY INR None None None
               (Some Exchange.NSE) (Some "INFY") None None "IN" None 1 true
  | 1%nat => Instrument.mk "b" "ISIN:INE009A01021" "INFOSYS LIMITED" EQUITY
               INR (Some "INE009A01021") None None None None (Some "IT")
               None "IN" None 1 true
  | _ => Instrument.mk "c" "BSE:INFY" "INFOSYS" EQUITY INR None None None
           (Some Exchange.BSE) (Some "500209") (Some "Software")
           (Some "IT services") "IN" None 1 true
  end.

(** ** app/ingestion/service.py: the asset class of a new instrument *)

Definition lower_ascii (c : ascii) : ascii :=
  let n := nat_of_ascii c in
  if (65 <=? n)%nat && (n <=? 90)%nat then ascii_of_nat (n + 32) else c.

(** [s.lower()] on ASCII letters.  No other character has a lower case
    with one of the letters that [_determine_asset_class] looks for. *)
Fixpoint lower (s : string) : string :=
  match s with
  | EmptyString => EmptyString
  | String c s' => String (lower_ascii c) (lower s')
  end.

(** [needle in s] *)
Fixpoint str_contains (needle s : string) : bool :=
  String.prefix needle s
  || match s with
     | EmptyString => false
     | String _ s' => str_contains needle s'
     end.

(** [_determine_asset_class]; an empty [raw_data] is falsy, and has no
    key either. *)
Definition _determine_asset_class (parsed_txn : ParsedTransaction.t)
    : string :=
  let name := lower (ParsedTransaction.instrument_name parsed_txn) in
  match match ParsedTransaction.raw_data parsed_txn with
        | Some raw_data => raw_data !! "asset_class"
        | None => None
        end with
  | Some asset_class => asset_class
  | None =>
      if str_truthy (ParsedTransaction.amfi_code parsed_txn)
         || str_contains "fund" name
      then "mutual_fund"
      else if str_truthy (ParsedTransaction.cusip parsed_txn)
              || bool_decide (ParsedTransaction.exchange parsed_txn
                              = Some "NASDAQ")
              || bool_decide (ParsedTransaction.exchange parsed_txn
                              = Some "NYSE")
      then "equity"
      else if bool_decide (ParsedTransaction.exchange parsed_txn
                           = Some "MANUAL")
      then
        if str_contains "gold" name then "commodity"
        else if existsb (fun word => str_contains word name)
                  ["property"; "real estate"; "land"]
        then "real_estate"
        else "other"
      else "equity"
  end.

(** A fixed deposit entered by hand. *)
Definition deposit_entry : ParsedTransaction.t :=
  ParsedTransaction.mk BUY 1700000000%Z 1%Q 100000%Q 100000%Q
    "Fixed Deposit SBI" None None None None None 0%Q 0%Q 0%Q
    (Some 100000%Q) INR (Some "MANUAL") None None.

(** * Part II: theorems *)
Lemma dec_le_spec x y : dec_le x y = true <-> (x <= y)%Q.
Proof. apply Qle_bool_iff. Qed.

Lemma dec_lt_spec x y : dec_lt x y = true <-> (x < y)%Q.
Proof.
  unfold dec_lt. rewrite negb_true_iff.
  split; intros H.
  - apply Qnot_le_lt. intros Hle. apply Qle_bool_iff in Hle. congruence.
  - destruct (Qle_bool y x) eqn:E; [|reflexivity].
    apply Qle_bool_iff in E. exfalso. apply (Qlt_not_le _ _ H E).
Qed.

Lemma dec_le_false x y : dec_le x y = false <-> (y < x)%Q.
Proof.
  rewrite <- dec_lt_spec. unfold dec_lt, dec_le.
  destruct (Qle_bool x y); simpl; split; congruence.
Qed.

Lemma dec_lt_false x y : dec_lt x y = false <-> (y <= x)%Q.
Proof.
  rewrite <- dec_le_spec. unfold dec_lt, dec_le.
  destruct (Qle_bool y x); simpl; split; congruence.
Qed.

Lemma dec_is_zero_spec x : dec_is_zero x = true <-> (x == 0)%Q.
Proof. apply Qeq_bool_iff. Qed.

Lemma dec_is_zero_false x : dec_is_zero x = false <-> ~ (x == 0)%Q.
Proof.
  rewrite <- dec_is_zero_spec. destruct (dec_is_zero x); split; congruence.
Qed.


(** ** Sorting *)

Section SortedFacts.
Context {A : Type} (key : A -> Z).

Lemma insert_asc_perm x l : Permutation (x :: l) (insert_asc key x l).
Proof.
  induction l as [|y l IH]; simpl; [reflexivity|].
  destruct (key x <=? key y)%Z; [reflexivity|].
  rewrite perm_swap. now apply perm_skip.
Qed.

Lemma insert_desc_perm x l : Permutation (x :: l) (insert_desc key x l).
Proof.
  induction l as [|y l IH]; simpl; [reflexivity|].
  destruct (key y <=? key x)%Z; [reflexivity|].
  rewrite perm_swap. now apply perm_skip.
Qed.

Lemma sorted_perm l : Permutation l (sorted key l).
Proof.
  induction l as [|x l IH]; simpl; [reflexivity|].
  rewrite <- insert_asc_perm. now apply perm_skip.
Qed.

Lemma sorted_reverse_perm l : Permutation l (sorted_reverse key l).
Proof.
  induction l as [|x l IH]; simpl; [reflexivity|].
  rewrite <- insert_desc_perm. now apply perm_skip.
Qed.


End SortedFacts.

(** ** The tax-lot manager *)

Lemma sort_lots_perm method lots :
  Permutation lots (TaxLotManager.sort_lots method lots).
Proof.
  destruct method; simpl;
    [apply sorted_perm | apply sorted_reverse_perm | reflexivity].
Qed.

(** A sale of a non-zero quantity returns the loop's lots and one gain
    whose figures are those of the loop. *)
Lemma process_sale_ok method t lots :
  ~ (Transaction.quantity t == 0)%Q ->
  exists g,
    TaxLotManager._process_sale method t lots =
      Ok (TaxLotManager.updated_lots
            (TaxLotManager.sale_loop method (Transaction.quantity t) lots), [g]) /\
    RealizedGain.sale_proceeds g =
      (Transaction.quantity t * Transaction.price t)%Q /\
    RealizedGain.cost_basis g =
      TaxLotManager.total_cost_basis
        (TaxLotManager.sale_loop method (Transaction.quantity t) lots) /\
    RealizedGain.realized_gain g =
      (Transaction.quantity t * Transaction.price t -
       TaxLotManager.total_cost_basis
         (TaxLotManager.sale_loop method (Transaction.quantity t) lots))%Q /\
    RealizedGain.acquisition_lots g =
      TaxLotManager.acquisition_lots
        (TaxLotManager.sale_loop method (Transaction.quantity t) lots).
Proof.
  intros Hq. unfold TaxLotManager._process_sale, dec_div.
  apply dec_is_zero_false in Hq. rewrite Hq. simpl.
  eexists. split; [reflexivity|]. simpl. repeat split.
Qed.



(** ** Decimal comparisons as propositions *)

Ltac dec_prop :=
  repeat match goal with
  | H : dec_le _ _ = true |- _ => apply dec_le_spec in H
  | H : dec_le _ _ = false |- _ => apply dec_le_false in H
  | H : dec_lt _ _ = true |- _ => apply dec_lt_spec in H
  | H : dec_lt _ _ = false |- _ => apply dec_lt_false in H
  | H : dec_gt _ _ = true |- _ => unfold dec_gt in H
  | H : dec_gt _ _ = false |- _ => unfold dec_gt in H
  | H : dec_is_zero _ = true |- _ => apply dec_is_zero_spec in H
  | H : dec_is_zero _ = false |- _ => apply dec_is_zero_false in H
  end.

Lemma dec_min_cases a b :
  (dec_min a b = a /\ (a <= b)%Q) \/ (dec_min a b = b /\ (b < a)%Q).
Proof.
  unfold dec_min. destruct (dec_lt b a) eqn:E; dec_prop; [right|left]; auto.
Qed.

(** ** Invariant of the lots *)

Lemma purchase_lot_inv t lots :
  (0 < Transaction.quantity t)%Q ->
  Forall lot_inv lots ->
  Forall lot_inv (fst (TaxLotManager._process_purchase t lots)).
Proof.
  intros Hq Hl. simpl. apply Forall_app. split; [assumption|].
  constructor; [|constructor]. unfold lot_inv; simpl.
  split; [lra|]. split; [lra|]. split; [discriminate|]. intros H. lra.
Qed.

Lemma sale_step_inv st lot :
  Forall lot_inv (TaxLotManager.updated_lots st) -> lot_inv lot ->
  Forall lot_inv (TaxLotManager.updated_lots (TaxLotManager.sale_step st lot)).
Proof.
  intros Hst (H0 & Hq & Hc). unfold TaxLotManager.sale_step.
  destruct (dec_le (TaxLotManager.remaining_to_sell st) 0) eqn:E1; simpl.
  { apply Forall_app. split; [assumption|].
    constructor; [unfold lot_inv; auto | constructor]. }
  destruct (dec_le (TaxLot.remaining_quantity lot) 0) eqn:E2; simpl.
  { apply Forall_app. split; [assumption|].
    constructor; [unfold lot_inv; auto | constructor]. }
  apply Forall_app. split; [assumption|]. constructor; [|constructor].
  dec_prop. unfold lot_inv; simpl.
  destruct (dec_min_cases (TaxLotManager.remaining_to_sell st)
              (TaxLot.remaining_quantity lot)) as [[-> Hm]|[-> Hm]].
  - split; [lra|]. split; [lra|].
    destruct (dec_le _ 0) eqn:E3; dec_prop.
    + split; [intros _; lra | reflexivity].
    + split; intros H; [apply Hc in H|]; lra.
  - split; [lra|]. split; [lra|].
    destruct (dec_le _ 0) eqn:E3; dec_prop.
    + split; [intros _; lra | reflexivity].
    + split; intros H; [apply Hc in H|]; lra.
Qed.

Lemma sale_fold_inv l : forall st,
  Forall lot_inv (TaxLotManager.updated_lots st) -> Forall lot_inv l ->
  Forall lot_inv
    (TaxLotManager.updated_lots (fold_left TaxLotManager.sale_step l st)).
Proof.
  induction l as [|lot l IH]; intros st Hst Hl; simpl; [assumption|].
  inversion Hl; subst. apply IH; [|assumption]. now apply sale_step_inv.
Qed.

Lemma process_sale_lots method t lots u g :
  TaxLotManager._process_sale method t lots = Ok (u, g) ->
  u = TaxLotManager.updated_lots
        (TaxLotManager.sale_loop method (Transaction.quantity t) lots).
Proof.
  unfold TaxLotManager._process_sale. destruct (dec_div _ _); simpl; congruence.
Qed.

Lemma process_transaction_inv method t lots r :
  (Transaction.transaction_type t = BUY -> (0 < Transaction.quantity t)%Q) ->
  Forall lot_inv lots ->
  TaxLotManager.process_transaction method t lots = Ok r ->
  Forall lot_inv (fst r).
Proof.
  intros Hbuy Hl. unfold TaxLotManager.process_transaction.
  destruct (Transaction.transaction_type t) eqn:Ety;
    try (intros [= <-]; assumption).
  - intros [= <-]. apply purchase_lot_inv; auto.
  - destruct r as [u g]. intros H. apply process_sale_lots in H. subst u.
    simpl. apply sale_fold_inv; [constructor|].
    eapply Permutation_Forall; [apply sort_lots_perm | assumption].
Qed.

Lemma process_all_inv method txns : forall lots lots',
  Forall (fun t => Transaction.transaction_type t = BUY ->
                   (0 < Transaction.quantity t)%Q) txns ->
  Forall lot_inv lots ->
  process_all method txns lots = Ok lots' ->
  Forall lot_inv lots'.
Proof.
  induction txns as [|t txns IH]; intros lots lots' Hv Hl; simpl.
  - intros [= <-]. assumption.
  - inversion Hv; subst.
    destruct (TaxLotManager.process_transaction method t lots) as [r|e] eqn:E;
      simpl; [|discriminate].
    apply IH; [assumption|]. eapply process_transaction_inv; eauto.
Qed.

(** C4 -- tax-lot invariant: after every step of a sequence of transactions
    applied through the tax-lot manager, whose purchases all have a positive
    quantity, every lot has [0 <= remaining_quantity <= quantity] and is
    closed exactly when its remaining quantity is zero. *)
Theorem tax_lot_invariant (method : TaxLotMethod) (txns : list Transaction.t)
    (n : nat) (lots : list TaxLot.t) :
  Forall (fun t => Transaction.transaction_type t = BUY ->
                   (0 < Transaction.quantity t)%Q) txns ->
  process_all method (take n txns) [] = Ok lots ->
  Forall lot_inv lots.
Proof.
  intros Hv Hrun. eapply process_all_inv; [|constructor|exact Hrun].
  now apply Forall_take.
Qed.

(** ** Totals over the open lots *)

Lemma open_total_nonneg lots : (0 <= open_total lots)%Q.
Proof.
  induction lots as [|lot lots IH]; simpl; [lra|].
  unfold is_open. destruct (dec_gt _ 0) eqn:E; dec_prop; lra.
Qed.

Lemma open_total_app l1 l2 :
  (open_total (l1 ++ l2) == open_total l1 + open_total l2)%Q.
Proof.
  induction l1 as [|lot l1 IH]; simpl; [lra|].
  destruct (is_open lot); lra.
Qed.

Lemma open_total_perm l1 l2 :
  Permutation l1 l2 -> (open_total l1 == open_total l2)%Q.
Proof.
  induction 1 as [|x l l' _ IH|x y l|l l' l'' _ IH1 _ IH2]; simpl.
  - reflexivity.
  - destruct (is_open x); lra.
  - destruct (is_open x), (is_open y); lra.
  - lra.
Qed.

Lemma remaining_cost_perm l1 l2 :
  Permutation l1 l2 ->
  (PositionCalculator.remaining_cost_of l1 ==
   PositionCalculator.remaining_cost_of l2)%Q.
Proof.
  induction 1 as [|x l l' _ IH|x y l|l l' l'' _ IH1 _ IH2]; simpl.
  - reflexivity.
  - destruct (dec_gt _ 0); lra.
  - destruct (dec_gt (TaxLot.remaining_quantity x) 0),
             (dec_gt (TaxLot.remaining_quantity y) 0); lra.
  - lra.
Qed.

(** ** A sale that exceeds the open lots *)

Lemma is_open_le lot :
  is_open lot = negb (dec_le (TaxLot.remaining_quantity lot) 0).
Proof. reflexivity. Qed.

(** The two ways through the loop body. *)
Lemma sale_step_keep st lot :
  dec_le (TaxLotManager.remaining_to_sell st) 0 = true \/
  dec_le (TaxLot.remaining_quantity lot) 0 = true ->
  TaxLotManager.sale_step st lot =
    TaxLotManager.mk_sale_state
      (TaxLotManager.remaining_to_sell st)
      (TaxLotManager.updated_lots st ++ [lot])
      (TaxLotManager.acquisition_lots st) (TaxLotManager.total_cost_basis st).
Proof.
  unfold TaxLotManager.sale_step. intros [-> | ->]; [reflexivity|].
  now destruct (dec_le (TaxLotManager.remaining_to_sell st) 0).
Qed.

Lemma sale_step_take st lot :
  dec_le (TaxLotManager.remaining_to_sell st) 0 = false ->
  dec_le (TaxLot.remaining_quantity lot) 0 = false ->
  exists lot',
    TaxLotManager.sale_step st lot =
      TaxLotManager.mk_sale_state
        (TaxLotManager.remaining_to_sell st -
         dec_min (TaxLotManager.remaining_to_sell st)
                 (TaxLot.remaining_quantity lot))%Q
        (TaxLotManager.updated_lots st ++ [lot'])
        (TaxLotManager.acquisition_lots st ++
           [(TaxLot.transaction_id lot,
             dec_min (TaxLotManager.remaining_to_sell st)
                     (TaxLot.remaining_quantity lot),
             (dec_min (TaxLotManager.remaining_to_sell st)
                      (TaxLot.remaining_quantity lot)
              * TaxLot.cost_per_share lot)%Q)])
        (TaxLotManager.total_cost_basis st +
         dec_min (TaxLotManager.remaining_to_sell st)
                 (TaxLot.remaining_quantity lot)
         * TaxLot.cost_per_share lot)%Q /\
    TaxLot.remaining_quantity lot' =
      (TaxLot.remaining_quantity lot -
       dec_min (TaxLotManager.remaining_to_sell st)
               (TaxLot.remaining_quantity lot))%Q /\
    TaxLot.is_closed lot' =
      (if dec_le (TaxLot.remaining_quantity lot') 0
       then true else TaxLot.is_closed lot) /\
    TaxLot.position_id lot' = TaxLot.position_id lot /\
    TaxLot.transaction_id lot' = TaxLot.transaction_id lot /\
    TaxLot.quantity lot' = TaxLot.quantity lot /\
    TaxLot.cost_per_share lot' = TaxLot.cost_per_share lot /\
    TaxLot.acquisition_date lot' = TaxLot.acquisition_date lot.
Proof.
  intros E1 E2. unfold TaxLotManager.sale_step. rewrite E1, E2.
  eexists. split; [reflexivity|]. simpl. repeat split.
Qed.

Lemma oversell_fold l : forall st,
  (open_total l < TaxLotManager.remaining_to_sell st)%Q ->
  exists u,
    TaxLotManager.updated_lots (fold_left TaxLotManager.sale_step l st) =
      TaxLotManager.updated_lots st ++ u /\
    Forall2 consumed l u /\
    TaxLotManager.acquisition_lots (fold_left TaxLotManager.sale_step l st) =
      TaxLotManager.acquisition_lots st ++
      map whole_lot_entry (List.filter is_open l) /\
    (TaxLotManager.total_cost_basis (fold_left TaxLotManager.sale_step l st) ==
     TaxLotManager.total_cost_basis st +
     PositionCalculator.remaining_cost_of l)%Q.
Proof.
  induction l as [|lot l IH]; intros st Hover.
  - exists []. simpl. rewrite !app_nil_r. repeat split; [constructor | lra].
  - pose proof (open_total_nonneg l) as Hnn.
    cbn [fold_left open_total List.filter PositionCalculator.remaining_cost_of]
      in Hover |- *.
    fold (is_open lot). rewrite is_open_le in Hover |- *.
    destruct (dec_le (TaxLotManager.remaining_to_sell st) 0) eqn:E1.
    { exfalso. dec_prop.
      destruct (dec_le (TaxLot.remaining_quantity lot) 0) eqn:E;
        simpl in Hover; dec_prop; lra. }
    destruct (dec_le (TaxLot.remaining_quantity lot) 0) eqn:E2;
      cbn [negb] in Hover |- *.
    + rewrite sale_step_keep by auto.
      match goal with
      | |- context [fold_left _ l ?s] =>
          destruct (IH s) as (u & Hu & Hc & Ha & Ht); [simpl; lra|]
      end.
      simpl in Hu, Ha, Ht. exists (lot :: u).
      rewrite Hu, <- app_assoc. split; [reflexivity|].
      split; [|split; [assumption|lra]].
      constructor; [|assumption].
      unfold consumed. rewrite is_open_le, E2. reflexivity.
    + destruct (sale_step_take st lot E1 E2)
        as (lot' & -> & Hr & Hcl & Hp & Hi & Hq & Hcps & Hd).
      dec_prop.
      assert (Hmin : dec_min (TaxLotManager.remaining_to_sell st)
                       (TaxLot.remaining_quantity lot)
                     = TaxLot.remaining_quantity lot).
      { unfold dec_min.
        destruct (dec_lt _ _) eqn:E; dec_prop; [reflexivity | lra]. }
      rewrite Hmin in *.
      match goal with
      | |- context [fold_left _ l ?s] =>
          destruct (IH s) as (u & Hu & Hc & Ha & Ht); [simpl; lra|]
      end.
      simpl in Hu, Ha, Ht. exists (lot' :: u).
      rewrite Hu, Ha, <- !app_assoc. split; [reflexivity|].
      split; [|split; [reflexivity|simpl; lra]].
      constructor; [|assumption].
      unfold consumed. rewrite is_open_le.
      apply dec_le_false in E2. rewrite E2. cbn [negb].
      split; [rewrite Hr; lra|]. split; [|repeat split; assumption].
      rewrite Hcl.
      destruct (dec_le (TaxLot.remaining_quantity lot') 0) eqn:E3;
        [reflexivity|].
      apply dec_le_false in E3. rewrite Hr in E3. lra.
Qed.

(** The manager's part of an oversell: no error, every open lot taken whole
    in acquisition order, and a gain of the full proceeds less the cost of
    the lots that were there. *)
Lemma oversell_sale t lots :
  (open_total lots < Transaction.quantity t)%Q ->
  exists updated g,
    TaxLotManager._process_sale FIFO t lots = Ok (updated, [g]) /\
    Forall2 consumed (sorted TaxLot.acquisition_date lots) updated /\
    RealizedGain.acquisition_lots g =
      map whole_lot_entry
          (List.filter is_open (sorted TaxLot.acquisition_date lots)) /\
    (RealizedGain.realized_gain g ==
     Transaction.quantity t * Transaction.price t -
     PositionCalculator.remaining_cost_of lots)%Q.
Proof.
  intros Hover. pose proof (open_total_nonneg lots) as Hnn.
  destruct (process_sale_ok FIFO t lots) as (g & Hsale & _ & _ & Hg & Ha);
    [lra|].
  destruct (oversell_fold (sorted TaxLot.acquisition_date lots)
              (TaxLotManager.mk_sale_state (Transaction.quantity t) [] [] 0))
    as (u & Hu & Hc & Hacq & Ht).
  { simpl. rewrite <- (open_total_perm _ _ (sorted_perm _ lots)). lra. }
  simpl in Hu, Hacq, Ht.
  exists u, g. unfold TaxLotManager.sale_loop in Hsale, Hg, Ha. simpl in Hsale, Hg, Ha.
  rewrite Hu in Hsale. split; [exact Hsale|]. split; [exact Hc|].
  split; [now rewrite Ha, Hacq|].
  rewrite Hg, Ht, <- (remaining_cost_perm _ _ (sorted_perm _ lots)). lra.
Qed.

(** ** The calculator's running quantity never exceeds the open lots *)

Lemma sale_fold_total l : forall st,
  (0 <= TaxLotManager.remaining_to_sell st)%Q ->
  (0 <= TaxLotManager.remaining_to_sell
          (fold_left TaxLotManager.sale_step l st))%Q /\
  (open_total (TaxLotManager.updated_lots
                 (fold_left TaxLotManager.sale_step l st))
   + TaxLotManager.remaining_to_sell st ==
   open_total (TaxLotManager.updated_lots st) + open_total l
   + TaxLotManager.remaining_to_sell
       (fold_left TaxLotManager.sale_step l st))%Q.
Proof.
  induction l as [|lot l IH]; intros st Hrts.
  - simpl. split; [assumption | lra].
  - cbn [fold_left open_total]. rewrite is_open_le.
    destruct (dec_le (TaxLotManager.remaining_to_sell st) 0) eqn:E1;
      [|destruct (dec_le (TaxLot.remaining_quantity lot) 0) eqn:E2].
    + rewrite sale_step_keep by auto.
      match goal with
      | |- context [fold_left _ l ?s] => destruct (IH s) as [H0 Heq]; [exact Hrts|]
      end.
      split; [exact H0|]. cbn [TaxLotManager.updated_lots
        TaxLotManager.remaining_to_sell] in Heq.
      rewrite open_total_app in Heq. cbn [open_total] in Heq.
      rewrite is_open_le in Heq.
      destruct (dec_le (TaxLot.remaining_quantity lot) 0); cbn [negb] in *; lra.
    + rewrite sale_step_keep by auto.
      match goal with
      | |- context [fold_left _ l ?s] => destruct (IH s) as [H0 Heq]; [exact Hrts|]
      end.
      split; [exact H0|]. cbn [TaxLotManager.updated_lots
        TaxLotManager.remaining_to_sell] in Heq.
      rewrite open_total_app in Heq. cbn [open_total] in Heq.
      rewrite is_open_le, E2 in Heq. cbn [negb] in *. lra.
    + destruct (sale_step_take st lot E1 E2) as (lot' & -> & Hr & _).
      dec_prop.
      assert (Hq : (0 <= TaxLot.remaining_quantity lot')%Q /\
                   (dec_min (TaxLotManager.remaining_to_sell st)
                      (TaxLot.remaining_quantity lot)
                    <= TaxLotManager.remaining_to_sell st)%Q).
      { rewrite Hr.
        destruct (dec_min_cases (TaxLotManager.remaining_to_sell st)
                    (TaxLot.remaining_quantity lot)) as [[-> Hm]|[-> Hm]];
          split; lra. }
      destruct Hq as [Hq0 Hqle].
      match goal with
      | |- context [fold_left _ l ?s] =>
          destruct (IH s) as [H0 Heq]; [simpl; lra|]
      end.
      split; [exact H0|]. cbn [TaxLotManager.updated_lots
        TaxLotManager.remaining_to_sell negb] in Heq |- *.
      rewrite open_total_app in Heq. cbn [open_total] in Heq.
      rewrite is_open_le in Heq.
      destruct (dec_le (TaxLot.remaining_quantity lot') 0) eqn:E3;
        cbn [negb] in Heq; dec_prop; rewrite Hr in *; lra.
Qed.

Lemma replay_step_inv st t st' :
  (Transaction.transaction_type t = SELL -> (0 <= Transaction.quantity t)%Q) ->
  replay_inv st ->
  PositionCalculator.replay_step st t = Ok st' ->
  replay_inv st'.
Proof.
  unfold replay_inv, PositionCalculator.replay_step,
    TaxLotManager.process_transaction.
  intros Hsell Hinv.
  destruct (Transaction.transaction_type t) eqn:Ety;
    try (intros [= <-]; assumption).
  - simpl. intros [= <-]. simpl. rewrite open_total_app. simpl.
    rewrite is_open_le. simpl.
    destruct (dec_le (Transaction.quantity t) 0) eqn:E; simpl; dec_prop; lra.
  - destruct (TaxLotManager._process_sale FIFO t _) as [[u g]|e] eqn:E;
      simpl; [|discriminate].
    intros [= <-]. simpl. apply process_sale_lots in E. subst u.
    unfold TaxLotManager.sale_loop.
    destruct (sale_fold_total
                (TaxLotManager.sort_lots FIFO (PositionCalculator.tax_lots st))
                (TaxLotManager.mk_sale_state (Transaction.quantity t) [] [] 0))
      as [H0 Heq]; [simpl; auto|].
    simpl in Heq.
    rewrite <- (open_total_perm _ _ (sorted_perm _ _)) in Heq.
    specialize (Hsell eq_refl). cbn [TaxLotManager.sort_lots] in H0 |- *. lra.
Qed.

Lemma replay_from_inv txns : forall st st',
  Forall (fun t => Transaction.transaction_type t = SELL ->
                   (0 <= Transaction.quantity t)%Q) txns ->
  replay_inv st ->
  PositionCalculator.replay_from st txns = Ok st' ->
  replay_inv st'.
Proof.
  induction txns as [|t txns IH]; intros st st' Hv Hinv; simpl.
  - intros [= <-]. assumption.
  - inversion Hv; subst.
    destruct (PositionCalculator.replay_step st t) as [st1|e] eqn:E;
      simpl; [|discriminate].
    apply IH; [assumption|]. eapply replay_step_inv; eauto.
Qed.

Lemma replay_from_app a b : forall st,
  PositionCalculator.replay_from st (a ++ b) =
  (st' ← PositionCalculator.replay_from st a;
   PositionCalculator.replay_from st' b).
Proof.
  induction a as [|t a IH]; intros st; simpl; [reflexivity|].
  destruct (PositionCalculator.replay_step st t); simpl; [apply IH|reflexivity].
Qed.

(** C9 -- oversell is absorbed: when the chronologically last transaction is
    a sale of more than the open lots hold, and no earlier sale has a
    negative quantity, the tax-lot manager raises nothing, takes every open
    lot whole in acquisition order, reports the full proceeds less the cost
    of the lots that were there, and the position's quantity is negative. *)
Theorem oversell_absorbed (now : Z) (txns pre : list Transaction.t)
    (s : Transaction.t) (st : PositionCalculator.replay_state)
    (current_price : option Q) (valuation_date : option Z) :
  sorted Transaction.transaction_date txns = pre ++ [s] ->
  Forall (fun t => Transaction.transaction_type t = SELL ->
                   (0 <= Transaction.quantity t)%Q) pre ->
  PositionCalculator.replay_from PositionCalculator.replay_init pre = Ok st ->
  Transaction.transaction_type s = SELL ->
  (open_total (PositionCalculator.tax_lots st) < Transaction.quantity s)%Q ->
  exists updated g snap,
    TaxLotManager.process_transaction FIFO s (PositionCalculator.tax_lots st)
      = Ok (updated, [g]) /\
    Forall2 consumed
      (sorted TaxLot.acquisition_date (PositionCalculator.tax_lots st)) updated /\
    RealizedGain.acquisition_lots g =
      map whole_lot_entry
        (List.filter is_open
           (sorted TaxLot.acquisition_date (PositionCalculator.tax_lots st))) /\
    (RealizedGain.realized_gain g ==
     Transaction.quantity s * Transaction.price s -
     PositionCalculator.remaining_cost_of (PositionCalculator.tax_lots st))%Q /\
    PositionCalculator.calculate_position now txns current_price valuation_date
      = Ok snap /\
    (PositionSnapshot.quantity snap < 0)%Q.
Proof.
  intros Hsorted Hpre Hrun Hty Hover.
  destruct (oversell_sale s _ Hover) as (updated & g & Hsale & Hc & Ha & Hg).
  assert (Hinv : replay_inv st).
  { eapply replay_from_inv; [exact Hpre| |exact Hrun].
    unfold replay_inv. simpl. lra. }
  assert (Hstep : PositionCalculator.replay_from PositionCalculator.replay_init
                    (pre ++ [s])
                  = Ok (PositionCalculator.mk_replay_state
                          (PositionCalculator.total_quantity st
                           - Transaction.quantity s)%Q
                          (PositionCalculator.total_cost st) updated
                          (PositionCalculator.realized_gains st ++ [g]))).
  { rewrite replay_from_app, Hrun. simpl.
    unfold PositionCalculator.replay_step, TaxLotManager.process_transaction.
    rewrite Hty, Hsale. reflexivity. }
  exists updated, g.
  unfold TaxLotManager.process_transaction. rewrite Hty.
  unfold PositionCalculator.calculate_position.
  destruct txns as [|t0 txns'].
  { simpl in Hsorted. destruct pre; discriminate. }
  rewrite bool_decide_eq_false_2 by discriminate.
  rewrite Hsorted, Hstep.
  destruct (pre ++ [s]) as [|first rest] eqn:Epre.
  { destruct pre; discriminate. }
  eexists. split; [exact Hsale|]. split; [exact Hc|]. split; [exact Ha|].
  split; [exact Hg|]. split; [reflexivity|]. simpl.
  unfold replay_inv in Hinv. lra.
Qed.

(** The unrestricted form of C4 fails: a purchase of quantity zero leaves an
    empty lot that is not closed. *)
Lemma zero_quantity_buy_open_empty_lot :
  ~ (forall (method : TaxLotMethod) (txns : list Transaction.t) (n : nat)
            (lots : list TaxLot.t),
       process_all method (take n txns) [] = Ok lots -> Forall lot_inv lots).
Proof.
  intros H.
  specialize (H FIFO [zero_buy] 1%nat _ eq_refl).
  inversion H as [|lot l (_ & _ & Hc) _]; subst.
  simpl in Hc. destruct Hc as [_ Hc].
  discriminate Hc. reflexivity.
Qed.

(** The invariant after a purchase of 100 and a sale of 150. *)
Lemma tax_lot_invariant_sample :
  Forall lot_inv
    [ TaxLot.mk "" "b1" 100 (100 - 100)%Q 30 86400 true ].
Proof.
  apply (tax_lot_invariant FIFO oversell_history 2).
  - repeat constructor; simpl; intros _; reflexivity.
  - reflexivity.
Defined.

(** The unrestricted form of C9 fails: after a sale of a negative quantity,
    a sale that exceeds the (empty) open lots leaves a positive quantity. *)
Lemma negative_sale_then_oversell_positive :
  exists st snap,
    sorted Transaction.transaction_date [negative_sell; small_sell]
      = [negative_sell] ++ [small_sell] /\
    PositionCalculator.replay_from PositionCalculator.replay_init
      [negative_sell] = Ok st /\
    (open_total (PositionCalculator.tax_lots st)
     < Transaction.quantity small_sell)%Q /\
    PositionCalculator.calculate_position 0 [negative_sell; small_sell]
      None None = Ok snap /\
    ~ (PositionSnapshot.quantity snap < 0)%Q.
Proof.
  do 2 eexists. split; [reflexivity|]. split; [reflexivity|].
  split; [reflexivity|]. split; [reflexivity|]. simpl. intros H. discriminate H.
Qed.

(** C9 on a purchase of 100 followed by a sale of 150. *)
Lemma oversell_absorbed_sample :
  exists updated g snap,
    TaxLotManager.process_transaction FIFO (trade "s1" SELL 172800 150 45)
      [ TaxLot.mk "" "b1" 100 100 30 86400 false ] = Ok (updated, [g]) /\
    Forall2 consumed
      (sorted TaxLot.acquisition_date
         [ TaxLot.mk "" "b1" 100 100 30 86400 false ]) updated /\
    RealizedGain.acquisition_lots g =
      map whole_lot_entry
        (List.filter is_open
           (sorted TaxLot.acquisition_date
              [ TaxLot.mk "" "b1" 100 100 30 86400 false ])) /\
    (RealizedGain.realized_gain g ==
     150 * 45 -
     PositionCalculator.remaining_cost_of
       [ TaxLot.mk "" "b1" 100 100 30 86400 false ])%Q /\
    PositionCalculator.calculate_position 0 oversell_history None None
      = Ok snap /\
    (PositionSnapshot.quantity snap < 0)%Q.
Proof.
  apply (oversell_absorbed 0 oversell_history [trade "b1" BUY 86400 100 30]
           (trade "s1" SELL 172800 150 45)
           (PositionCalculator.mk_replay_state (0 + 100)%Q (0 + 100 * 30)%Q
              [ TaxLot.mk "" "b1" 100 100 30 86400 false ] [])
           None None).
  - reflexivity.
  - repeat constructor. simpl. discriminate.
  - reflexivity.
  - reflexivity.
  - reflexivity.
Defined.

(** ** Parsed transactions *)


(** The two figures of the specification: 1017 for the buy, 983 for the
    sell. *)
Lemma net_amount_examples :
  ParsedTransaction.net_amount
    (ParsedTransaction.new BUY 0 1 1000 1000 "X" None None None None None
       10 5 2 None INR None None None) = Some 1017%Q /\
  ParsedTransaction.net_amount
    (ParsedTransaction.new SELL 0 1 1000 1000 "X" None None None None None
       10 5 2 None INR None None None) = Some 983%Q.
Proof. split; reflexivity. Qed.

(** [__post_init__] changes no other field. *)
Lemma post_init_keeps_fields (p : ParsedTransaction.t) :
  let p' := ParsedTransaction.__post_init__ p in
  ParsedTransaction.transaction_type p' = ParsedTransaction.transaction_type p /\
  ParsedTransaction.gross_amount p' = ParsedTransaction.gross_amount p /\
  ParsedTransaction.brokerage p' = ParsedTransaction.brokerage p /\
  ParsedTransaction.taxes p' = ParsedTransaction.taxes p /\
  ParsedTransaction.other_charges p' = ParsedTransaction.other_charges p /\
  ParsedTransaction.quantity p' = ParsedTransaction.quantity p /\
  ParsedTransaction.price p' = ParsedTransaction.price p.
Proof.
  unfold ParsedTransaction.__post_init__.
  destruct (ParsedTransaction.net_amount p); simpl; repeat split.
Qed.

(** ** Canonical identifiers *)

Lemma str_length_app (s t : string) :
  String.length (s ++ t)%string = (String.length s + String.length t)%nat.
Proof. induction s as [|c s IH]; simpl; [reflexivity | now rewrite IH]. Qed.

Lemma upper_length (s : string) : String.length (upper s) = String.length s.
Proof. induction s as [|c s IH]; simpl; [reflexivity | now rewrite IH]. Qed.

Lemma priority_at_least_one ty : (1 <= InstrumentCanonicalizer.priority ty)%Z.
Proof. destruct ty; simpl; lia. Qed.

Lemma priority_one_isin ty :
  InstrumentCanonicalizer.priority ty = 1%Z -> ty = IdentifierType.ISIN.
Proof. destruct ty; simpl; intros H; try reflexivity; lia. Qed.

(** The primary identifier of a list that holds an ISIN is its first
    ISIN, wherever it stands. *)
Lemma select_primary_isin pre i post :
  InstrumentIdentifier.identifier_type i = IdentifierType.ISIN ->
  Forall (fun x => InstrumentIdentifier.identifier_type x
                   <> IdentifierType.ISIN) pre ->
  exists rest,
    sorted (fun x => InstrumentCanonicalizer.priority
                       (InstrumentIdentifier.identifier_type x))
           (pre ++ i :: post) = i :: rest.
Proof.
  intros Hi. induction pre as [|p pre IH]; intros Hpre.
  - change ([] ++ i :: post) with (i :: post).
    change (sorted ?k (i :: post)) with (insert_asc k i (sorted k post)).
    destruct (sorted _ post) as [|y s]; simpl; [eauto|].
    rewrite Hi. simpl.
    pose proof (priority_at_least_one (InstrumentIdentifier.identifier_type y)).
    destruct (1 <=? _)%Z eqn:E; [eauto|]. apply Z.leb_gt in E. lia.
  - inversion Hpre as [|? ? Hp Hpre']; subst.
    destruct (IH Hpre') as (rest & Hrest).
    change ((p :: pre) ++ i :: post) with (p :: (pre ++ i :: post)).
    change (sorted ?k (p :: ?l)) with (insert_asc k p (sorted k l)).
    rewrite Hrest. simpl. rewrite Hi. simpl.
    pose proof (priority_at_least_one (InstrumentIdentifier.identifier_type p)).
    destruct (_ <=? 1)%Z eqn:E; [|eauto].
    apply Z.leb_le in E. exfalso. apply Hp. apply priority_one_isin. lia.
Qed.

(** The canonicalization engine: an ISIN among the identifiers gives
    [ISIN:<value>], whatever the order of the identifiers. *)
Lemma canonicalizer_isin_first name asset_class pre i post :
  InstrumentIdentifier.identifier_type i = IdentifierType.ISIN ->
  Forall (fun x => InstrumentIdentifier.identifier_type x
                   <> IdentifierType.ISIN) pre ->
  InstrumentCanonicalizer.new_canonical_id name (pre ++ i :: post) asset_class
  = Ok ("ISIN:" ++ InstrumentIdentifier.value i)%string.
Proof.
  intros Hi Hpre.
  destruct (select_primary_isin pre i post Hi Hpre) as (rest & Hs).
  unfold InstrumentCanonicalizer.new_canonical_id,
    InstrumentCanonicalizer._select_primary_identifier.
  rewrite Hs. simpl. unfold CanonicalIdGenerator.generate. now rewrite Hi.
Qed.

(** The canonicalization engine: a symbol with its exchange alone gives
    [<EXCHANGE>:<symbol>]. *)
Lemma canonicalizer_symbol_exchange name asset_class sym exchange :
  InstrumentIdentifier.identifier_type sym = IdentifierType.SYMBOL ->
  InstrumentIdentifier.exchange sym = Some exchange -> exchange <> "" ->
  InstrumentCanonicalizer.new_canonical_id name [sym] asset_class
  = Ok (exchange ++ ":" ++ InstrumentIdentifier.value sym)%string.
Proof.
  intros Hty Hex Hne.
  unfold InstrumentCanonicalizer.new_canonical_id,
    InstrumentCanonicalizer._select_primary_identifier. simpl.
  unfold CanonicalIdGenerator.generate. rewrite Hty, Hex. simpl.
  destruct (String.eqb_spec exchange ""); [contradiction|reflexivity].
Qed.

(** The canonicalization engine: a manual identifier alone gives the
    hash form, a function of the name and the asset class. *)
Lemma canonicalizer_manual name asset_class m :
  InstrumentIdentifier.identifier_type m = IdentifierType.MANUAL ->
  InstrumentCanonicalizer.new_canonical_id name [m] asset_class
  = Ok ("MANUAL:" ++ upper (AssetClass_value asset_class) ++ ":"
        ++ upper (str_take 8 (md5.hexdigest name)))%string.
Proof.
  intros Hty.
  unfold InstrumentCanonicalizer.new_canonical_id,
    InstrumentCanonicalizer._select_primary_identifier. simpl.
  unfold CanonicalIdGenerator.generate. now rewrite Hty.
Qed.

(** The canonicalization engine has no primary identifier to pick when
    there is none at all. *)
Lemma canonicalizer_without_identifiers name asset_class :
  InstrumentCanonicalizer.new_canonical_id name [] asset_class
  = Raise (IndexError "list index out of range").
Proof. reflexivity. Qed.

(** The ingestion service: an ISIN gives [ISIN:<value>], a symbol with its
    exchange and nothing else gives [<EXCHANGE>:<symbol>]. *)
Lemma ingestion_isin_and_symbol (p : ParsedTransaction.t) :
  (forall isin, ParsedTransaction.isin p = Some isin -> isin <> "" ->
     IngestionService._generate_canonical_id p = ("ISIN:" ++ isin)%string) /\
  (forall symbol exchange,
     str_truthy (ParsedTransaction.isin p) = false ->
     str_truthy (ParsedTransaction.amfi_code p) = false ->
     str_truthy (ParsedTransaction.cusip p) = false ->
     ParsedTransaction.symbol p = Some symbol -> symbol <> "" ->
     ParsedTransaction.exchange p = Some exchange -> exchange <> "" ->
     IngestionService._generate_canonical_id p
     = (exchange ++ ":" ++ symbol)%string).
Proof.
  unfold IngestionService._generate_canonical_id. split.
  - intros isin -> Hne. simpl.
    destruct (String.eqb_spec isin ""); [contradiction|reflexivity].
  - intros symbol exchange -> -> -> -> Hs -> He. simpl.
    destruct (String.eqb_spec symbol ""); [contradiction|].
    destruct (String.eqb_spec exchange ""); [contradiction|reflexivity].
Qed.

(** C6 -- the manual form at the ingestion service: for the gold holding a
    manual entry produces, it mints [MANUAL:] followed by eight lower-case
    hex digits, with no asset class, where the canonicalization engine
    mints [MANUAL:COMMODITY:] followed by the digits in upper case. *)
Theorem ingestion_manual_id_differs :
  IngestionService._generate_canonical_id gold_purchase = "MANUAL:e7c727a7" /\
  InstrumentCanonicalizer.new_canonical_id
    (ParsedTransaction.instrument_name gold_purchase)
    [InstrumentIdentifier.new IdentifierType.MANUAL "gold" None None]
    COMMODITY = Ok "MANUAL:COMMODITY:E7C727A7".
Proof. split; vm_compute; reflexivity. Qed.

(** No name and no asset class make the two manual forms agree. *)
Lemma ingestion_manual_id_never_agrees (p : ParsedTransaction.t)
    (asset_class : AssetClass) (m : InstrumentIdentifier.t) :
  str_truthy (ParsedTransaction.isin p) = false ->
  str_truthy (ParsedTransaction.amfi_code p) = false ->
  str_truthy (ParsedTransaction.cusip p) = false ->
  str_truthy (ParsedTransaction.symbol p) = false ->
  InstrumentIdentifier.identifier_type m = IdentifierType.MANUAL ->
  InstrumentCanonicalizer.new_canonical_id
    (ParsedTransaction.instrument_name p) [m] asset_class
  <> Ok (IngestionService._generate_canonical_id p).
Proof.
  intros H1 H2 H3 H4 Hm. rewrite (canonicalizer_manual _ _ _ Hm).
  unfold IngestionService._generate_canonical_id.
  rewrite H1, H2, H3, H4. simpl. intros [= H].
  apply (f_equal String.length) in H.
  rewrite !str_length_app, !upper_length in H. simpl in H. lia.
Qed.

(** ** Registration *)

Section RegisterFacts.
Variable sha256_hexdigest : string -> string.
Variable new_id : string.
Variable now : Z.

(** A request whose email is already a user's ends in the 500 of the
    catch-all handler, and the users table is as it was. *)
Lemma register_existing_email (user_data : UserRegister.t) (db : session) :
  select_user_by_email (UserRegister.email user_data) db <> [] ->
  fst (register sha256_hexdigest new_id now user_data db)
    = Raise (HTTPException 500 "Registration failed") /\
  users (snd (register sha256_hexdigest new_id now user_data db)) = users db /\
  pending (snd (register sha256_hexdigest new_id now user_data db)) = [].
Proof.
  intros Hex. unfold register, register_body.
  destruct (select_user_by_email _ db) as [|u [|u' rest]];
    [contradiction| |]; simpl; auto.
Qed.

(** A request with a new email adds one active user and answers with its
    public fields. *)
Lemma register_new_email (user_data : UserRegister.t) (db : session) :
  select_user_by_email (UserRegister.email user_data) db = [] ->
  register sha256_hexdigest new_id now user_data db
  = (Ok (UserResponse.mk new_id (UserRegister.email user_data)
           (UserRegister.full_name user_data) true now),
     mk_session
       (users db ++ pending db ++
          [User.mk new_id (UserRegister.email user_data)
             (sha256_hexdigest (UserRegister.password user_data))
             (UserRegister.full_name user_data) true false now]) []).
Proof.
  intros Hnone. unfold register, register_body. rewrite Hnone. simpl.
  reflexivity.
Qed.

End RegisterFacts.

(** C5 -- duplicate registration: registering the email of an existing
    user ends in HTTP 500 "Registration failed", not in the 400 "Email
    already registered" the duplicate check raises; no user row is added. *)
Theorem duplicate_registration_answers_500
    (sha256_hexdigest : string -> string) (new_id : string) (now : Z) :
  register sha256_hexdigest new_id now
    (UserRegister.mk "alice@example.com" "differentpassword" "Different Name")
    (mk_session [sample_user] [])
  = (Raise (HTTPException 500 "Registration failed"),
     mk_session [sample_user] []).
Proof. reflexivity. Qed.

(** The duplicate check itself raises the 400. *)
Lemma duplicate_check_raises_400
    (sha256_hexdigest : string -> string) (new_id : string) (now : Z) :
  fst (register_body sha256_hexdigest new_id now
         (UserRegister.mk "alice@example.com" "differentpassword"
                          "Different Name")
         (mk_session [sample_user] []))
  = Raise (HTTPException 400 "Email already registered").
Proof. reflexivity. Qed.

(** ** The capital-gains report *)

Lemma build_query_app_db_models portfolio_id :
  reports.build_query app_db_models portfolio_id
  = Raise (AttributeError "TaxLot" "buy_transaction").
Proof. reflexivity. Qed.

(** C2 -- the capital-gains report on the mapped classes of
    app/db/models.py: whatever the financial year, the caller and the
    stored lots, the query names [TaxLot.buy_transaction], which TaxLot does
    not declare, and the endpoint answers HTTP 500. *)
Theorem capital_gains_report_answers_500 (today : Z) (financial_year : string)
    (portfolio_id : option string) (current_user : User.t)
    (table : list (gmap string val)) :
  reports.get_capital_gains_report app_db_models today financial_year
    portfolio_id current_user table
  = Raise (HTTPException 500 "Error generating capital gains report").
Proof.
  unfold reports.get_capital_gains_report, reports.report_body.
  destruct (reports.parse_financial_year financial_year) as [fy|e];
    [|reflexivity].
  cbn -[reports.build_query]. rewrite build_query_app_db_models. reflexivity.
Qed.

(** ** The stock split *)

(** C3 -- the stock split on the rows of app/db/models.py: for the position
    of 100 shares at average cost 50 and the 1-for-2 split, reading
    [position.average_price], which Position does not have, raises
    AttributeError; the position is left at 100 shares. *)
Theorem stock_split_raises_attribute_error :
  CorporateActionProcessor._process_stock_split app_db_models split_1_for_2
    (CorporateActionProcessor.mk_store [position_100_at_50] [])
  = (Raise (AttributeError "Position" "average_price"),
     CorporateActionProcessor.mk_store [position_100_at_50] []).
Proof. vm_compute. reflexivity. Qed.

(** ** The Newton-Raphson routine *)

Section NewtonRaphsonFacts.
Variable libm_pow : float -> float -> float.

(** What a run reports about itself: the loop body ran at most [fuel]
    times, and the result goes with the exit. *)
Lemma nr_iterate_outcome fuel flows : forall rate,
  exists result how n,
    ReturnsCalculator.nr_iterate libm_pow fuel flows rate = (result, how, n) /\
    (n <= fuel)%nat /\
    match how with
    | ReturnsCalculator.Converged => exists r, result = Ok (Some r)
    | ReturnsCalculator.FlatDerivative => result = Ok None
    | ReturnsCalculator.RateOutOfRange => result = Ok None
    | ReturnsCalculator.Exhausted => result = Ok None /\ n = fuel
    | ReturnsCalculator.Raised => exists e, result = Raise e
    end.
Proof.
  induction fuel as [|fuel IH]; intros rate; simpl.
  - do 3 eexists. split; [reflexivity|]. split; [lia|]. split; reflexivity.
  - destruct (ReturnsCalculator.npv_loop libm_pow _ flows) as [st|e].
    2:{ do 3 eexists. split; [reflexivity|]. split; [lia|]. eauto. }
    destruct (abs (ReturnsCalculator.npv_of st) <? 1e-6)%float.
    { do 3 eexists. split; [reflexivity|]. split; [lia|]. eauto. }
    destruct (abs (ReturnsCalculator.dnpv_of st) <? 1e-10)%float.
    { do 3 eexists. split; [reflexivity|]. split; [lia|]. reflexivity. }
    destruct (float_div _ _) as [step|e].
    2:{ do 3 eexists. split; [reflexivity|]. split; [lia|]. eauto. }
    destruct (_ || _).
    { do 3 eexists. split; [reflexivity|]. split; [lia|]. reflexivity. }
    destruct (IH (ReturnsCalculator.rate_of st - step)%float)
      as (result & how & n & -> & Hn & Hhow).
    exists result, how, (S n). split; [reflexivity|]. split; [lia|].
    destruct how; auto. destruct Hhow as [-> ->]. auto.
Qed.

(** The exceptions of the float operations are the only ones. *)
Lemma float_pow_raises x y e :
  float_pow libm_pow x y = Raise e ->
  e = ZeroDivisionError \/ e = OverflowError \/ e = TypeError "complex".
Proof.
  unfold float_pow.
  repeat match goal with
         | |- context [if ?c then _ else _] => destruct c
         end; intros H; inversion H; auto.
Qed.

Lemma float_div_raises x y e :
  float_div x y = Raise e -> e = ZeroDivisionError.
Proof.
  unfold float_div. destruct (y =? 0)%float; intros H; inversion H; auto.
Qed.

Lemma npv_step_raises st flow e :
  ReturnsCalculator.npv_step libm_pow st flow = Raise e ->
  e = ZeroDivisionError \/ e = OverflowError \/ e = TypeError "complex".
Proof.
  destruct flow as [amount year]. unfold ReturnsCalculator.npv_step.
  destruct (float_pow libm_pow _ year) as [p|e1] eqn:Ep.
  2:{ intros [= <-]. eapply float_pow_raises; eauto. }
  cbn [mbind res_bind].
  destruct (float_div amount p) as [d|e1] eqn:Ed.
  2:{ intros [= <-]. left. eapply float_div_raises; eauto. }
  cbn [mbind res_bind].
  destruct (negb (year =? 0)%float); [|discriminate].
  destruct (float_div (year * d)%float _) as [q|e1] eqn:Eq; [discriminate|].
  intros [= <-]. left. eapply float_div_raises; eauto.
Qed.

Lemma npv_loop_raises flows : forall st e,
  ReturnsCalculator.npv_loop libm_pow st flows = Raise e ->
  e = ZeroDivisionError \/ e = OverflowError \/ e = TypeError "complex".
Proof.
  induction flows as [|flow flows IH]; intros st e;
    cbn [ReturnsCalculator.npv_loop]; [discriminate|].
  destruct (ReturnsCalculator.npv_step libm_pow st flow) as [st'|e1] eqn:Es.
  - apply IH.
  - intros [= <-]. eapply npv_step_raises; eauto.
Qed.

Lemma nr_iterate_raises fuel flows : forall rate e,
  fst (fst (ReturnsCalculator.nr_iterate libm_pow fuel flows rate)) = Raise e ->
  e = ZeroDivisionError \/ e = OverflowError \/ e = TypeError "complex".
Proof.
  induction fuel as [|fuel IH]; intros rate e; simpl; [discriminate|].
  destruct (ReturnsCalculator.npv_loop libm_pow _ flows) as [st|e1] eqn:El.
  2:{ simpl. intros [= <-]. eapply npv_loop_raises; eauto. }
  destruct (abs (ReturnsCalculator.npv_of st) <? 1e-6)%float;
    [discriminate|].
  destruct (abs (ReturnsCalculator.dnpv_of st) <? 1e-10)%float;
    [discriminate|].
  destruct (float_div _ _) as [step|e1] eqn:Ed.
  2:{ simpl. intros [= <-]. left. eapply float_div_raises; eauto. }
  destruct (_ || _); [discriminate|].
  specialize (IH (ReturnsCalculator.rate_of st - step)%float e).
  destruct (ReturnsCalculator.nr_iterate libm_pow fuel flows _)
    as [[r how] n]. exact IH.
Qed.

(** One pass that converges, one pass that goes on. *)
Lemma nr_iterate_converged fuel flows rate st :
  ReturnsCalculator.npv_loop libm_pow
    (ReturnsCalculator.mk_npv_state rate 0 0) flows = Ok st ->
  (abs (ReturnsCalculator.npv_of st) <? 1e-6)%float = true ->
  ReturnsCalculator.nr_iterate libm_pow (S fuel) flows rate
  = (Ok (Some (ReturnsCalculator.rate_of st)),
     ReturnsCalculator.Converged, 1%nat).
Proof.
  intros H Hc. cbn [ReturnsCalculator.nr_iterate]. now rewrite H, Hc.
Qed.

Lemma nr_iterate_continue fuel flows rate st rate' :
  ReturnsCalculator.npv_loop libm_pow
    (ReturnsCalculator.mk_npv_state rate 0 0) flows = Ok st ->
  (abs (ReturnsCalculator.npv_of st) <? 1e-6)%float = false ->
  (abs (ReturnsCalculator.dnpv_of st) <? 1e-10)%float = false ->
  (ReturnsCalculator.dnpv_of st =? 0)%float = false ->
  rate' = (ReturnsCalculator.rate_of st
           - ReturnsCalculator.npv_of st / ReturnsCalculator.dnpv_of st)%float ->
  (rate' <? -0.99)%float || (10 <? rate')%float = false ->
  ReturnsCalculator.nr_iterate libm_pow (S fuel) flows rate
  = (let '(r, how, n) :=
       ReturnsCalculator.nr_iterate libm_pow fuel flows rate' in
     (r, how, S n)).
Proof.
  intros H Hc Hd Hz -> Hr. cbn [ReturnsCalculator.nr_iterate].
  rewrite H, Hc, Hd. unfold float_div. rewrite Hz, Hr. reflexivity.
Qed.

(** A pass whose inner loop raises ends the run. *)
Lemma nr_iterate_raised fuel flows rate e :
  ReturnsCalculator.npv_loop libm_pow
    (ReturnsCalculator.mk_npv_state rate 0 0) flows = Raise e ->
  ReturnsCalculator.nr_iterate libm_pow (S fuel) flows rate
  = (Raise e, ReturnsCalculator.Raised, 1%nat).
Proof.
  intros H. cbn [ReturnsCalculator.nr_iterate]. now rewrite H.
Qed.

(** Fewer than two dates: the routine returns an absent result at once. *)
Lemma newton_raphson_degenerate dates amounts guess :
  (length dates < 2)%nat ->
  ReturnsCalculator._calculate_xirr_newton_raphson libm_pow dates amounts guess
  = Ok None.
Proof.
  intros H. unfold ReturnsCalculator._calculate_xirr_newton_raphson.
  destruct (negb _); [reflexivity|].
  apply Nat.ltb_lt in H. now rewrite H.
Qed.

(** Lists of different lengths: an absent result too. *)
Lemma newton_raphson_length_mismatch dates amounts guess :
  length dates <> length amounts ->
  ReturnsCalculator._calculate_xirr_newton_raphson libm_pow dates amounts guess
  = Ok None.
Proof.
  intros H. unfold ReturnsCalculator._calculate_xirr_newton_raphson.
  apply Nat.eqb_neq in H. now rewrite H.
Qed.

End NewtonRaphsonFacts.

(** C10 -- termination of the Newton-Raphson routine: for dates and amounts
    of equal length, at least two, and a guess not below -1 (so that no
    power has a negative base), the loop body runs at most 100 times; the
    routine returns the rate when the residual converges, an absent result
    when the derivative is flat, when the rate leaves [-0.99, 10.0] or when
    the 100 iterations are used up, and otherwise lets out the exception a
    float operation raised. *)
Theorem newton_raphson_terminates (libm_pow : float -> float -> float)
    (dates : list Z) (amounts : list float) (guess : float) :
  length dates = length amounts -> (2 <= length dates)%nat ->
  (guess <? -1)%float = false ->
  exists result how n,
    ReturnsCalculator.newton_raphson_trace libm_pow dates amounts guess
      = (result, how, n) /\
    ReturnsCalculator._calculate_xirr_newton_raphson libm_pow dates amounts
      guess = result /\
    (n <= 100)%nat /\
    match how with
    | ReturnsCalculator.Converged => exists r, result = Ok (Some r)
    | ReturnsCalculator.FlatDerivative => result = Ok None
    | ReturnsCalculator.RateOutOfRange => result = Ok None
    | ReturnsCalculator.Exhausted => result = Ok None /\ n = 100%nat
    | ReturnsCalculator.Raised =>
        result = Raise ZeroDivisionError \/ result = Raise OverflowError \/
        result = Raise (TypeError "complex")
    end.
Proof.
  intros Hlen H2 _.
  destruct (nr_iterate_outcome libm_pow ReturnsCalculator.max_iterations
              (zip amounts (ReturnsCalculator.years_of dates)) guess)
    as (result & how & n & Hrun & Hn & Hhow).
  exists result, how, n.
  unfold ReturnsCalculator._calculate_xirr_newton_raphson,
    ReturnsCalculator.newton_raphson_trace.
  rewrite Hrun. split; [reflexivity|]. split.
  { apply Nat.eqb_eq in Hlen. rewrite Hlen. simpl.
    destruct (length dates <? 2)%nat eqn:E; [|reflexivity].
    apply Nat.ltb_lt in E. lia. }
  split; [exact Hn|].
  destruct how; try exact Hhow.
  destruct Hhow as (e & ->).
  pose proof (nr_iterate_raises libm_pow ReturnsCalculator.max_iterations
                (zip amounts (ReturnsCalculator.years_of dates)) guess e) as H.
  rewrite Hrun in H. specialize (H eq_refl).
  destruct H as [-> | [-> | ->]]; auto.
Qed.

(** Two flows on the same day: the derivative is flat at the first pass. *)
Lemma newton_raphson_same_day :
  exists result how n,
    ReturnsCalculator.newton_raphson_trace (fun _ _ => PrimFloat.nan)
      [0; 0]%Z [-1000; 1100]%float 0.1 = (result, how, n) /\
    ReturnsCalculator._calculate_xirr_newton_raphson (fun _ _ => PrimFloat.nan)
      [0; 0]%Z [-1000; 1100]%float 0.1 = result /\
    (n <= 100)%nat /\
    match how with
    | ReturnsCalculator.Converged => exists r, result = Ok (Some r)
    | ReturnsCalculator.FlatDerivative => result = Ok None
    | ReturnsCalculator.RateOutOfRange => result = Ok None
    | ReturnsCalculator.Exhausted => result = Ok None /\ n = 100%nat
    | ReturnsCalculator.Raised =>
        result = Raise ZeroDivisionError \/ result = Raise OverflowError \/
        result = Raise (TypeError "complex")
    end.
Proof.
  apply (newton_raphson_terminates (fun _ _ => PrimFloat.nan)
           [0; 0]%Z [-1000; 1100]%float 0.1);
    [reflexivity | simpl; lia | reflexivity].
Defined.

(** The unrestricted form of C10 fails: with the second flow 8000 years
    after the first, the first pass evaluates [1.1 ** 8000.0], and the
    OverflowError of an overflowing power leaves the routine. *)
Lemma newton_raphson_overflow_leaves :
  length far_dates = length far_amounts /\
  (2 <= length far_dates)%nat /\
  forall libm_pow : float -> float -> float,
    libm_pow 1.1%float 8000%float = infinity ->
    ReturnsCalculator._calculate_xirr_newton_raphson libm_pow far_dates
      far_amounts 0.1 = Raise OverflowError.
Proof.
  split; [reflexivity|]. split; [simpl; lia|].
  intros libm_pow Hpow.
  assert (Hflows : zip far_amounts (ReturnsCalculator.years_of far_dates)
                   = [(-1000, 0); (1100, 8000)]%float)
    by (vm_compute; reflexivity).
  assert (H1 : ReturnsCalculator.npv_step libm_pow
                 (ReturnsCalculator.mk_npv_state 0.1 0 0) (-1000, 0)%float
               = Ok (ReturnsCalculator.mk_npv_state 0.1 (-1000) 0))
    by (vm_compute; reflexivity).
  assert (H2 : ReturnsCalculator.npv_step libm_pow
                 (ReturnsCalculator.mk_npv_state 0.1 (-1000) 0)
                 (1100, 8000)%float
               = Raise OverflowError).
  { unfold ReturnsCalculator.npv_step, float_pow.
    cbn [ReturnsCalculator.rate_of].
    change (if (0.1 =? -1)%float then (-0.99999)%float else 0.1%float)
      with 0.1%float.
    change (1 + 0.1)%float with 1.1%float.
    rewrite Hpow. reflexivity. }
  unfold ReturnsCalculator._calculate_xirr_newton_raphson,
    ReturnsCalculator.newton_raphson_trace, ReturnsCalculator.max_iterations.
  rewrite Hflows.
  rewrite (nr_iterate_raised libm_pow 99 _ 0.1 OverflowError).
  - reflexivity.
  - cbn [ReturnsCalculator.npv_loop]. rewrite H1. cbn [mbind res_bind].
    now rewrite H2.
Qed.

(** ** The known case *)

Section KnownCase.
Variable libm_pow : float -> float -> float.
Hypothesis Hpow :
  Forall (fun row => libm_pow (fst (fst row)) (snd (fst row)) = snd row)
    known_powers.

Lemma known_flows :
  zip known_amounts (ReturnsCalculator.years_of known_dates)
  = [(-1000, 0); (1100, known_year)]%float.
Proof. vm_compute. reflexivity. Qed.

(** One pass of the inner loop over the known flows, at a rate whose power
    is in the table. *)
Lemma known_pass rate x p :
  In (x, known_year, p) known_powers ->
  (rate =? -1)%float = false ->
  x = (1 + rate)%float ->
  (x <? 0)%float = false -> (x =? 0)%float = false ->
  (p =? 0)%float = false -> PrimFloat.is_infinity p = false ->
  ReturnsCalculator.npv_loop libm_pow
    (ReturnsCalculator.mk_npv_state rate 0 0)
    [(-1000, 0); (1100, known_year)]%float
  = Ok (ReturnsCalculator.mk_npv_state rate
          (0 + -1000 / 1 + 1100 / p)%float
          (0 - known_year * (1100 / p) / x)%float).
Proof.
  intros Hin Hr -> Hneg Hzero Hp Hinf.
  assert (Hx : libm_pow (1 + rate)%float known_year = p).
  { exact (proj1 (List.Forall_forall _ _) Hpow _ Hin). }
  cbn [ReturnsCalculator.npv_loop]. unfold ReturnsCalculator.npv_step.
  cbn [ReturnsCalculator.rate_of ReturnsCalculator.npv_of
       ReturnsCalculator.dnpv_of].
  rewrite Hr. unfold float_pow.
  change (0 =? 0)%float with true. cbv iota. cbn [mbind res_bind].
  change (float_div (-1000) 1) with (Ok (-1000 / 1)%float).
  cbn [mbind res_bind negb]. cbv iota.
  cbn [ReturnsCalculator.rate_of ReturnsCalculator.npv_of
       ReturnsCalculator.dnpv_of].
  rewrite Hr.
  change (known_year =? 0)%float with false. cbv iota.
  rewrite Hzero, Hneg, Hx, Hinf. cbn [andb]. cbn [mbind res_bind].
  unfold float_div. rewrite Hp. cbn [mbind res_bind negb]. cbv iota.
  rewrite Hzero. reflexivity.
Qed.

(** The routine on the known case: two Newton steps, convergence at the
    third pass. *)
Lemma known_trace :
  ReturnsCalculator.newton_raphson_trace libm_pow known_dates known_amounts
    0.1
  = (Ok (Some known_rate), ReturnsCalculator.Converged, 3%nat).
Proof.
  unfold ReturnsCalculator.newton_raphson_trace,
    ReturnsCalculator.max_iterations. rewrite known_flows.
  rewrite (nr_iterate_continue libm_pow 99 _ 0.1 _ 0.10007180669735267
             (known_pass 0.1 1.1 1.099928242451653
                ltac:(vm_compute; auto) eq_refl eq_refl eq_refl eq_refl
                eq_refl eq_refl)
             eq_refl eq_refl eq_refl eq_refl eq_refl).
  rewrite (nr_iterate_continue libm_pow 98 _ 0.10007180669735267 _
             0.10007181138351043
             (known_pass 0.10007180669735267 1.1000718066973527
                1.0999999953173554
                ltac:(vm_compute; auto) eq_refl eq_refl eq_refl eq_refl
                eq_refl eq_refl)
             eq_refl eq_refl eq_refl eq_refl eq_refl).
  rewrite (nr_iterate_converged libm_pow 97 _ 0.10007181138351043 _
             (known_pass 0.10007181138351043 1.1000718113835104
                1.0999999999999999
                ltac:(vm_compute; auto 6) eq_refl eq_refl eq_refl eq_refl
                eq_refl eq_refl)
             eq_refl).
  reflexivity.
Qed.

Lemma known_newton_raphson :
  ReturnsCalculator._calculate_xirr_newton_raphson libm_pow known_dates
    known_amounts 0.1 = Ok (Some known_rate).
Proof.
  unfold ReturnsCalculator._calculate_xirr_newton_raphson.
  rewrite known_trace. reflexivity.
Qed.

End KnownCase.

(** C7 -- XIRR behaviour: on a platform that gives the known case its
    powers and conversions, [calculate_xirr] of -1000 on day 0 with current
    value 1100 on day 365 is within 1e-3 of 0.10; with no cash flow it
    returns an absent result; and the routine returns an absent result,
    raising nothing, for fewer than two dates. *)
Theorem xirr_behaviour (libm_pow : float -> float -> float)
    (float_of_decimal : Q -> float) (decimal_of_float : float -> Q) :
  known_platform libm_pow float_of_decimal decimal_of_float ->
  (exists xirr,
     ReturnsCalculator.calculate_xirr libm_pow float_of_decimal
       decimal_of_float [known_flow] 1100 known_valuation_date = Some xirr /\
     (Qabs (xirr - (1 # 10)) < 1 # 1000)%Q) /\
  (forall current_value valuation_date,
     ReturnsCalculator.calculate_xirr libm_pow float_of_decimal
       decimal_of_float [] current_value valuation_date = None) /\
  (forall dates amounts guess,
     (length dates < 2)%nat ->
     ReturnsCalculator._calculate_xirr_newton_raphson libm_pow dates amounts
       guess = Ok None).
Proof.
  intros (Hpow & Hout & Hin & Hrate). split; [|split].
  - exists known_xirr. split; [|vm_compute; reflexivity].
    unfold ReturnsCalculator.calculate_xirr, known_flow.
    cbn [map app CashFlow.date CashFlow.amount].
    rewrite Hout, Hin.
    change [0%Z; known_valuation_date] with known_dates.
    change [(-1000)%float; 1100%float] with known_amounts.
    rewrite (known_newton_raphson libm_pow Hpow). now rewrite Hrate.
  - reflexivity.
  - intros dates amounts guess H.
    now apply newton_raphson_degenerate.
Qed.

(** A platform for the known case: the table of powers, the conversion of
    whole numbers. *)
Lemma xirr_behaviour_known_platform :
  (exists xirr,
     ReturnsCalculator.calculate_xirr (table_pow known_powers) float_of_whole
       (fun _ => known_xirr) [known_flow] 1100 known_valuation_date
     = Some xirr /\
     (Qabs (xirr - (1 # 10)) < 1 # 1000)%Q) /\
  (forall current_value valuation_date,
     ReturnsCalculator.calculate_xirr (table_pow known_powers) float_of_whole
       (fun _ => known_xirr) [] current_value valuation_date = None) /\
  (forall dates amounts guess,
     (length dates < 2)%nat ->
     ReturnsCalculator._calculate_xirr_newton_raphson (table_pow known_powers)
       dates amounts guess = Ok None).
Proof.
  apply (xirr_behaviour (table_pow known_powers) float_of_whole
           (fun _ => known_xirr)).
  unfold known_platform. split; [|split; [|split]]; try reflexivity.
  unfold known_powers. repeat constructor.
Defined.

(** ** The report and the split on a schema that declares their attributes *)

(** The window of FY2024-25 is 2024-04-01 to 2025-03-31. *)
Lemma financial_year_2024_25 :
  reports.parse_financial_year "FY2024-25" = Ok (738977, 739341)%Z /\
  date 2024 4 1 = Ok 738977%Z /\ date 2025 3 31 = Ok 739341%Z.
Proof. repeat split; vm_compute; reflexivity. Qed.







(** On the extended schema, the sample lots give the report of the two
    sells inside the window: one short-term gain of 200, one long-term
    loss of 100, net 100. *)
Lemma capital_gains_report_sample :
  exists response,
    reports.get_capital_gains_report extended_models 739400 "FY2024-25" None
      sample_user sample_lots = Ok response /\
    map CapitalGainsReportItem.sell_date
      (CapitalGainsResponse.gains_items response) = [738977; 739341]%Z /\
    map CapitalGainsReportItem.holding_period_days
      (CapitalGainsResponse.gains_items response) = [365; 366]%Z /\
    map CapitalGainsReportItem.is_long_term
      (CapitalGainsResponse.gains_items response) = [false; true] /\
    (CapitalGainsResponse.total_short_term_gains response == 200)%Q /\
    (CapitalGainsResponse.total_long_term_gains response == -100)%Q /\
    (CapitalGainsResponse.net_capital_gains response == 100)%Q.
Proof.
  eexists. split; [vm_compute; reflexivity|].
  repeat split; vm_compute; reflexivity.
Qed.




(** On the extended schema, the 1-for-2 split of a position of 100 shares
    with average price 50 leaves 200 shares with average price 25. *)
Lemma stock_split_sample :
  exists position',
    CorporateActionProcessor._process_stock_split extended_models
      split_1_for_2
      (CorporateActionProcessor.mk_store [position_100_at_50_priced] [])
    = (Ok tt, CorporateActionProcessor.mk_store [position'] []) /\
    (exists q, position' !! "quantity" = Some (VDec q) /\ (q == 200)%Q) /\
    (exists p, position' !! "average_price" = Some (VDec p) /\ (p == 25)%Q).
Proof.
  eexists. split; [vm_compute; reflexivity|].
  split; eexists; (split; [vm_compute; reflexivity|]); reflexivity.
Qed.

(** On app/db/models.py the split never goes through: whatever the action
    and the rows, it raises. *)
Lemma stock_split_always_raises (action : gmap string val)
    (db : CorporateActionProcessor.store) :
  exists e,
    fst (CorporateActionProcessor._process_stock_split app_db_models action db)
    = Raise e.
Proof.
  unfold CorporateActionProcessor._process_stock_split.
  match goal with
  | |- context [match ?m with Ok _ => _ | Raise _ => _ end] =>
      destruct m as [[split_ratio instrument_id]|e]
  end; [|eauto].
  destruct (CorporateActionProcessor.for_selected _ _ _) as [[[]|e] positions'];
    [|eauto].
  change (class_attr app_db_models "Transaction" "instrument_id") with (Ok tt).
  change (class_attr app_db_models "TaxLot" "status")
    with (@Raise unit (AttributeError "TaxLot" "status")).
  cbn. eauto.
Qed.

(** ** Instances *)





Lemma register_new_email_sample :
  register (fun password => password) "u2" 1
    (UserRegister.mk "bob@example.com" "secret" "Bob")
    (mk_session [sample_user] [])
  = (Ok (UserResponse.mk "u2" "bob@example.com" "Bob" true 1),
     mk_session
       ([sample_user] ++ [] ++
          [User.mk "u2" "bob@example.com" "secret" "Bob" true false 1]) []).
Proof.
  apply (register_new_email (fun password => password) "u2" 1
           (UserRegister.mk "bob@example.com" "secret" "Bob")
           (mk_session [sample_user] [])).
  reflexivity.
Defined.

Lemma register_existing_email_sample :
  fst (register (fun password => password) "u2" 1
         (UserRegister.mk "alice@example.com" "secret" "Alice B")
         (mk_session [sample_user] []))
    = Raise (HTTPException 500 "Registration failed") /\
  users (snd (register (fun password => password) "u2" 1
                (UserRegister.mk "alice@example.com" "secret" "Alice B")
                (mk_session [sample_user] []))) = [sample_user] /\
  pending (snd (register (fun password => password) "u2" 1
                  (UserRegister.mk "alice@example.com" "secret" "Alice B")
                  (mk_session [sample_user] []))) = [].
Proof.
  apply (register_existing_email (fun password => password) "u2" 1
           (UserRegister.mk "alice@example.com" "secret" "Alice B")
           (mk_session [sample_user] [])).
  discriminate.
Defined.

Lemma canonicalizer_isin_first_sample :
  InstrumentCanonicalizer.new_canonical_id "Infosys"
    ([InstrumentIdentifier.new IdentifierType.SYMBOL "infy" (Some "nse") None]
     ++ InstrumentIdentifier.new IdentifierType.ISIN "ine009a01021" None None
     :: [])
    EQUITY
  = Ok "ISIN:INE009A01021".
Proof.
  apply (canonicalizer_isin_first "Infosys" EQUITY
           [InstrumentIdentifier.new IdentifierType.SYMBOL "infy" (Some "nse")
              None]
           (InstrumentIdentifier.new IdentifierType.ISIN "ine009a01021" None
              None) []).
  - reflexivity.
  - repeat constructor. discriminate.
Defined.

Lemma canonicalizer_symbol_exchange_sample :
  InstrumentCanonicalizer.new_canonical_id "Infosys"
    [InstrumentIdentifier.new IdentifierType.SYMBOL "infy" (Some "nse") None]
    EQUITY
  = Ok "NSE:INFY".
Proof.
  apply (canonicalizer_symbol_exchange "Infosys" EQUITY
           (InstrumentIdentifier.new IdentifierType.SYMBOL "infy" (Some "nse")
              None) "NSE").
  - reflexivity.
  - reflexivity.
  - discriminate.
Defined.

Lemma ingestion_manual_id_never_agrees_sample :
  InstrumentCanonicalizer.new_canonical_id
    (ParsedTransaction.instrument_name gold_purchase)
    [InstrumentIdentifier.new IdentifierType.MANUAL "gold" None None]
    COMMODITY
  <> Ok (IngestionService._generate_canonical_id gold_purchase).
Proof.
  apply (ingestion_manual_id_never_agrees gold_purchase COMMODITY
           (InstrumentIdentifier.new IdentifierType.MANUAL "gold" None None));
    reflexivity.
Defined.

Lemma newton_raphson_length_mismatch_sample :
  ReturnsCalculator._calculate_xirr_newton_raphson (table_pow known_powers)
    [0; 86400]%Z [-1000]%float 0.1 = Ok None.
Proof.
  apply (newton_raphson_length_mismatch (table_pow known_powers)
           [0; 86400]%Z [-1000]%float 0.1).
  simpl. lia.
Defined.


(** * More of the tax-lot manager *)

(** A pass that has nothing left to sell changes nothing but the list. *)
Lemma sale_fold_nothing l : forall st,
  dec_le (TaxLotManager.remaining_to_sell st) 0 = true ->
  fold_left TaxLotManager.sale_step l st
  = TaxLotManager.mk_sale_state (TaxLotManager.remaining_to_sell st)
      (TaxLotManager.updated_lots st ++ l)
      (TaxLotManager.acquisition_lots st) (TaxLotManager.total_cost_basis st).
Proof.
  induction l as [|lot l IH]; intros st H; cbn [fold_left].
  - rewrite app_nil_r. now destruct st.
  - rewrite sale_step_keep by auto. rewrite IH by exact H.
    cbn. now rewrite <- app_assoc.
Qed.

(** A sale of quantity zero: the loop takes nothing and [0 / 0] raises. *)
Lemma process_sale_zero_quantity method t lots :
  (Transaction.quantity t == 0)%Q ->
  TaxLotManager._process_sale method t lots = Raise InvalidOperation.
Proof.
  intros Hq. unfold TaxLotManager._process_sale, TaxLotManager.sale_loop.
  rewrite sale_fold_nothing.
  2:{ cbn. apply dec_le_spec. rewrite Hq. apply Qle_refl. }
  cbn. unfold dec_div. apply dec_is_zero_spec in Hq. rewrite Hq.
  reflexivity.
Qed.

(** A sale raises exactly when its quantity is zero, and what it raises
    then is decimal.InvalidOperation, whatever the method and the lots. *)
Theorem process_sale_raises_iff_zero_quantity (method : TaxLotMethod)
    (t : Transaction.t) (lots : list TaxLot.t) :
  ((exists e, TaxLotManager._process_sale method t lots = Raise e) <->
   (Transaction.quantity t == 0)%Q) /\
  (forall e, TaxLotManager._process_sale method t lots = Raise e ->
             e = InvalidOperation).
Proof.
  pose proof (process_sale_zero_quantity method t lots) as Hzero.
  assert (Hnz : ~ (Transaction.quantity t == 0)%Q ->
            exists r, TaxLotManager._process_sale method t lots = Ok r).
  { intros Hq. unfold TaxLotManager._process_sale, dec_div.
    apply dec_is_zero_false in Hq. rewrite Hq. cbn. eauto. }
  split; [split|].
  - intros (e & He). destruct (Qeq_dec (Transaction.quantity t) 0) as [|n];
      [assumption|]. destruct (Hnz n) as (r & Hr). congruence.
  - intros Hq. eauto.
  - intros e He. destruct (Qeq_dec (Transaction.quantity t) 0) as [y|n].
    + rewrite (Hzero y) in He. congruence.
    + destruct (Hnz n) as (r & Hr). congruence.
Qed.

Lemma acquired_quantity_app a b :
  (acquired_quantity (a ++ b) == acquired_quantity a + acquired_quantity b)%Q.
Proof.
  unfold acquired_quantity. induction a as [|e a IH]; cbn [app fold_right].
  - ring.
  - rewrite IH. ring.
Qed.

Lemma acquired_cost_app a b :
  (acquired_cost (a ++ b) == acquired_cost a + acquired_cost b)%Q.
Proof.
  unfold acquired_cost. induction a as [|e a IH]; cbn [app fold_right].
  - ring.
  - rewrite IH. ring.
Qed.

(** What one pass of the sale loop keeps: the lots seen, the quantity and
    the cost taken. *)
Lemma sale_step_books st lot :
  length (TaxLotManager.updated_lots (TaxLotManager.sale_step st lot))
  = S (length (TaxLotManager.updated_lots st)) /\
  (acquired_quantity
     (TaxLotManager.acquisition_lots (TaxLotManager.sale_step st lot))
   + TaxLotManager.remaining_to_sell (TaxLotManager.sale_step st lot)
   == acquired_quantity (TaxLotManager.acquisition_lots st)
      + TaxLotManager.remaining_to_sell st)%Q /\
  (TaxLotManager.total_cost_basis (TaxLotManager.sale_step st lot)
   - acquired_cost
       (TaxLotManager.acquisition_lots (TaxLotManager.sale_step st lot))
   == TaxLotManager.total_cost_basis st
      - acquired_cost (TaxLotManager.acquisition_lots st))%Q.
Proof.
  destruct (dec_le (TaxLotManager.remaining_to_sell st) 0) eqn:E1;
    [|destruct (dec_le (TaxLot.remaining_quantity lot) 0) eqn:E2].
  - rewrite sale_step_keep by auto. cbn. rewrite length_app. cbn.
    split; [lia|]. split; reflexivity.
  - rewrite sale_step_keep by auto. cbn. rewrite length_app. cbn.
    split; [lia|]. split; reflexivity.
  - destruct (sale_step_take st lot E1 E2) as (lot' & -> & _).
    cbn [TaxLotManager.updated_lots TaxLotManager.acquisition_lots
         TaxLotManager.remaining_to_sell TaxLotManager.total_cost_basis].
    rewrite length_app, acquired_quantity_app, acquired_cost_app. cbn.
    split; [lia|]. split; ring.
Qed.

Lemma sale_fold_books l : forall st,
  length (TaxLotManager.updated_lots (fold_left TaxLotManager.sale_step l st))
  = (length (TaxLotManager.updated_lots st) + length l)%nat /\
  (acquired_quantity
     (TaxLotManager.acquisition_lots (fold_left TaxLotManager.sale_step l st))
   + TaxLotManager.remaining_to_sell (fold_left TaxLotManager.sale_step l st)
   == acquired_quantity (TaxLotManager.acquisition_lots st)
      + TaxLotManager.remaining_to_sell st)%Q /\
  (TaxLotManager.total_cost_basis (fold_left TaxLotManager.sale_step l st)
   - acquired_cost
       (TaxLotManager.acquisition_lots
          (fold_left TaxLotManager.sale_step l st))
   == TaxLotManager.total_cost_basis st
      - acquired_cost (TaxLotManager.acquisition_lots st))%Q.
Proof.
  induction l as [|lot l IH]; intros st; cbn [fold_left].
  - cbn. split; [lia|]. split; reflexivity.
  - destruct (IH (TaxLotManager.sale_step st lot)) as (Hl & Hq & Hc).
    destruct (sale_step_books st lot) as (Hl1 & Hq1 & Hc1).
    split; [|split].
    + rewrite Hl, Hl1. cbn. lia.
    + rewrite Hq. exact Hq1.
    + rewrite Hc. exact Hc1.
Qed.

(** While something is left to sell, every lot passed has been emptied. *)
Lemma sale_fold_exhausts l : forall st,
  (0 < TaxLotManager.remaining_to_sell
         (fold_left TaxLotManager.sale_step l st))%Q ->
  (0 < TaxLotManager.remaining_to_sell st)%Q /\
  (open_total (TaxLotManager.updated_lots
                 (fold_left TaxLotManager.sale_step l st))
   == open_total (TaxLotManager.updated_lots st))%Q.
Proof.
  induction l as [|lot l IH]; intros st; cbn [fold_left].
  - intros H. split; [exact H | reflexivity].
  - intros H. destruct (IH _ H) as [Hpos Heq]. rewrite Heq. clear IH Heq H.
    destruct (dec_le (TaxLotManager.remaining_to_sell st) 0) eqn:E1;
      [|destruct (dec_le (TaxLot.remaining_quantity lot) 0) eqn:E2].
    + rewrite sale_step_keep in Hpos by auto. cbn in Hpos. dec_prop. lra.
    + rewrite sale_step_keep in Hpos |- * by auto. cbn in Hpos |- *.
      split; [exact Hpos|]. rewrite open_total_app. cbn [open_total].
      rewrite is_open_le, E2. cbn. ring.
    + destruct (sale_step_take st lot E1 E2) as (lot' & Hs & Hr & _).
      rewrite Hs in Hpos |- *. cbn in Hpos |- *. dec_prop.
      split; [lra|]. rewrite open_total_app. cbn [open_total].
      rewrite is_open_le.
      destruct (dec_min_cases (TaxLotManager.remaining_to_sell st)
                  (TaxLot.remaining_quantity lot)) as [[Hm Hle]|[Hm Hle]];
        rewrite Hm in Hpos, Hr.
      * exfalso. lra.
      * rewrite Hr.
        destruct (dec_le (TaxLot.remaining_quantity lot
                          - TaxLot.remaining_quantity lot) 0) eqn:E3.
        -- cbn. ring.
        -- dec_prop. exfalso. lra.
Qed.

(** A sale of a positive quantity returns, keeps every lot, and takes from
    the open lots the smaller of the sale quantity and what they hold; its
    cost basis is the cost of what it took.  This holds for FIFO, LIFO and
    the unsorted method alike. *)
Theorem sale_conserves_quantity (method : TaxLotMethod) (t : Transaction.t)
    (lots : list TaxLot.t) :
  (0 < Transaction.quantity t)%Q ->
  exists updated g,
    TaxLotManager._process_sale method t lots = Ok (updated, [g]) /\
    length updated = length lots /\
    (acquired_quantity (RealizedGain.acquisition_lots g)
     == Qmin (Transaction.quantity t) (open_total lots))%Q /\
    (open_total updated
     == open_total lots - Qmin (Transaction.quantity t) (open_total lots))%Q /\
    (RealizedGain.cost_basis g
     == acquired_cost (RealizedGain.acquisition_lots g))%Q.
Proof.
  intros Hq.
  destruct (process_sale_ok method t lots) as (g & Hsale & Hrest);
    [lra|].
  destruct Hrest as (_ & Hcb & _ & Hacq).
  set (st0 := TaxLotManager.mk_sale_state (Transaction.quantity t) [] [] 0).
  pose proof (sale_fold_books (TaxLotManager.sort_lots method lots) st0)
    as (Hlen & Hqty & Hcost).
  pose proof (sale_fold_total (TaxLotManager.sort_lots method lots) st0)
    as (Hnn & Htot); [cbn; lra|].
  pose proof (sale_fold_exhausts (TaxLotManager.sort_lots method lots) st0)
    as Hex.
  pose proof (open_total_perm _ _ (sort_lots_perm method lots)) as Hperm.
  pose proof (Permutation_length (sort_lots_perm method lots)) as Hplen.
  pose proof (open_total_nonneg
                (TaxLotManager.updated_lots
                   (fold_left TaxLotManager.sale_step
                      (TaxLotManager.sort_lots method lots) st0))) as Hunn.
  unfold TaxLotManager.sale_loop in Hsale, Hcb, Hacq. fold st0 in Hsale, Hcb, Hacq.
  cbn [st0 TaxLotManager.updated_lots TaxLotManager.acquisition_lots
       TaxLotManager.total_cost_basis TaxLotManager.remaining_to_sell
       open_total acquired_quantity acquired_cost fold_right length]
    in Hlen, Hqty, Hcost, Htot, Hex.
  eexists _, g. split; [exact Hsale|].
  split; [rewrite Hlen; cbn; lia|].
  rewrite Hacq, Hcb.
  set (F := fold_left TaxLotManager.sale_step
              (TaxLotManager.sort_lots method lots) st0) in *.
  assert (Hmin :
    (Qmin (Transaction.quantity t) (open_total lots)
     == Transaction.quantity t - TaxLotManager.remaining_to_sell F)%Q).
  { destruct (Qlt_le_dec 0 (TaxLotManager.remaining_to_sell F)) as [Hp|Hz].
    - destruct (Hex Hp) as [_ Hu]. rewrite Q.min_r; lra.
    - rewrite Q.min_l; lra. }
  rewrite Hmin. split; [|split]; lra.
Qed.

Lemma sale_conserves_quantity_sample :
  exists updated g,
    TaxLotManager._process_sale LIFO (trade "s1" SELL 345600 150 45) two_lots
    = Ok (updated, [g]) /\
    length updated = length two_lots /\
    (acquired_quantity (RealizedGain.acquisition_lots g)
     == Qmin 150 (open_total two_lots))%Q /\
    (open_total updated
     == open_total two_lots - Qmin 150 (open_total two_lots))%Q /\
    (RealizedGain.cost_basis g
     == acquired_cost (RealizedGain.acquisition_lots g))%Q.
Proof.
  apply (sale_conserves_quantity LIFO (trade "s1" SELL 345600 150 45) two_lots).
  reflexivity.
Defined.

(** ** Selling everything *)

Lemma open_total_zero_cost l :
  (open_total l == 0)%Q -> (PositionCalculator.remaining_cost_of l == 0)%Q.
Proof.
  induction l as [|lot l IH]; cbn [open_total PositionCalculator.remaining_cost_of];
    [reflexivity|].
  fold (is_open lot). pose proof (open_total_nonneg l) as Hnn.
  destruct (is_open lot) eqn:E; [|exact IH].
  unfold is_open in E. dec_prop. intros H. exfalso. lra.
Qed.

(** A sale of at least what the open lots hold empties them all, in
    whatever order it meets them. *)
Lemma liquidation_fold l : forall st,
  (open_total l <= TaxLotManager.remaining_to_sell st)%Q ->
  (TaxLotManager.total_cost_basis (fold_left TaxLotManager.sale_step l st)
   == TaxLotManager.total_cost_basis st
      + PositionCalculator.remaining_cost_of l)%Q /\
  (open_total (TaxLotManager.updated_lots
                 (fold_left TaxLotManager.sale_step l st))
   == open_total (TaxLotManager.updated_lots st))%Q.
Proof.
  induction l as [|lot l IH]; intros st Hle.
  - cbn. split; [ring | reflexivity].
  - pose proof (open_total_nonneg l) as Hnn.
    pose proof (open_total_nonneg (lot :: l)) as Hnn'.
    destruct (dec_le (TaxLotManager.remaining_to_sell st) 0) eqn:E1.
    { rewrite sale_fold_nothing by exact E1. cbn [TaxLotManager.updated_lots
        TaxLotManager.total_cost_basis]. dec_prop.
      assert (H0 : (open_total (lot :: l) == 0)%Q) by lra.
      rewrite open_total_app, H0, (open_total_zero_cost _ H0).
      split; ring. }
    cbn [fold_left].
    cbn [open_total PositionCalculator.remaining_cost_of] in Hle |- *.
    fold (is_open lot) in Hle |- *. rewrite is_open_le in Hle |- *.
    destruct (dec_le (TaxLot.remaining_quantity lot) 0) eqn:E2;
      cbn [negb] in Hle |- *.
    { rewrite sale_step_keep by auto.
      match goal with
      | |- context [fold_left _ l ?s] => destruct (IH s) as [Hc Hu]; [exact Hle|]
      end.
      cbn [TaxLotManager.updated_lots TaxLotManager.total_cost_basis] in Hc, Hu.
      rewrite Hc, Hu, open_total_app. cbn [open_total].
      rewrite is_open_le, E2. cbn. split; ring. }
    destruct (sale_step_take st lot E1 E2) as (lot' & Hs & Hr & _).
    rewrite Hs. dec_prop.
    assert (Hm : (dec_min (TaxLotManager.remaining_to_sell st)
                          (TaxLot.remaining_quantity lot)
                  == TaxLot.remaining_quantity lot)%Q).
    { destruct (dec_min_cases (TaxLotManager.remaining_to_sell st)
                  (TaxLot.remaining_quantity lot)) as [[-> Hc]|[-> Hc]];
        [lra | reflexivity]. }
    match goal with
    | |- context [fold_left _ l ?s] => destruct (IH s) as [Hc Hu]
    end.
    { cbn [TaxLotManager.remaining_to_sell]. rewrite Hm. lra. }
    cbn [TaxLotManager.updated_lots TaxLotManager.total_cost_basis] in Hc, Hu.
    rewrite Hc, Hu, open_total_app, Hm. cbn [open_total].
    rewrite is_open_le, Hr.
    assert (E3 : dec_le (TaxLot.remaining_quantity lot
                         - dec_min (TaxLotManager.remaining_to_sell st)
                                   (TaxLot.remaining_quantity lot)) 0 = true).
    { apply dec_le_spec. rewrite Hm. lra. }
    rewrite E3. cbn. split; ring.
Qed.

(** A sale of at least the open quantity realizes the same cost basis, and
    so the same gain, under every method: the cost of all that was open;
    nothing is left open. *)
Theorem liquidation_any_method (method : TaxLotMethod) (t : Transaction.t)
    (lots : list TaxLot.t) :
  (0 < Transaction.quantity t)%Q ->
  (open_total lots <= Transaction.quantity t)%Q ->
  exists updated g,
    TaxLotManager._process_sale method t lots = Ok (updated, [g]) /\
    (RealizedGain.cost_basis g
     == PositionCalculator.remaining_cost_of lots)%Q /\
    (RealizedGain.realized_gain g
     == Transaction.quantity t * Transaction.price t
        - PositionCalculator.remaining_cost_of lots)%Q /\
    (open_total updated == 0)%Q.
Proof.
  intros Hq Hle.
  destruct (process_sale_ok method t lots) as (g & Hsale & _ & Hcb & Hg & _);
    [lra|].
  destruct (liquidation_fold (TaxLotManager.sort_lots method lots)
              (TaxLotManager.mk_sale_state (Transaction.quantity t) [] [] 0))
    as [Hc Hu].
  { cbn. rewrite <- (open_total_perm _ _ (sort_lots_perm method lots)).
    exact Hle. }
  cbn [TaxLotManager.updated_lots TaxLotManager.total_cost_basis open_total]
    in Hc, Hu.
  rewrite <- (remaining_cost_perm _ _ (sort_lots_perm method lots)) in Hc.
  unfold TaxLotManager.sale_loop in Hsale, Hcb, Hg.
  eexists _, g. split; [exact Hsale|]. rewrite Hcb, Hg, Hc.
  split; [ring|]. split; [ring | exact Hu].
Qed.

Lemma liquidation_any_method_sample :
  exists updated g,
    TaxLotManager._process_sale LIFO (trade "s1" SELL 345600 200 45) two_lots
    = Ok (updated, [g]) /\
    (RealizedGain.cost_basis g
     == PositionCalculator.remaining_cost_of two_lots)%Q /\
    (RealizedGain.realized_gain g
     == 200 * 45 - PositionCalculator.remaining_cost_of two_lots)%Q /\
    (open_total updated == 0)%Q.
Proof.
  apply (liquidation_any_method LIFO (trade "s1" SELL 345600 200 45) two_lots);
    vm_compute; [reflexivity | discriminate].
Defined.

(** ** The order in which a sale meets the lots *)

Section SortedHead.
Context {A : Type} (key : A -> Z).

(** The head of the ascending sort is a least element, the head of the
    descending sort a greatest one. *)
Lemma sorted_head_least l :
  match sorted key l with
  | [] => l = []
  | h :: _ => Forall (fun y => (key h <= key y)%Z) l
  end.
Proof.
  induction l as [|x l IH]; [reflexivity|].
  change (sorted key (x :: l)) with (insert_asc key x (sorted key l)).
  destruct (sorted key l) as [|h s].
  - subst l. cbn. constructor; [lia | constructor].
  - cbn [insert_asc]. destruct (key x <=? key h)%Z eqn:E.
    + apply Z.leb_le in E. constructor; [lia|].
      eapply Forall_impl; [exact IH|]. cbn. intros; lia.
    + apply Z.leb_gt in E. constructor; [lia | exact IH].
Qed.

Lemma sorted_reverse_head_greatest l :
  match sorted_reverse key l with
  | [] => l = []
  | h :: _ => Forall (fun y => (key y <= key h)%Z) l
  end.
Proof.
  induction l as [|x l IH]; [reflexivity|].
  change (sorted_reverse key (x :: l))
    with (insert_desc key x (sorted_reverse key l)).
  destruct (sorted_reverse key l) as [|h s].
  - subst l. cbn. constructor; [lia | constructor].
  - cbn [insert_desc]. destruct (key h <=? key x)%Z eqn:E.
    + apply Z.leb_le in E. constructor; [lia|].
      eapply Forall_impl; [exact IH|]. cbn. intros; lia.
    + apply Z.leb_gt in E. constructor; [lia | exact IH].
Qed.

End SortedHead.

(** A sale that fits in the first lot of the method's order is taken from
    that lot alone and leaves the others as they were; under FIFO that lot
    is one of the earliest acquired, under LIFO one of the latest. *)
Theorem sale_taken_from_first_lot (method : TaxLotMethod) (t : Transaction.t)
    (lots rest : list TaxLot.t) (lot : TaxLot.t) :
  TaxLotManager.sort_lots method lots = lot :: rest ->
  (0 < Transaction.quantity t)%Q ->
  (Transaction.quantity t <= TaxLot.remaining_quantity lot)%Q ->
  (exists lot' g,
     TaxLotManager._process_sale method t lots = Ok (lot' :: rest, [g]) /\
     TaxLot.transaction_id lot' = TaxLot.transaction_id lot /\
     TaxLot.remaining_quantity lot'
     = (TaxLot.remaining_quantity lot - Transaction.quantity t)%Q /\
     RealizedGain.acquisition_lots g
     = [(TaxLot.transaction_id lot, Transaction.quantity t,
         (Transaction.quantity t * TaxLot.cost_per_share lot)%Q)]) /\
  (method = FIFO ->
   Forall (fun l => (TaxLot.acquisition_date lot
                     <= TaxLot.acquisition_date l)%Z) lots) /\
  (method = LIFO ->
   Forall (fun l => (TaxLot.acquisition_date l
                     <= TaxLot.acquisition_date lot)%Z) lots).
Proof.
  intros Hsort Hq Hfit. split; [|split].
  - destruct (process_sale_ok method t lots) as (g & Hsale & _ & _ & _ & Hacq);
      [lra|].
    unfold TaxLotManager.sale_loop in Hsale, Hacq.
    rewrite Hsort in Hsale, Hacq. cbn [fold_left] in Hsale, Hacq.
    set (st0 := TaxLotManager.mk_sale_state (Transaction.quantity t) [] [] 0)
      in *.
    assert (E1 : dec_le (TaxLotManager.remaining_to_sell st0) 0 = false)
      by (apply dec_le_false; cbn; lra).
    assert (E2 : dec_le (TaxLot.remaining_quantity lot) 0 = false)
      by (apply dec_le_false; lra).
    destruct (sale_step_take st0 lot E1 E2)
      as (lot' & Hs & Hr & _ & _ & Hid & _).
    assert (Hm : dec_min (Transaction.quantity t)
                         (TaxLot.remaining_quantity lot)
                 = Transaction.quantity t).
    { destruct (dec_min_cases (Transaction.quantity t)
                  (TaxLot.remaining_quantity lot)) as [[H _]|[_ H]];
        [exact H | exfalso; lra]. }
    cbn [st0 TaxLotManager.remaining_to_sell TaxLotManager.updated_lots
         TaxLotManager.acquisition_lots TaxLotManager.total_cost_basis]
      in Hs, Hr.
    rewrite Hm in Hs, Hr. rewrite Hs in Hsale, Hacq.
    rewrite sale_fold_nothing in Hsale, Hacq
      by (cbn; apply dec_le_spec; lra).
    cbn in Hsale, Hacq.
    exists lot', g. repeat split; assumption.
  - intros ->. cbn in Hsort.
    pose proof (sorted_head_least TaxLot.acquisition_date lots) as H.
    now rewrite Hsort in H.
  - intros ->. cbn in Hsort.
    pose proof (sorted_reverse_head_greatest TaxLot.acquisition_date lots) as H.
    now rewrite Hsort in H.
Qed.

Lemma sale_taken_from_first_lot_sample :
  (exists lot' g,
     TaxLotManager._process_sale LIFO (trade "s1" SELL 345600 60 45) two_lots
     = Ok (lot' :: [TaxLot.mk "" "b1" 100 100 30 86400 false], [g]) /\
     TaxLot.transaction_id lot' = "b2" /\
     TaxLot.remaining_quantity lot' = (100 - 60)%Q /\
     RealizedGain.acquisition_lots g = [("b2", 60%Q, (60 * 40)%Q)]) /\
  (LIFO = FIFO ->
   Forall (fun l => (172800 <= TaxLot.acquisition_date l)%Z) two_lots) /\
  (LIFO = LIFO ->
   Forall (fun l => (TaxLot.acquisition_date l <= 172800)%Z) two_lots).
Proof.
  apply (sale_taken_from_first_lot LIFO (trade "s1" SELL 345600 60 45) two_lots
           [TaxLot.mk "" "b1" 100 100 30 86400 false]
           (TaxLot.mk "" "b2" 100 100 40 172800 false)).
  - reflexivity.
  - reflexivity.
  - vm_compute. discriminate.
Defined.

(** ** Unrealized gains *)

Lemma unrealized_fold price date l : forall st,
  (UnrealizedGains.total_unrealized (fold_left (unrealized_step price date) l st)
   == UnrealizedGains.total_unrealized st
      + (price * open_total l - PositionCalculator.remaining_cost_of l))%Q /\
  (UnrealizedGains.short_term_unrealized
     (fold_left (unrealized_step price date) l st)
   + UnrealizedGains.long_term_unrealized
       (fold_left (unrealized_step price date) l st)
   == UnrealizedGains.short_term_unrealized st
      + UnrealizedGains.long_term_unrealized st
      + (price * open_total l - PositionCalculator.remaining_cost_of l))%Q.
Proof.
  induction l as [|lot l IH]; intros st.
  - cbn. split; ring.
  - cbn [fold_left open_total PositionCalculator.remaining_cost_of].
    fold (is_open lot). rewrite is_open_le.
    destruct (IH (unrealized_step price date st lot)) as [Ht Hs].
    rewrite Ht, Hs. clear IH Ht Hs. unfold unrealized_step.
    destruct (dec_le (TaxLot.remaining_quantity lot) 0); cbn [negb].
    + split; ring.
    + destruct (365 <=? _)%Z; cbn; split; ring.
Qed.

(** The unrealized gain is split without remainder between short and long
    term, and it is the value of the open quantity at the current price
    less the cost of the open lots. *)
Theorem unrealized_gains_total (tax_lots : list TaxLot.t)
    (current_price : Decimal) (valuation_date : datetime) :
  let gains := calculate_unrealized_gains tax_lots current_price valuation_date in
  (UnrealizedGains.total_unrealized gains
   == UnrealizedGains.short_term_unrealized gains
      + UnrealizedGains.long_term_unrealized gains)%Q /\
  (UnrealizedGains.total_unrealized gains
   == current_price * open_total tax_lots
      - PositionCalculator.remaining_cost_of tax_lots)%Q.
Proof.
  cbn zeta. unfold calculate_unrealized_gains.
  destruct (unrealized_fold current_price valuation_date tax_lots
              (UnrealizedGains.mk 0 0 0)) as [Ht Hs].
  cbn in Ht, Hs. rewrite Ht, Hs. split; ring.
Qed.

(** ** The portfolio summary *)

Lemma summary_fold_filter l : forall st,
  fold_left summary_step l st
  = fold_left summary_step
      (List.filter (fun p => dec_gt (PositionSnapshot.quantity p) 0) l) st.
Proof.
  induction l as [|p l IH]; intros st; [reflexivity|].
  cbn [fold_left List.filter].
  destruct (dec_gt (PositionSnapshot.quantity p) 0) eqn:E.
  - cbn [fold_left]. apply IH.
  - rewrite <- IH. f_equal. unfold summary_step.
    destruct st as [[a b] c]. now rewrite E.
Qed.

(** Positions that are not long (quantity zero or negative) are counted in
    [total_positions] but add nothing to any total of the summary. *)
Theorem portfolio_summary_counts_closed (positions : list PositionSnapshot.t)
    (base_currency : Currency) :
  let held :=
    List.filter (fun p => dec_gt (PositionSnapshot.quantity p) 0) positions in
  let s := calculate_portfolio_summary positions base_currency in
  let s' := calculate_portfolio_summary held base_currency in
  PortfolioSummary.total_positions s = length positions /\
  PortfolioSummary.total_invested s = PortfolioSummary.total_invested s' /\
  PortfolioSummary.current_value s = PortfolioSummary.current_value s' /\
  PortfolioSummary.total_unrealized_pnl s
  = PortfolioSummary.total_unrealized_pnl s' /\
  PortfolioSummary.total_return_percentage s
  = PortfolioSummary.total_return_percentage s'.
Proof.
  cbn zeta. unfold calculate_portfolio_summary.
  rewrite (summary_fold_filter positions).
  destruct (fold_left summary_step _ _) as [[a b] c]. cbn. auto.
Qed.

(** ** The position does not read the amounts *)

Section SortedRelated.
Context {A : Type} (key : A -> Z) (R : A -> A -> Prop).
Hypothesis R_key : forall x y, R x y -> key x = key y.

Lemma insert_asc_related x y l l' :
  R x y -> Forall2 R l l' ->
  Forall2 R (insert_asc key x l) (insert_asc key y l').
Proof.
  intros Hxy H. induction H as [|a b l l' Hab H IH]; cbn [insert_asc].
  - repeat constructor. exact Hxy.
  - rewrite (R_key _ _ Hxy), (R_key _ _ Hab).
    destruct (key y <=? key b)%Z; repeat constructor; assumption.
Qed.

Lemma sorted_related l l' :
  Forall2 R l l' -> Forall2 R (sorted key l) (sorted key l').
Proof.
  induction 1 as [|a b l l' Hab H IH]; [constructor|].
  change (sorted key (a :: l)) with (insert_asc key a (sorted key l)).
  change (sorted key (b :: l')) with (insert_asc key b (sorted key l')).
  now apply insert_asc_related.
Qed.

End SortedRelated.

Lemma same_trade_process method t t' lots :
  same_trade t t' ->
  TaxLotManager.process_transaction method t lots
  = TaxLotManager.process_transaction method t' lots.
Proof.
  destruct t, t'. unfold same_trade. cbn.
  intros (-> & -> & -> & -> & -> & -> & -> & ->). reflexivity.
Qed.

(** The replay of two histories that differ in their amounts only: the
    running cost may differ, nothing else. *)
Lemma same_trade_replay l l' :
  Forall2 same_trade l l' ->
  forall st st',
    PositionCalculator.total_quantity st = PositionCalculator.total_quantity st' ->
    PositionCalculator.tax_lots st = PositionCalculator.tax_lots st' ->
    PositionCalculator.realized_gains st = PositionCalculator.realized_gains st' ->
    match PositionCalculator.replay_from st l,
          PositionCalculator.replay_from st' l' with
    | Ok r, Ok r' =>
        PositionCalculator.total_quantity r = PositionCalculator.total_quantity r' /\
        PositionCalculator.tax_lots r = PositionCalculator.tax_lots r' /\
        PositionCalculator.realized_gains r = PositionCalculator.realized_gains r'
    | Raise e, Raise e' => e = e'
    | _, _ => False
    end.
Proof.
  induction 1 as [|t t' l l' Ht H IH]; intros st st' Hq Hl Hg.
  - cbn. auto.
  - cbn [PositionCalculator.replay_from].
    unfold PositionCalculator.replay_step.
    pose proof Ht as (_ & _ & _ & Hty & _ & Hqty & _).
    rewrite <- Hty, <- Hqty, <- Hl, <- Hq, <- Hg,
      <- (same_trade_process FIFO t t' _ Ht).
    destruct (Transaction.transaction_type t).
    + destruct (TaxLotManager.process_transaction FIFO t _) as [r|e];
        cbn [mbind res_bind]; [|reflexivity].
      apply IH; reflexivity.
    + destruct (TaxLotManager.process_transaction FIFO t _) as [r|e];
        cbn [mbind res_bind]; [|reflexivity].
      apply IH; reflexivity.
    + cbn [mbind res_bind]. apply IH; assumption.
    + cbn [mbind res_bind]. apply IH; assumption.
    + cbn [mbind res_bind]. apply IH; assumption.
    + cbn [mbind res_bind]. apply IH; assumption.
    + cbn [mbind res_bind]. apply IH; assumption.
Qed.

(** The position of a history does not depend on the gross and net amounts
    of its transactions: brokerage, taxes and charges never enter the cost
    basis, which is quantity times price. *)
Theorem position_ignores_amounts (now : datetime)
    (transactions transactions' : list Transaction.t)
    (current_price : option Decimal) (valuation_date : option datetime) :
  Forall2 same_trade transactions transactions' ->
  PositionCalculator.calculate_position now transactions current_price
    valuation_date
  = PositionCalculator.calculate_position now transactions' current_price
      valuation_date.
Proof.
  intros H. unfold PositionCalculator.calculate_position.
  destruct H as [|t t' l l' Ht H]; [reflexivity|].
  rewrite !bool_decide_eq_false_2 by discriminate.
  assert (Hs : Forall2 same_trade
                 (sorted Transaction.transaction_date (t :: l))
                 (sorted Transaction.transaction_date (t' :: l'))).
  { apply sorted_related; [|constructor; assumption].
    intros x y Hxy. apply Hxy. }
  pose proof (same_trade_replay _ _ Hs PositionCalculator.replay_init
                PositionCalculator.replay_init eq_refl eq_refl eq_refl) as Hr.
  destruct Hs as [|f f' s s' Hf Hs]; [reflexivity|].
  destruct (PositionCalculator.replay_from _ (f :: s)) as [r|e],
           (PositionCalculator.replay_from _ (f' :: s')) as [r'|e'];
    try contradiction; cbn [mbind res_bind].
  - destruct Hr as (-> & -> & _).
    destruct Hf as (_ & -> & -> & _ & _ & _ & _ & ->). reflexivity.
  - now subst.
Qed.

Lemma position_ignores_amounts_sample :
  PositionCalculator.calculate_position 0
    [Transaction.mk "b1" "i1" None BUY 86400 100 30 3000 (Some 3050%Q) INR]
    (Some 35%Q) (Some 172800%Z)
  = PositionCalculator.calculate_position 0
      [Transaction.mk "b1" "i1" None BUY 86400 100 30 0 None INR]
      (Some 35%Q) (Some 172800%Z).
Proof.
  apply (position_ignores_amounts 0
           [Transaction.mk "b1" "i1" None BUY 86400 100 30 3000 (Some 3050%Q) INR]
           [Transaction.mk "b1" "i1" None BUY 86400 100 30 0 None INR]).
  repeat constructor.
Defined.

(** ** The positions of a portfolio *)

Lemma filter_app_one {A} (f : A -> bool) l x :
  List.filter f (l ++ [x])
  = List.filter f l ++ (if f x then [x] else []).
Proof. rewrite List.filter_app. reflexivity. Qed.

Lemma filter_none {A} (f : A -> bool) l :
  Forall (fun x => f x = false) l -> List.filter f l = [].
Proof.
  induction 1 as [|x l Hx H IH]; cbn; [reflexivity|]. now rewrite Hx.
Qed.

(** The keys after one more transaction is filed. *)
Lemma group_add_keys txn groups :
  (In (Transaction.instrument_id txn) (map fst groups) /\
   map fst (group_add txn groups) = map fst groups) \/
  (~ In (Transaction.instrument_id txn) (map fst groups) /\
   map fst (group_add txn groups)
   = map fst groups ++ [Transaction.instrument_id txn]).
Proof.
  induction groups as [|[k l] groups IH]; cbn.
  - right. split; [tauto | reflexivity].
  - destruct (String.eqb_spec k (Transaction.instrument_id txn)) as [->|n].
    + left. split; [now left | reflexivity].
    + destruct IH as [[Hi He]|[Hi He]]; cbn; rewrite He.
      * left. split; [now right | reflexivity].
      * right. split; [intros [?|?]; tauto | reflexivity].
Qed.

(** The groups themselves after one more transaction is filed. *)
Lemma group_add_groups txn pre groups :
  List.NoDup (map fst groups) ->
  (~ In (Transaction.instrument_id txn) (map fst groups) ->
   List.filter (of_instrument (Transaction.instrument_id txn)) pre = []) ->
  Forall (fun g => snd g <> [] /\
                   snd g = List.filter (of_instrument (fst g)) pre) groups ->
  Forall (fun g => snd g <> [] /\
                   snd g = List.filter (of_instrument (fst g)) (pre ++ [txn]))
         (group_add txn groups).
Proof.
  induction groups as [|[k l] groups IH]; intros Hnd Hfresh Hg;
    cbn [group_add].
  - constructor; [|constructor]. cbn. split; [discriminate|].
    rewrite filter_app_one, Hfresh by (cbn; tauto).
    unfold of_instrument. now rewrite String.eqb_refl.
  - pose proof (List.Forall_inv Hg) as (Hne & Hl).
    pose proof (List.Forall_inv_tail Hg) as Hg'. cbn in Hne, Hl.
    cbn [map fst] in Hnd. apply List.NoDup_cons_iff in Hnd as [Hk Hnd'].
    destruct (String.eqb_spec k (Transaction.instrument_id txn)) as [e|n].
    + constructor.
      * cbn. split; [now destruct l|].
        rewrite filter_app_one. unfold of_instrument at 2.
        rewrite e, String.eqb_refl, <- e. now rewrite <- Hl.
      * apply List.Forall_forall. intros [k' l'] Hin'.
        pose proof (proj1 (List.Forall_forall _ _) Hg' _ Hin') as (Hne' & Hl').
        cbn in *. split; [exact Hne'|]. rewrite filter_app_one.
        unfold of_instrument at 2.
        destruct (String.eqb_spec k' (Transaction.instrument_id txn))
          as [e'|]; [|now rewrite app_nil_r].
        exfalso. apply Hk. rewrite e, <- e'.
        apply in_map_iff. exists (k', l'). split; [reflexivity | exact Hin'].
    + constructor.
      * cbn. split; [exact Hne|]. rewrite filter_app_one.
        unfold of_instrument at 2.
        destruct (String.eqb_spec k (Transaction.instrument_id txn));
          [contradiction | now rewrite app_nil_r].
      * apply IH; [exact Hnd' | | exact Hg'].
        intros Hn. apply Hfresh. cbn. intros [?|?]; [contradiction|tauto].
Qed.

Lemma group_add_spec txn groups pre :
  groups_of pre groups -> groups_of (pre ++ [txn]) (group_add txn groups).
Proof.
  intros (Hnd & Hg & Hin).
  pose proof (group_add_keys txn groups) as Hkeys.
  split; [|split].
  - destruct Hkeys as [[_ ->]|[Hn ->]]; [exact Hnd|].
    apply List.NoDup_app; [exact Hnd | repeat constructor; cbn; tauto |].
    intros x Hx [<-|[]]. exact (Hn Hx).
  - apply group_add_groups; [exact Hnd | | exact Hg].
    intros Hn. apply filter_none.
    eapply Forall_impl; [exact Hin|]. cbn. intros t Ht.
    unfold of_instrument.
    destruct (String.eqb_spec (Transaction.instrument_id txn)
                (Transaction.instrument_id t)) as [e|]; [|reflexivity].
    exfalso. apply Hn. now rewrite e.
  - apply Forall_app. split.
    + eapply Forall_impl; [exact Hin|]. cbn. intros t Ht.
      destruct Hkeys as [[_ ->]|[_ ->]]; [exact Ht|].
      apply in_or_app. now left.
    + constructor; [|constructor].
      destruct Hkeys as [[Hi ->]|[_ ->]]; [exact Hi|].
      apply in_or_app. right. now left.
Qed.

Lemma group_fold_spec l : forall pre groups,
  groups_of pre groups ->
  groups_of (pre ++ l)
    (fold_left (fun groups txn => group_add txn groups) l groups).
Proof.
  induction l as [|t l IH]; intros pre groups H; cbn [fold_left].
  - now rewrite app_nil_r.
  - replace (pre ++ t :: l) with ((pre ++ [t]) ++ l)
      by (now rewrite <- app_assoc).
    apply IH. now apply group_add_spec.
Qed.

(** Grouping: one group for each instrument of the transactions, holding
    the instrument's transactions in their order. *)
Lemma group_by_instrument_spec transactions :
  groups_of transactions (group_by_instrument transactions).
Proof.
  apply (group_fold_spec transactions [] []).
  split; [constructor | split; constructor].
Qed.

Lemma calculate_position_instrument now l current_price valuation_date p :
  PositionCalculator.calculate_position now l current_price valuation_date
  = Ok p ->
  exists t, In t l /\
    PositionSnapshot.instrument_id p = Transaction.instrument_id t.
Proof.
  unfold PositionCalculator.calculate_position.
  destruct (bool_decide (l = [])); [discriminate|].
  pose proof (sorted_perm Transaction.transaction_date l) as Hp.
  destruct (sorted Transaction.transaction_date l) as [|first s];
    [discriminate|].
  destruct (PositionCalculator.replay_from _ _) as [st|e];
    cbn [mbind res_bind]; [|discriminate].
  intros [= <-]. exists first. split; [|reflexivity].
  eapply Permutation_in; [symmetry; exact Hp | now left].
Qed.

Section PortfolioPositions.
Variable _get_current_price : string -> datetime -> option Decimal.

(** What a group contributes: nothing, or the one position of its
    transactions. *)
Lemma position_of_group_spec now valuation_date g p :
  snd g <> [] ->
  Forall (fun t => Transaction.instrument_id t = fst g) (snd g) ->
  In p (position_of_group _get_current_price now valuation_date g) ->
  position_of_group _get_current_price now valuation_date g = [p] /\
  (0 < PositionSnapshot.quantity p)%Q /\
  PositionSnapshot.instrument_id p = fst g /\
  PositionCalculator.calculate_position now (snd g)
    (_get_current_price (fst g) valuation_date) (Some valuation_date) = Ok p.
Proof.
  intros Hne Hall. unfold position_of_group.
  destruct (PositionCalculator.calculate_position _ _ _ _) as [q|e] eqn:E;
    [|intros []].
  destruct (dec_gt (PositionSnapshot.quantity q) 0) eqn:Eq; [|intros []].
  intros [<-|[]]. split; [reflexivity|]. split; [dec_prop; exact Eq|].
  split; [|reflexivity].
  destruct (calculate_position_instrument _ _ _ _ _ E) as (t & Ht & ->).
  exact (proj1 (List.Forall_forall _ _) Hall _ Ht).
Qed.

Lemma filter_of_instrument_all k l :
  Forall (fun t => Transaction.instrument_id t = k)
         (List.filter (of_instrument k) l).
Proof.
  apply List.Forall_forall. intros t Ht. apply filter_In in Ht as [_ Ht].
  unfold of_instrument in Ht. now apply String.eqb_eq in Ht.
Qed.

(** The positions, group by group. *)
Lemma positions_of_groups now valuation_date transactions groups :
  List.NoDup (map fst groups) ->
  Forall (fun g => snd g <> [] /\
            snd g = List.filter (of_instrument (fst g)) transactions) groups ->
  (forall p,
     In p (concat (map (position_of_group _get_current_price now
                          valuation_date) groups)) ->
     (0 < PositionSnapshot.quantity p)%Q /\
     In (PositionSnapshot.instrument_id p) (map fst groups) /\
     PositionCalculator.calculate_position now
       (List.filter (of_instrument (PositionSnapshot.instrument_id p))
                    transactions)
       (_get_current_price (PositionSnapshot.instrument_id p) valuation_date)
       (Some valuation_date) = Ok p) /\
  List.NoDup
    (map PositionSnapshot.instrument_id
       (concat (map (position_of_group _get_current_price now valuation_date)
                    groups))).
Proof.
  induction groups as [|g groups IH]; intros Hnd Hg.
  - cbn. split; [intros p [] | constructor].
  - cbn [map fst] in Hnd. apply List.NoDup_cons_iff in Hnd as [Hk Hnd'].
    pose proof (List.Forall_inv Hg) as (Hne & Hl).
    pose proof (List.Forall_inv_tail Hg) as Hg'.
    destruct (IH Hnd' Hg') as [IHp IHn]. clear IH.
    assert (Hall : Forall (fun t => Transaction.instrument_id t = fst g)
                          (snd g))
      by (rewrite Hl; apply filter_of_instrument_all).
    cbn [map concat]. split.
    + intros p Hp. apply in_app_or in Hp as [Hp|Hp].
      * destruct (position_of_group_spec _ _ _ _ Hne Hall Hp)
          as (_ & Hq & Hid & Hc).
        split; [exact Hq|]. split; [left; now rewrite Hid|].
        now rewrite Hid, <- Hl.
      * destruct (IHp p Hp) as (Hq & Hin & Hc).
        split; [exact Hq|]. split; [now right | exact Hc].
    + rewrite map_app. apply List.NoDup_app; [| exact IHn |].
      * destruct (position_of_group _get_current_price now valuation_date g)
          as [|p [|p' r]] eqn:E.
        -- constructor.
        -- repeat constructor. intros [].
        -- exfalso.
           assert (Hp : In p (position_of_group _get_current_price now
                                valuation_date g)) by (rewrite E; now left).
           destruct (position_of_group_spec _ _ _ _ Hne Hall Hp) as (H1 & _).
           rewrite E in H1. discriminate.
      * intros k Hk1 Hk2. apply in_map_iff in Hk1 as (p & <- & Hp).
        apply in_map_iff in Hk2 as (p2 & Heq & Hp2).
        destruct (position_of_group_spec _ _ _ _ Hne Hall Hp)
          as (_ & _ & Hid & _).
        destruct (IHp p2 Hp2) as (_ & Hin & _).
        apply Hk. now rewrite <- Hid, <- Heq.
Qed.

(** The positions of a portfolio: each has a positive quantity and is the
    position [calculate_position] gives for the transactions of its
    instrument, priced at the valuation date; no instrument has two. *)
Theorem portfolio_positions_per_instrument (now : datetime)
    (transactions : list Transaction.t) (valuation_date : option datetime) :
  (forall p,
     In p (calculate_portfolio_positions _get_current_price now transactions
             valuation_date) ->
     (0 < PositionSnapshot.quantity p)%Q /\
     PositionCalculator.calculate_position now
       (List.filter (of_instrument (PositionSnapshot.instrument_id p))
                    transactions)
       (_get_current_price (PositionSnapshot.instrument_id p)
          (default now valuation_date))
       (Some (default now valuation_date)) = Ok p) /\
  List.NoDup
    (map PositionSnapshot.instrument_id
       (calculate_portfolio_positions _get_current_price now transactions
          valuation_date)).
Proof.
  unfold calculate_portfolio_positions.
  destruct transactions as [|t l]; [split; [intros p [] | constructor]|].
  destruct (group_by_instrument_spec (t :: l)) as (Hnd & Hg & _).
  destruct (positions_of_groups now (default now valuation_date) (t :: l)
              _ Hnd Hg) as [Hp Hn].
  split; [|exact Hn]. intros p Hin. destruct (Hp p Hin) as (Hq & _ & Hc).
  split; assumption.
Qed.

(** A sale of quantity zero anywhere in a history makes the replay raise. *)
Lemma replay_raises_on_zero_sale l : forall st t,
  In t l -> Transaction.transaction_type t = SELL ->
  (Transaction.quantity t == 0)%Q ->
  exists e, PositionCalculator.replay_from st l = Raise e.
Proof.
  induction l as [|x l IH]; intros st t [].
  - subst x. intros Hty Hq. cbn [PositionCalculator.replay_from].
    unfold PositionCalculator.replay_step, TaxLotManager.process_transaction.
    rewrite Hty, (process_sale_zero_quantity FIFO t _ Hq). cbn. eauto.
  - intros Hty Hq. cbn [PositionCalculator.replay_from].
    destruct (PositionCalculator.replay_step st x) as [st'|e];
      cbn [mbind res_bind]; [|eauto].
    eapply IH; eauto.
Qed.

(** An instrument whose history holds a sale of quantity zero has no
    position among those returned: its calculation raises, and the service
    logs the error and goes on. *)
Theorem portfolio_positions_drop_zero_sale (now : datetime)
    (transactions : list Transaction.t) (valuation_date : option datetime)
    (t : Transaction.t) :
  In t transactions -> Transaction.transaction_type t = SELL ->
  (Transaction.quantity t == 0)%Q ->
  Forall (fun p => PositionSnapshot.instrument_id p
                   <> Transaction.instrument_id t)
    (calculate_portfolio_positions _get_current_price now transactions
       valuation_date).
Proof.
  intros Hin Hty Hq. apply List.Forall_forall. intros p Hp Hid.
  unfold calculate_portfolio_positions in Hp.
  destruct transactions as [|t0 l]; [destruct Hp|].
  destruct (group_by_instrument_spec (t0 :: l)) as (Hnd & Hg & _).
  destruct (positions_of_groups now (default now valuation_date) (t0 :: l)
              _ Hnd Hg) as [Hspec _].
  destruct (Hspec p Hp) as (_ & _ & Hc).
  unfold PositionCalculator.calculate_position in Hc.
  destruct (bool_decide _); [discriminate|].
  destruct (sorted Transaction.transaction_date _) as [|first s] eqn:Es;
    [discriminate|].
  destruct (replay_raises_on_zero_sale (first :: s)
              PositionCalculator.replay_init t) as (e & He); auto.
  { rewrite <- Es. eapply Permutation_in; [apply sorted_perm|].
    apply filter_In. split; [exact Hin|].
    unfold of_instrument. rewrite Hid. apply String.eqb_refl. }
  rewrite He in Hc. discriminate.
Qed.

End PortfolioPositions.

Lemma portfolio_positions_drop_zero_sale_sample :
  Forall (fun p => PositionSnapshot.instrument_id p <> "i1")
    (calculate_portfolio_positions (fun _ _ => None) 0
       [ Transaction.mk "b1" "i1" None BUY 86400 100 30 3000 None INR;
         Transaction.mk "b2" "i2" None BUY 86400 10 5 50 None INR;
         Transaction.mk "s1" "i1" None SELL 172800 0 45 0 None INR ]
       None).
Proof.
  apply (portfolio_positions_drop_zero_sale (fun _ _ => None) 0
           [ Transaction.mk "b1" "i1" None BUY 86400 100 30 3000 None INR;
             Transaction.mk "b2" "i2" None BUY 86400 10 5 50 None INR;
             Transaction.mk "s1" "i1" None SELL 172800 0 45 0 None INR ]
           None
           (Transaction.mk "s1" "i1" None SELL 172800 0 45 0 None INR)).
  - right. right. now left.
  - reflexivity.
  - reflexivity.
Defined.


(** * Login *)

Section LoginFacts.
Variable sha256_hexdigest : string -> string.
Variable jwt_encode : string -> datetime -> string.
Variable utcnow : datetime.
Variable ACCESS_TOKEN_EXPIRE_MINUTES : Z.

Lemma select_after_register new_id now user_data db :
  select_user_by_email (UserRegister.email user_data) db = [] ->
  select_user_by_email (UserRegister.email user_data)
    (snd (register sha256_hexdigest new_id now user_data db))
  = [User.mk new_id (UserRegister.email user_data)
       (sha256_hexdigest (UserRegister.password user_data))
       (UserRegister.full_name user_data) true false now].
Proof.
  intros Hnone. unfold register, register_body. rewrite Hnone. cbn.
  unfold select_user_by_email in *. cbn [users pending].
  rewrite app_nil_r, app_assoc, List.filter_app, Hnone. cbn.
  now rewrite String.eqb_refl.
Qed.

(** Registering a new email and logging in with the same email and
    password gives a bearer token for that email, expiring after the
    configured minutes. *)
Theorem register_then_login (new_id : string) (now : datetime)
    (user_data : UserRegister.t) (db : session) :
  select_user_by_email (UserRegister.email user_data) db = [] ->
  login sha256_hexdigest jwt_encode utcnow ACCESS_TOKEN_EXPIRE_MINUTES
    (UserLogin.mk (UserRegister.email user_data)
                  (UserRegister.password user_data))
    (snd (register sha256_hexdigest new_id now user_data db))
  = Ok (Token.mk
          (create_access_token jwt_encode utcnow
             (UserRegister.email user_data)
             (Some (ACCESS_TOKEN_EXPIRE_MINUTES * 60)%Z))
          "bearer").
Proof.
  intros Hnone. unfold login, login_body. cbn [UserLogin.email UserLogin.password].
  rewrite (select_after_register _ _ _ _ Hnone). cbn.
  unfold verify_password. now rewrite String.eqb_refl.
Qed.

(** Login answers 401 "Incorrect email or password" exactly when no user
    has the email or the one user who has it has another password hash:
    the answer does not tell the two apart, and a wrong password for an
    inactive user is answered the same way. *)
Theorem login_401_iff (user_credentials : UserLogin.t) (db : session) :
  login sha256_hexdigest jwt_encode utcnow ACCESS_TOKEN_EXPIRE_MINUTES
    user_credentials db
  = Raise (HTTPException 401 "Incorrect email or password")
  <->
  (select_user_by_email (UserLogin.email user_credentials) db = [] \/
   exists user,
     select_user_by_email (UserLogin.email user_credentials) db = [user] /\
     sha256_hexdigest (UserLogin.password user_credentials)
     <> User.hashed_password user).
Proof.
  unfold login, login_body, verify_password.
  destruct (select_user_by_email _ db) as [|user [|user2 l]]; cbn.
  - split; [auto | reflexivity].
  - destruct (String.eqb_spec
                (sha256_hexdigest (UserLogin.password user_credentials))
                (User.hashed_password user)) as [e|n]; cbn.
    + destruct (User.is_active user); cbn;
        (split; [discriminate | intros [[=]|(u & [= <-] & H)]; contradiction]).
    + split; [|reflexivity]. intros _. right. eauto.
  - split; [discriminate | intros [[=]|(u & [=] & _)]].
Qed.

End LoginFacts.

Lemma register_then_login_sample :
  login (fun password => password) (fun sub exp => sub) 0 30
    (UserLogin.mk "bob@example.com" "secret")
    (snd (register (fun password => password) "u2" 1
            (UserRegister.mk "bob@example.com" "secret" "Bob")
            (mk_session [sample_user] [])))
  = Ok (Token.mk
          (create_access_token (fun sub exp => sub) 0 "bob@example.com"
             (Some (30 * 60)%Z))
          "bearer").
Proof.
  apply (register_then_login (fun password => password) (fun sub exp => sub)
           0 30 "u2" 1 (UserRegister.mk "bob@example.com" "secret" "Bob")
           (mk_session [sample_user] [])).
  reflexivity.
Defined.

(** * Corporate actions *)

(** Processing an action that is not pending raises ValueError and marks
    the action failed, whatever its status was -- a completed action that
    is processed again ends up failed.  Nothing else changes. *)
Theorem process_action_not_pending (models : string -> list string)
    (format_action_type : string -> string) (action_id : string) (db : ca_db) (action : gmap string val)
    (status : string) :
  actions db !! action_id = Some action ->
  action !! "status" = Some (VStr status) ->
  status <> "pending" ->
  process_action models format_action_type action_id db
  = (Raise (ValueError ("Corporate action " ++ action_id
                        ++ " is not in pending status")),
     mk_ca_db (<[action_id := <["status" := VStr "failed"]> action]> (actions db))
              (rows db) (added db)).
Proof.
  intros Ha Hs Hne. unfold process_action, getattr. rewrite Ha, Hs.
  cbn [mbind res_bind as_str].
  destruct (String.eqb_spec status "pending") as [|_]; [contradiction|].
  reflexivity.
Qed.

Lemma process_action_not_pending_sample :
  process_action app_db_models (fun s => s) "ca2" sample_ca_db
  = (Raise (ValueError ("Corporate action " ++ "ca2"
                        ++ " is not in pending status")),
     mk_ca_db (<["ca2" := <["status" := VStr "failed"]> completed_dividend]>
                 (actions sample_ca_db))
              (rows sample_ca_db) (added sample_ca_db)).
Proof.
  apply (process_action_not_pending app_db_models (fun s => s) "ca2" sample_ca_db
           completed_dividend "completed").
  - vm_compute. reflexivity.
  - vm_compute. reflexivity.
  - discriminate.
Defined.

(** A loop whose body leaves every row as it is leaves the table as it
    is. *)
Lemma for_selected_unchanged sel body table :
  Forall (fun obj => snd (body obj) = obj) table ->
  snd (CorporateActionProcessor.for_selected sel body table) = table.
Proof.
  induction 1 as [|obj table Hobj H IH]; cbn; [reflexivity|].
  destruct (sel obj).
  - destruct (body obj) as [[u|e] obj'] eqn:E; cbn in Hobj; subst obj'.
    + destruct (CorporateActionProcessor.for_selected sel body table).
      cbn in *. now rewrite IH.
    + reflexivity.
  - destruct (CorporateActionProcessor.for_selected sel body table).
    cbn in *. now rewrite IH.
Qed.

Lemma split_position_without_price ratio position :
  position !! "average_price" = None ->
  snd (CorporateActionProcessor.split_position ratio position) = position.
Proof.
  intros H. unfold CorporateActionProcessor.split_position, getattr.
  rewrite H. destruct (position !! "quantity") as [v|]; [|reflexivity].
  cbn [mbind res_bind]. destruct (as_dec v); reflexivity.
Qed.

Lemma bonus_position_without_price ratio position :
  position !! "average_price" = None ->
  snd (bonus_position ratio position) = position.
Proof.
  intros H. unfold bonus_position, getattr.
  rewrite H. destruct (position !! "quantity") as [v|]; [|reflexivity].
  cbn [mbind res_bind]. destruct (as_dec v); reflexivity.
Qed.

Lemma class_attr_tax_lot_status :
  class_attr app_db_models "TaxLot" "status"
  = Raise (AttributeError "TaxLot" "status").
Proof. reflexivity. Qed.

(** On app/db/models.py the split changes no row. *)
Lemma stock_split_keeps_rows action db :
  Forall (fun p => p !! "average_price" = None)
         (CorporateActionProcessor.positions db) ->
  snd (CorporateActionProcessor._process_stock_split app_db_models action db)
  = db.
Proof.
  intros Hp. unfold CorporateActionProcessor._process_stock_split.
  match goal with
  | |- context [match ?m with Ok _ => _ | Raise _ => _ end] =>
      destruct m as [[split_ratio instrument_id]|e]
  end; [|reflexivity].
  pose proof (for_selected_unchanged
                (CorporateActionProcessor.position_selected instrument_id)
                (CorporateActionProcessor.split_position split_ratio)
                (CorporateActionProcessor.positions db)) as Hu.
  destruct (CorporateActionProcessor.for_selected _ _ _) as [[[]|e] positions'];
    cbn in Hu; rewrite Hu;
    try (eapply Forall_impl; [exact Hp|]; cbn; intros;
         now apply split_position_without_price).
  - change (class_attr app_db_models "Transaction" "instrument_id")
      with (Ok tt).
    rewrite class_attr_tax_lot_status. cbn. now destruct db.
  - cbn. now destruct db.
Qed.

Lemma bonus_issue_keeps_rows models action db :
  Forall (fun p => p !! "average_price" = None)
         (CorporateActionProcessor.positions db) ->
  snd (_process_bonus_issue models action db) = db.
Proof.
  intros Hp. unfold _process_bonus_issue.
  match goal with
  | |- context [match ?m with Ok _ => _ | Raise _ => _ end] =>
      destruct m as [[bonus_ratio instrument_id]|e]
  end; [|reflexivity].
  pose proof (for_selected_unchanged
                (CorporateActionProcessor.position_selected instrument_id)
                (bonus_position bonus_ratio)
                (CorporateActionProcessor.positions db)) as Hu.
  destruct (CorporateActionProcessor.for_selected _ _ _) as [r positions'].
  cbn in Hu |- *. rewrite Hu; [now destruct db|].
  eapply Forall_impl; [exact Hp|]. cbn. intros.
  now apply bonus_position_without_price.
Qed.

(** On app/db/models.py no dividend transaction can be built: Transaction
    has no [amount]. *)
Lemma dividend_transaction_raises action position :
  exists e, dividend_transaction app_db_models action position = Raise e.
Proof.
  unfold dividend_transaction.
  repeat match goal with
         | |- exists e, (?m ≫= _) = Raise e =>
             destruct m; cbn [mbind res_bind]; [|eauto]
         end.
  unfold construct. cbn. eauto.
Qed.

Lemma dividend_keeps_added action db added :
  snd (_process_dividend app_db_models action db added) = added.
Proof.
  unfold _process_dividend.
  match goal with
  | |- context [match ?m with Ok _ => _ | Raise _ => _ end] =>
      destruct m as [instrument_id|e]
  end; [|reflexivity].
  destruct (List.filter _ _) as [|position rest]; [reflexivity|].
  cbn [dividend_loop].
  destruct (dividend_transaction_raises action position) as (e & ->).
  reflexivity.
Qed.

(** On app/db/models.py, with positions that are rows of Position (no
    [average_price]), processing an action changes no position and no tax
    lot and adds no transaction, whatever the action: only statuses move. *)
Theorem process_action_changes_status_only
    (format_action_type : string -> string) (action_id : string)
    (db : ca_db) :
  Forall (fun p => p !! "average_price" = None)
         (CorporateActionProcessor.positions (rows db)) ->
  rows (snd (process_action app_db_models format_action_type action_id db)) = rows db /\
  added (snd (process_action app_db_models format_action_type action_id db)) = added db /\
  (forall other, other <> action_id ->
     actions (snd (process_action app_db_models format_action_type action_id db)) !! other
     = actions db !! other).
Proof.
  intros Hp. unfold process_action.
  destruct (actions db !! action_id) as [action|]; [|cbn; auto].
  match goal with
  | |- context [match ?m with Ok _ => _ | Raise _ => _ end] =>
      destruct m as [[]|e]
  end.
  2:{ cbn. split; [reflexivity|]. split; [reflexivity|].
      intros other Hne. now rewrite lookup_insert_ne. }
  match goal with
  | |- context [match ?m with Ok _ => _ | Raise _ => _ end] =>
      destruct m as [action_type|e]
  end.
  2:{ cbn. split; [reflexivity|]. split; [reflexivity|].
      intros other Hne. now rewrite !lookup_insert_ne. }
  assert (Hd : forall a d,
            rows d = rows db -> added d = added db ->
            rows (snd (dispatch app_db_models format_action_type action_type a d)) = rows db /\
            added (snd (dispatch app_db_models format_action_type action_type a d)) = added db /\
            actions (snd (dispatch app_db_models format_action_type action_type a d)) = actions d).
  { intros a d Hr Ha. unfold dispatch.
    destruct (String.eqb action_type "stock_split").
    { pose proof (stock_split_keeps_rows a (rows d)) as Hk.
      destruct (CorporateActionProcessor._process_stock_split _ _ _)
        as [r rows']. cbn in Hk |- *. rewrite Hk by (now rewrite Hr). auto. }
    destruct (String.eqb action_type "bonus").
    { pose proof (bonus_issue_keeps_rows app_db_models a (rows d)) as Hk.
      destruct (_process_bonus_issue _ _ _) as [r rows']. cbn in Hk |- *.
      rewrite Hk by (now rewrite Hr). auto. }
    destruct (String.eqb action_type "dividend").
    { pose proof (dividend_keeps_added a (rows d) (added d)) as Hk.
      destruct (_process_dividend _ _ _ _) as [r added']. cbn in Hk |- *.
      rewrite Hk. auto. }
    cbn. auto. }
  match goal with
  | |- context [dispatch app_db_models format_action_type action_type ?a ?d] =>
      destruct (Hd a d eq_refl eq_refl) as (Hr & Ha & Hact);
      destruct (dispatch app_db_models format_action_type action_type a d) as [[u|e] db2]
  end; cbn in Hr, Ha, Hact |- *.
  - split; [exact Hr|]. split; [exact Ha|].
    intros other Hne. rewrite lookup_insert_ne by congruence.
    rewrite Hact. now rewrite lookup_insert_ne by congruence.
  - split; [exact Hr|]. split; [exact Ha|].
    intros other Hne. rewrite lookup_insert_ne by congruence.
    rewrite Hact. now rewrite lookup_insert_ne by congruence.
Qed.

Lemma process_action_changes_status_only_sample :
  rows (snd (process_action app_db_models (fun s => s) "ca1" sample_ca_db))
  = rows sample_ca_db /\
  added (snd (process_action app_db_models (fun s => s) "ca1" sample_ca_db))
  = added sample_ca_db /\
  (forall other, other <> "ca1" ->
     actions (snd (process_action app_db_models (fun s => s) "ca1" sample_ca_db)) !! other
     = actions sample_ca_db !! other).
Proof.
  apply (process_action_changes_status_only (fun s => s) "ca1" sample_ca_db).
  repeat constructor.
Defined.

(** On app/db/models.py a pending stock split never completes: processing
    it raises, and the action ends with status failed. *)
Theorem pending_split_ends_failed (format_action_type : string -> string)
    (action_id : string) (db : ca_db) (action : gmap string val) :
  actions db !! action_id = Some action ->
  action !! "status" = Some (VStr "pending") ->
  action !! "action_type" = Some (VStr "stock_split") ->
  exists e db',
    process_action app_db_models format_action_type action_id db = (Raise e, db') /\
    exists action',
      actions db' !! action_id = Some action' /\
      action' !! "status" = Some (VStr "failed").
Proof.
  intros Ha Hs Ht. unfold process_action, getattr. rewrite Ha, Hs.
  cbn [mbind res_bind as_str String.eqb Ascii.eqb Bool.eqb negb].
  unfold setattr at 1. rewrite lookup_insert_ne by discriminate. rewrite Ht.
  cbn [mbind res_bind as_str]. unfold dispatch.
  cbn [String.eqb Ascii.eqb Bool.eqb].
  match goal with
  | |- context [CorporateActionProcessor._process_stock_split _ ?a ?d] =>
      destruct (stock_split_always_raises a d) as (e & He);
      destruct (CorporateActionProcessor._process_stock_split app_db_models a d)
        as [r rows'] eqn:E
  end.
  cbn in He. subst r. cbn.
  eexists _, _. split; [reflexivity|]. cbn.
  eexists. split; [apply lookup_insert_eq|]. apply lookup_insert_eq.
Qed.

Lemma pending_split_ends_failed_sample :
  exists e db',
    process_action app_db_models (fun s => s) "ca1" sample_ca_db = (Raise e, db') /\
    exists action',
      actions db' !! "ca1" = Some action' /\
      action' !! "status" = Some (VStr "failed").
Proof.
  apply (pending_split_ends_failed (fun s => s) "ca1" sample_ca_db
           split_1_for_2);
    vm_compute; reflexivity.
Defined.


(** * Matching and the cache of the canonicalizer *)

Lemma IdentifierType_eqb_spec a b :
  IdentifierType_eqb a b = true <-> a = b.
Proof. destruct a, b; cbn; split; congruence. Qed.

Lemma exchanges_conflict_spec q e :
  str_truthy (InstrumentIdentifier.exchange q)
  && str_truthy (InstrumentIdentifier.exchange e)
  && negb (String.eqb (default "" (InstrumentIdentifier.exchange q))
                      (default "" (InstrumentIdentifier.exchange e))) = true
  <-> exchanges_conflict q e.
Proof.
  unfold exchanges_conflict, str_truthy.
  destruct (InstrumentIdentifier.exchange q) as [a|],
           (InstrumentIdentifier.exchange e) as [b|]; cbn.
  - rewrite !andb_true_iff, !negb_true_iff, !String.eqb_neq. split.
    + intros [[H1 H2] H3]. exists a, b. auto.
    + intros (a' & b' & [= <-] & [= <-] & ? & ? & ?). auto.
  - rewrite andb_false_r. cbn. split; [discriminate|].
    intros (? & ? & _ & [=] & _).
  - split; [discriminate|]. intros (? & ? & [=] & _).
  - split; [discriminate|]. intros (? & ? & [=] & _).
Qed.

Lemma match_identifiers_spec q i ids m :
  In m (ExactMatcher.match_identifiers q i ids) <->
  m = (i, 1%float) /\ exists e, In e ids /\ identifies q e.
Proof.
  induction ids as [|e ids IH]; cbn [ExactMatcher.match_identifiers].
  - split; [intros [] | intros (_ & e & [] & _)].
  - destruct (IdentifierType_eqb _ _ && String.eqb _ _) eqn:E.
    + apply andb_prop in E as [Et Ev].
      apply IdentifierType_eqb_spec in Et. apply String.eqb_eq in Ev.
      destruct (str_truthy _ && str_truthy _ && negb _) eqn:Ec.
      * apply exchanges_conflict_spec in Ec. rewrite IH. split.
        -- intros (-> & e' & He' & Hi). split; [reflexivity|].
           exists e'. split; [now right | exact Hi].
        -- intros (-> & e' & [<-|He'] & Hi).
           ++ exfalso. now apply Hi.
           ++ split; [reflexivity|]. eauto.
      * split.
        -- intros [<-|[]]. split; [reflexivity|]. exists e.
           split; [now left|]. split; [exact Et|]. split; [exact Ev|].
           intros Hc. apply exchanges_conflict_spec in Hc. congruence.
        -- intros (-> & _). now left.
    + rewrite IH. split.
      * intros (-> & e' & He' & Hi). split; [reflexivity|].
        exists e'. split; [now right | exact Hi].
      * intros (-> & e' & [<-|He'] & Hi).
        -- exfalso. destruct Hi as (Ht & Hv & _).
           apply IdentifierType_eqb_spec in Ht. apply String.eqb_eq in Hv.
           rewrite Ht, Hv in E. discriminate.
        -- split; [reflexivity|]. eauto.
Qed.

(** The exact matcher returns an instrument exactly when one of its
    identifiers has the type and value of a query identifier and the two do
    not name different exchanges; the confidence is always 1.0. *)
Theorem exact_match_sound_complete
    (query_identifiers : list InstrumentIdentifier.t)
    (existing_instruments : list CanonicalInstrument.t)
    (instrument : CanonicalInstrument.t) (confidence : float) :
  In (instrument, confidence)
     (ExactMatcher.match_ query_identifiers existing_instruments)
  <->
  confidence = 1%float /\ In instrument existing_instruments /\
  exists q e,
    In q query_identifiers /\
    In e (CanonicalInstrument.identifiers instrument) /\ identifies q e.
Proof.
  unfold ExactMatcher.match_. rewrite in_flat_map. split.
  - intros (q & Hq & Hin). apply in_flat_map in Hin as (i & Hi & Hm).
    apply match_identifiers_spec in Hm as ([= -> ->] & e & He & Hid).
    split; [reflexivity|]. split; [exact Hi|]. eauto.
  - intros (-> & Hi & q & e & Hq & He & Hid). exists q. split; [exact Hq|].
    apply in_flat_map. exists instrument. split; [exact Hi|].
    apply match_identifiers_spec. split; [reflexivity|]. eauto.
Qed.

(** ** Matches without duplicates *)

Lemma unique_add_keys m unique :
  (In (match_id m) (map fst unique) /\
   map fst (Canonicalizer.unique_add m unique) = map fst unique) \/
  (~ In (match_id m) (map fst unique) /\
   map fst (Canonicalizer.unique_add m unique)
   = map fst unique ++ [match_id m]).
Proof.
  unfold match_id.
  induction unique as [|[k old] unique IH]; cbn.
  - right. split; [tauto | reflexivity].
  - destruct (String.eqb_spec k (CanonicalInstrument.canonical_id (fst m)))
      as [->|n].
    + left. split; [now left|]. now destruct (_ <? _)%float.
    + destruct IH as [[Hi He]|[Hi He]]; cbn; rewrite He.
      * left. split; [now right | reflexivity].
      * right. split; [intros [?|?]; tauto | reflexivity].
Qed.

Lemma unique_add_entries m seen unique :
  Forall (fun km => fst km = match_id (snd km) /\ In (snd km) seen) unique ->
  Forall (fun km => fst km = match_id (snd km) /\ In (snd km) (seen ++ [m]))
         (Canonicalizer.unique_add m unique).
Proof.
  induction 1 as [|[k old] unique (Hk & Hin) H IH]; cbn.
  - constructor; [|constructor]. cbn. split; [reflexivity|].
    apply in_or_app. right. now left.
  - cbn in Hk, Hin.
    assert (Hrest : Forall (fun km => fst km = match_id (snd km) /\
                                      In (snd km) (seen ++ [m])) unique).
    { eapply Forall_impl; [exact H|]. cbn. intros km (? & ?).
      split; [assumption|]. apply in_or_app. now left. }
    destruct (String.eqb_spec k (CanonicalInstrument.canonical_id (fst m)))
      as [e|n].
    + constructor; [|exact Hrest].
      destruct (_ <? _)%float; cbn.
      * split; [exact e|]. apply in_or_app. right. now left.
      * split; [exact Hk|]. apply in_or_app. now left.
    + constructor; [|exact IH]. cbn. split; [exact Hk|].
      apply in_or_app. now left.
Qed.

Lemma unique_add_spec m seen unique :
  unique_of seen unique ->
  unique_of (seen ++ [m]) (Canonicalizer.unique_add m unique).
Proof.
  intros (Hnd & He & Hs). pose proof (unique_add_keys m unique) as Hkeys.
  split; [|split].
  - destruct Hkeys as [[_ ->]|[Hn ->]]; [exact Hnd|].
    apply List.NoDup_app; [exact Hnd | repeat constructor; cbn; tauto |].
    intros x Hx [<-|[]]. exact (Hn Hx).
  - now apply unique_add_entries.
  - apply Forall_app. split.
    + eapply Forall_impl; [exact Hs|]. cbn. intros x Hx.
      destruct Hkeys as [[_ ->]|[_ ->]]; [exact Hx|].
      apply in_or_app. now left.
    + constructor; [|constructor].
      destruct Hkeys as [[Hi ->]|[_ ->]]; [exact Hi|].
      apply in_or_app. right. now left.
Qed.

Lemma unique_fold_spec l : forall seen unique,
  unique_of seen unique ->
  unique_of (seen ++ l)
    (fold_left (fun unique m => Canonicalizer.unique_add m unique) l unique).
Proof.
  induction l as [|m l IH]; intros seen unique H; cbn [fold_left].
  - now rewrite app_nil_r.
  - replace (seen ++ m :: l) with ((seen ++ [m]) ++ l)
      by (now rewrite <- app_assoc).
    apply IH. now apply unique_add_spec.
Qed.

(** The matches the canonicalizer works with: exact matches, one for each
    canonical id that has one. *)
Theorem find_matches_one_per_canonical_id
    (query_identifiers : list InstrumentIdentifier.t)
    (existing_instruments : list CanonicalInstrument.t) :
  let found :=
    Canonicalizer._find_matches query_identifiers existing_instruments in
  let exact :=
    ExactMatcher.match_ query_identifiers existing_instruments in
  List.NoDup (map match_id found) /\
  (forall m, In m found -> In m exact) /\
  (forall m, In m exact -> In (match_id m) (map match_id found)).
Proof.
  cbn zeta. unfold Canonicalizer._find_matches. rewrite app_nil_r.
  destruct (unique_fold_spec
              (ExactMatcher.match_ query_identifiers existing_instruments)
              [] []) as (Hnd & He & Hs).
  { split; [constructor | split; constructor]. }
  cbn [app] in He, Hs.
  set (u := fold_left _ _ _) in *.
  assert (Hkeys : map match_id (map snd u) = map fst u).
  { rewrite map_map. apply map_ext_in. intros km Hkm.
    symmetry. exact (proj1 (proj1 (List.Forall_forall _ _) He km Hkm)). }
  split; [now rewrite Hkeys|]. split.
  - intros m Hm. apply in_map_iff in Hm as (km & <- & Hkm).
    exact (proj2 (proj1 (List.Forall_forall _ _) He km Hkm)).
  - intros m Hm. rewrite Hkeys.
    exact (proj1 (List.Forall_forall _ _) Hs m Hm).
Qed.

(** ** Sorting by a total order *)

Section CompareOrder.
Context {A : Type} (cmp : A -> A -> comparison).
Hypothesis cmp_eq : forall x y, cmp x y = Eq -> x = y.
Hypothesis cmp_antisym : forall x y, cmp x y = CompOpp (cmp y x).
Hypothesis cmp_trans :
  forall x y z, cmp x y = Lt -> cmp y z = Lt -> cmp x z = Lt.

Lemma le_by_trans x y z : le_by cmp x y -> le_by cmp y z -> le_by cmp x z.
Proof.
  unfold le_by. intros Hxy Hyz.
  destruct (cmp x y) eqn:E1; [| |contradiction].
  - apply cmp_eq in E1. now subst.
  - destruct (cmp y z) eqn:E2; [| |contradiction].
    + apply cmp_eq in E2. subst. now rewrite E1.
    + now rewrite (cmp_trans _ _ _ E1 E2).
Qed.

Lemma le_by_antisym x y : le_by cmp x y -> le_by cmp y x -> x = y.
Proof.
  unfold le_by. intros Hxy Hyx. rewrite cmp_antisym in Hxy.
  destruct (cmp y x) eqn:E; cbn in Hxy; try contradiction.
  apply cmp_eq in E. now subst.
Qed.

Lemma lt_by_le x y : lt_by cmp x y = true -> le_by cmp x y.
Proof. unfold lt_by, le_by. destruct (cmp x y); congruence. Qed.

Lemma lt_by_false_le x y : lt_by cmp y x = false -> le_by cmp x y.
Proof.
  unfold lt_by, le_by. rewrite (cmp_antisym x y).
  destruct (cmp y x); cbn; congruence.
Qed.

Lemma insert_by_perm x l : Permutation (x :: l) (insert_by cmp x l).
Proof.
  induction l as [|y l IH]; cbn; [reflexivity|].
  destruct (lt_by cmp y x); [|reflexivity].
  rewrite perm_swap. now constructor.
Qed.

Lemma sorted_by_perm l : Permutation l (sorted_by cmp l).
Proof.
  induction l as [|x l IH]; [reflexivity|].
  change (sorted_by cmp (x :: l)) with (insert_by cmp x (sorted_by cmp l)).
  rewrite <- insert_by_perm. now constructor.
Qed.

Lemma insert_by_sorted x l :
  StronglySorted (le_by cmp) l ->
  StronglySorted (le_by cmp) (insert_by cmp x l).
Proof.
  induction 1 as [|y l Hs IH Hy]; cbn.
  - repeat constructor.
  - destruct (lt_by cmp y x) eqn:E.
    + constructor; [exact IH|].
      eapply Permutation_Forall; [apply insert_by_perm|].
      constructor; [now apply lt_by_le | exact Hy].
    + apply lt_by_false_le in E. constructor.
      * now constructor.
      * constructor; [exact E|].
        eapply Forall_impl; [exact Hy|]. cbn. intros z Hz.
        now apply (le_by_trans x y z).
Qed.

Lemma sorted_by_sorted l : StronglySorted (le_by cmp) (sorted_by cmp l).
Proof.
  induction l as [|x l IH]; [constructor|].
  change (sorted_by cmp (x :: l)) with (insert_by cmp x (sorted_by cmp l)).
  now apply insert_by_sorted.
Qed.

(** Sorting forgets the order of its input. *)
Lemma sorted_by_unique l l' :
  Permutation l l' -> sorted_by cmp l = sorted_by cmp l'.
Proof.
  intros H.
  apply (StronglySorted_unique_strong (le_by cmp));
    [| apply sorted_by_sorted | apply sorted_by_sorted |].
  - intros x y _ _. apply le_by_antisym.
  - now rewrite <- !sorted_by_perm.
Qed.

End CompareOrder.

Lemma ascii_compare_lt a b : (a ?= b)%char = Lt <-> (N_of_ascii a < N_of_ascii b)%N.
Proof. unfold Ascii.compare. apply N.compare_lt_iff. Qed.

Lemma string_compare_refl s : String.compare s s = Eq.
Proof.
  induction s as [|c s IH]; cbn; [reflexivity|].
  unfold Ascii.compare. now rewrite N.compare_refl.
Qed.

Lemma string_compare_trans a : forall b c,
  String.compare a b = Lt -> String.compare b c = Lt ->
  String.compare a c = Lt.
Proof.
  induction a as [|x a IH]; intros [|y b] [|z c]; cbn; try congruence.
  destruct (x ?= y)%char eqn:Exy; try discriminate.
  - apply Ascii.compare_eq_iff in Exy. subst y.
    destruct (x ?= z)%char; try congruence. apply IH.
  - intros _. destruct (y ?= z)%char eqn:Eyz; try discriminate.
    + apply Ascii.compare_eq_iff in Eyz. subst z. now rewrite Exy.
    + intros _. apply ascii_compare_lt in Exy, Eyz.
      assert (H : (x ?= z)%char = Lt)
        by (apply ascii_compare_lt; eapply N.lt_trans; eassumption).
      now rewrite H.
Qed.

Section PairCompare.
Context {A B : Type} (cmpA : A -> A -> comparison)
        (cmpB : B -> B -> comparison).
Hypothesis A_eq : forall x y, cmpA x y = Eq -> x = y.
Hypothesis A_refl : forall x, cmpA x x = Eq.
Hypothesis A_antisym : forall x y, cmpA x y = CompOpp (cmpA y x).
Hypothesis A_trans :
  forall x y z, cmpA x y = Lt -> cmpA y z = Lt -> cmpA x z = Lt.
Hypothesis B_eq : forall x y, cmpB x y = Eq -> x = y.
Hypothesis B_refl : forall x, cmpB x x = Eq.
Hypothesis B_antisym : forall x y, cmpB x y = CompOpp (cmpB y x).
Hypothesis B_trans :
  forall x y z, cmpB x y = Lt -> cmpB y z = Lt -> cmpB x z = Lt.

Lemma pair_compare_eq x y : pair_compare cmpA cmpB x y = Eq -> x = y.
Proof.
  destruct x as [a b], y as [a' b']. unfold pair_compare. cbn.
  destruct (cmpA a a') eqn:E; try discriminate.
  intros H. apply A_eq in E. apply B_eq in H. now subst.
Qed.

Lemma pair_compare_refl x : pair_compare cmpA cmpB x x = Eq.
Proof. destruct x. unfold pair_compare. cbn. now rewrite A_refl. Qed.

Lemma pair_compare_antisym x y :
  pair_compare cmpA cmpB x y = CompOpp (pair_compare cmpA cmpB y x).
Proof.
  destruct x as [a b], y as [a' b']. unfold pair_compare. cbn.
  rewrite (A_antisym a a'). destruct (cmpA a' a); cbn; auto.
Qed.

Lemma pair_compare_trans x y z :
  pair_compare cmpA cmpB x y = Lt -> pair_compare cmpA cmpB y z = Lt ->
  pair_compare cmpA cmpB x z = Lt.
Proof.
  destruct x as [a b], y as [a' b'], z as [a'' b'']. unfold pair_compare. cbn.
  destruct (cmpA a a') eqn:E1; try discriminate.
  - apply A_eq in E1. subst a'. destruct (cmpA a a''); try congruence.
    apply B_trans.
  - intros _. destruct (cmpA a' a'') eqn:E2; try discriminate.
    + apply A_eq in E2. subst a''. now rewrite E1.
    + now rewrite (A_trans _ _ _ E1 E2).
Qed.

End PairCompare.

Lemma triple_sorted_unique l l' :
  Permutation l l' ->
  sorted_by triple_compare l = sorted_by triple_compare l'.
Proof.
  apply sorted_by_unique; unfold triple_compare.
  - apply pair_compare_eq; [|apply String.compare_eq_iff].
    apply pair_compare_eq; apply String.compare_eq_iff.
  - apply pair_compare_antisym; [|apply String.compare_antisym].
    apply pair_compare_antisym; apply String.compare_antisym.
  - apply pair_compare_trans;
      [ apply pair_compare_eq; apply String.compare_eq_iff
      | apply pair_compare_trans;
          [apply String.compare_eq_iff | apply string_compare_trans
          | apply string_compare_trans]
      | apply string_compare_trans ].
Qed.

(** The cache key does not depend on the order of the identifiers. *)
Lemma cache_key_permutation name identifiers identifiers' :
  Permutation identifiers identifiers' ->
  Canonicalizer._create_cache_key name identifiers
  = Canonicalizer._create_cache_key name identifiers'.
Proof.
  intros H. unfold Canonicalizer._create_cache_key.
  erewrite triple_sorted_unique; [reflexivity|].
  now apply Permutation_map.
Qed.

(** Once a name with its identifiers has been canonicalized, the same name
    with the same identifiers, in any order, is answered from the cache:
    with the same instrument, whatever asset class, currency, exchange and
    existing instruments the later call gives, and the cache stays as it
    is. *)
Theorem canonicalize_cached (name : string)
    (identifiers identifiers' : list InstrumentIdentifier.t)
    (asset_class asset_class' : AssetClass) (currency currency' : Currency)
    (existing existing' : list CanonicalInstrument.t)
    (exchange exchange' : option Exchange.t)
    (cache cache' : gmap string CanonicalInstrument.t)
    (instrument : CanonicalInstrument.t) :
  Canonicalizer.canonicalize name identifiers asset_class currency existing
    exchange cache = (Ok instrument, cache') ->
  Permutation identifiers identifiers' ->
  Canonicalizer.canonicalize name identifiers' asset_class' currency'
    existing' exchange' cache' = (Ok instrument, cache').
Proof.
  intros H Hp. unfold Canonicalizer.canonicalize in *.
  rewrite <- (cache_key_permutation name _ _ Hp).
  destruct (cache !! Canonicalizer._create_cache_key name identifiers)
    as [cached|] eqn:E.
  - injection H as <- <-. now rewrite E.
  - destruct (Canonicalizer._find_matches identifiers existing) as [|m ms].
    + destruct (Canonicalizer._create_new_instrument _ _ _ _ _) as [c|e];
        [|discriminate].
      injection H as <- <-. now rewrite lookup_insert_eq.
    + injection H as <- <-. now rewrite lookup_insert_eq.
Qed.

Lemma canonicalize_cached_sample :
  Canonicalizer.canonicalize "Infosys" [infy_symbol; infy_isin] COMMODITY USD
    [] None
    (snd (Canonicalizer.canonicalize "Infosys" [infy_isin; infy_symbol]
            EQUITY INR [infy] (Some Exchange.NSE) ∅))
  = (Ok infy,
     snd (Canonicalizer.canonicalize "Infosys" [infy_isin; infy_symbol]
            EQUITY INR [infy] (Some Exchange.NSE) ∅)).
Proof.
  apply (canonicalize_cached "Infosys" [infy_isin; infy_symbol]
           [infy_symbol; infy_isin] EQUITY COMMODITY INR USD [infy] []
           (Some Exchange.NSE) None ∅).
  - vm_compute. reflexivity.
  - apply perm_swap.
Defined.

(** ** Identifiers from the mapping service *)

Lemma parse_identifiers_types identifiers exchange :
  Forall (fun i => InstrumentIdentifier.identifier_type i
                   <> IdentifierType.MANUAL)
         (_parse_identifiers identifiers exchange).
Proof.
  unfold _parse_identifiers.
  repeat (apply Forall_app; split);
    match goal with
    | |- Forall _ (if ?c then _ else _) => destruct c
    end; repeat constructor; discriminate.
Qed.

(** Through the mapping service no instrument gets the hash form of a
    manual asset: when the dict gives no ISIN, AMFI code, CUSIP or symbol
    (as for gold or property), canonicalizing a name that is not in the
    cache raises IndexError and leaves the cache as it is; and otherwise
    the primary identifier is never a manual one. *)
Theorem parsed_identifiers_never_manual
    (identifiers : gmap string (option string)) (exchange : option string)
    (name : string) (asset_class : AssetClass) (currency : Currency)
    (existing_instruments : list CanonicalInstrument.t)
    (exchange_enum : option Exchange.t)
    (cache : gmap string CanonicalInstrument.t) :
  (str_truthy (dict_get identifiers "isin") = false ->
   str_truthy (dict_get identifiers "amfi_code") = false ->
   str_truthy (dict_get identifiers "cusip") = false ->
   str_truthy (dict_get identifiers "symbol") = false ->
   cache !! Canonicalizer._create_cache_key name [] = None ->
   Canonicalizer.canonicalize name (_parse_identifiers identifiers exchange)
     asset_class currency existing_instruments exchange_enum cache
   = (Raise (IndexError "list index out of range"), cache)) /\
  (forall primary,
     InstrumentCanonicalizer._select_primary_identifier
       (_parse_identifiers identifiers exchange) = Ok primary ->
     InstrumentIdentifier.identifier_type primary <> IdentifierType.MANUAL).
Proof.
  split.
  - intros H1 H2 H3 H4 Hc. unfold _parse_identifiers.
    rewrite H1, H2, H3, H4. cbn [app].
    unfold Canonicalizer.canonicalize. rewrite Hc. reflexivity.
  - intros primary H.
    pose proof (parse_identifiers_types identifiers exchange) as Ht.
    unfold InstrumentCanonicalizer._select_primary_identifier in H.
    set (l := _parse_identifiers identifiers exchange) in *.
    pose proof (sorted_perm
                  (fun x => InstrumentCanonicalizer.priority
                              (InstrumentIdentifier.identifier_type x)) l)
      as Hp.
    destruct (sorted _ l) as [|first s].
    + destruct l as [|first l']; [discriminate|].
      injection H as <-. now inversion Ht.
    + injection H as <-.
      apply (proj1 (List.Forall_forall _ _) Ht).
      eapply Permutation_in; [symmetry; exact Hp | now left].
Qed.

Lemma parsed_identifiers_never_manual_sample :
  Canonicalizer.canonicalize "Gold coin"
    (_parse_identifiers {[ "isin" := None; "symbol" := Some "" ]}
       (Some "MANUAL"))
    COMMODITY INR [infy] (Some Exchange.MANUAL) ∅
  = (Raise (IndexError "list index out of range"), ∅).
Proof.
  apply (parsed_identifiers_never_manual
           {[ "isin" := None; "symbol" := Some "" ]} (Some "MANUAL")
           "Gold coin" COMMODITY INR [infy] (Some Exchange.MANUAL) ∅);
    reflexivity.
Defined.


(** ** The asset class of a new instrument *)

Ltac asset_class_case :=
  split; [simpl; auto 10|];
  split;
  [ split;
    [ let H := fresh "Hall" in
      intros H;
      first [ reflexivity
            | exfalso;
              first [ apply (H MUTUAL_FUND); reflexivity
                    | apply (H EQUITY); reflexivity
                    | apply (H COMMODITY); reflexivity
                    | apply (H REAL_ESTATE); reflexivity ] ]
    | first [ discriminate | intros _ []; discriminate ] ]
  | split;
    [ first [ discriminate
            | intros _; repeat split; auto; repeat constructor; assumption ]
    | first [ reflexivity
            | intros (? & ? & ? & Hw);
              repeat (match goal with
                      | H : Forall _ (_ :: _) |- _ =>
                          apply Forall_cons_1 in H as [? H]
                      end); congruence ] ] ].

(** When the raw data name no asset class, the class of a new instrument
    is one of five strings, and it is the value of no member of
    [AssetClass] exactly when it is [other]: for an asset of the manual
    exchange without AMFI code or CUSIP whose name mentions neither a
    fund, nor gold, nor property, real estate or land. *)
Theorem determine_asset_class_other (parsed_txn : ParsedTransaction.t) :
  (forall raw_data, ParsedTransaction.raw_data parsed_txn = Some raw_data ->
                    raw_data !! "asset_class" = None) ->
  In (_determine_asset_class parsed_txn)
     ["mutual_fund"; "equity"; "commodity"; "real_estate"; "other"] /\
  ((forall asset_class,
      AssetClass_value asset_class <> _determine_asset_class parsed_txn) <->
   _determine_asset_class parsed_txn = "other") /\
  (_determine_asset_class parsed_txn = "other" <->
   str_truthy (ParsedTransaction.amfi_code parsed_txn) = false /\
   str_truthy (ParsedTransaction.cusip parsed_txn) = false /\
   ParsedTransaction.exchange parsed_txn = Some "MANUAL" /\
   Forall (fun word =>
             str_contains word
               (lower (ParsedTransaction.instrument_name parsed_txn)) = false)
     ["fund"; "gold"; "property"; "real estate"; "land"]).
Proof.
  intros Hraw. unfold _determine_asset_class.
  set (name := lower (ParsedTransaction.instrument_name parsed_txn)).
  assert (Hr : match ParsedTransaction.raw_data parsed_txn with
               | Some raw_data => raw_data !! "asset_class"
               | None => None
               end = None).
  { destruct (ParsedTransaction.raw_data parsed_txn) as [d|]; auto. }
  rewrite Hr. clear Hr Hraw. cbn [existsb].
  destruct (str_truthy (ParsedTransaction.amfi_code parsed_txn)) eqn:Ea;
    cbn [orb]; [asset_class_case|].
  destruct (str_contains "fund" name) eqn:Ef; [asset_class_case|].
  destruct (str_truthy (ParsedTransaction.cusip parsed_txn)) eqn:Ec;
    cbn [orb]; [asset_class_case|].
  destruct (ParsedTransaction.exchange parsed_txn) as [e|];
    [|asset_class_case].
  repeat case_bool_decide; cbn [orb]; try asset_class_case.
  destruct (str_contains "gold" name) eqn:Eg; [asset_class_case|].
  destruct (str_contains "property" name) eqn:Ep;
    cbn [orb]; [asset_class_case|].
  destruct (str_contains "real estate" name) eqn:Ee;
    cbn [orb]; [asset_class_case|].
  destruct (str_contains "land" name) eqn:El; cbn [orb]; asset_class_case.
Qed.

Lemma determine_asset_class_other_sample :
  _determine_asset_class deposit_entry = "other".
Proof.
  apply (determine_asset_class_other deposit_entry).
  - intros raw_data H. discriminate H.
  - repeat split; repeat constructor.
Defined.

(** ** Conflicting instruments *)

Lemma assign_eq h r f : assign h r f r = f (h r).
Proof. unfold assign. now rewrite Nat.eqb_refl. Qed.

Lemma assign_ne h r f x : x <> r -> assign h r f x = h x.
Proof. intros H. unfold assign. apply Nat.eqb_neq in H. now rewrite H. Qed.

Lemma copy_missing_ne get set h p s x :
  x <> p -> copy_missing get set h p s x = h x.
Proof.
  intros H. unfold copy_missing.
  destruct (_ && _); [now apply assign_ne | reflexivity].
Qed.

Lemma copy_symbol_ne h p s x : x <> p -> copy_symbol h p s x = h x.
Proof.
  intros H. unfold copy_symbol. destruct (_ && _); [|reflexivity].
  cbv zeta. now rewrite !assign_ne.
Qed.

Lemma copy_missing_frame {B : Type} (g : Instrument.t -> B) get set h p s x :
  (forall v i, g (set v i) = g i) ->
  g (copy_missing get set h p s x) = g (h x).
Proof.
  intros Hg. unfold copy_missing. destruct (_ && _); [|reflexivity].
  unfold assign. destruct (Nat.eqb x p); [apply Hg | reflexivity].
Qed.

Lemma copy_symbol_frame {B : Type} (g : Instrument.t -> B) h p s x :
  (forall v i, g (Instrument.set_symbol v i) = g i) ->
  (forall v i, g (Instrument.set_primary_exchange v i) = g i) ->
  g (copy_symbol h p s x) = g (h x).
Proof.
  intros H1 H2. unfold copy_symbol. destruct (_ && _); [|reflexivity].
  cbv zeta. unfold assign.
  destruct (Nat.eqb x p); [now rewrite H2, H1 | reflexivity].
Qed.

Lemma copy_missing_copies get set h p s :
  (forall v i, get (set v i) = v) ->
  get (copy_missing get set h p s p)
  = first_truthy (get (h p)) [get (h s)].
Proof.
  intros Hg. unfold copy_missing, first_truthy. cbn [List.find].
  destruct (str_truthy (get (h s))) eqn:Es,
           (str_truthy (get (h p))) eqn:Ep; simpl; try reflexivity.
  rewrite assign_eq. apply Hg.
Qed.

Lemma copy_symbol_symbol h p s :
  Instrument.symbol (copy_symbol h p s p)
  = first_truthy (Instrument.symbol (h p)) [Instrument.symbol (h s)].
Proof.
  unfold copy_symbol, first_truthy. cbn [List.find].
  destruct (str_truthy (Instrument.symbol (h s))) eqn:Es,
           (str_truthy (Instrument.symbol (h p))) eqn:Ep;
    simpl; try reflexivity.
  now rewrite !assign_eq.
Qed.

Lemma copy_symbol_exchange h p s :
  p <> s ->
  Instrument.primary_exchange (copy_symbol h p s p)
  = if str_truthy (Instrument.symbol (h s))
       && negb (str_truthy (Instrument.symbol (h p)))
    then Instrument.primary_exchange (h s)
    else Instrument.primary_exchange (h p).
Proof.
  intros H. unfold copy_symbol. destruct (_ && _); [|reflexivity].
  cbv zeta. rewrite assign_eq. cbn.
  rewrite assign_ne by congruence. reflexivity.
Qed.

Ltac merge_frame :=
  repeat first
    [ rewrite copy_missing_ne by congruence
    | rewrite copy_symbol_ne by congruence ].

Lemma merge_secondary h p s :
  p <> s ->
  _merge_instrument_identifiers h p s s
  = Instrument.set_is_active false (h s).
Proof.
  intros H. unfold _merge_instrument_identifiers. cbv zeta.
  rewrite assign_eq. merge_frame. reflexivity.
Qed.

Lemma merge_elsewhere h p s x :
  x <> p -> x <> s -> _merge_instrument_identifiers h p s x = h x.
Proof.
  intros Hp Hs. unfold _merge_instrument_identifiers. cbv zeta.
  rewrite assign_ne by congruence. merge_frame. reflexivity.
Qed.

Ltac merge_getter g :=
  repeat first
    [ rewrite (copy_missing_frame g) by reflexivity
    | rewrite (copy_symbol_frame g) by reflexivity
    | rewrite copy_missing_copies by reflexivity
    | rewrite copy_symbol_symbol ].

Lemma merge_primary h p s :
  p <> s ->
  let m := _merge_instrument_identifiers h p s p in
  let copied get := first_truthy (get (h p)) [get (h s)] in
  Instrument.isin m = copied Instrument.isin /\
  Instrument.amfi_code m = copied Instrument.amfi_code /\
  Instrument.cusip m = copied Instrument.cusip /\
  Instrument.symbol m = copied Instrument.symbol /\
  Instrument.primary_exchange m
  = (if str_truthy (Instrument.symbol (h s))
        && negb (str_truthy (Instrument.symbol (h p)))
     then Instrument.primary_exchange (h s)
     else Instrument.primary_exchange (h p)) /\
  Instrument.sector m = copied Instrument.sector /\
  Instrument.industry m = copied Instrument.industry /\
  Instrument.is_active m = Instrument.is_active (h p) /\
  Instrument.id m = Instrument.id (h p) /\
  Instrument.canonical_id m = Instrument.canonical_id (h p) /\
  Instrument.name m = Instrument.name (h p) /\
  Instrument.asset_class m = Instrument.asset_class (h p) /\
  Instrument.currency m = Instrument.currency (h p) /\
  Instrument.country m = Instrument.country (h p) /\
  Instrument.face_value m = Instrument.face_value (h p) /\
  Instrument.lot_size m = Instrument.lot_size (h p).
Proof.
  intros H. cbv zeta. unfold _merge_instrument_identifiers. cbv zeta.
  rewrite assign_ne by congruence.
  repeat split.
  - merge_getter Instrument.isin. reflexivity.
  - merge_getter Instrument.amfi_code.
    merge_getter Instrument.amfi_code. reflexivity.
  - merge_getter Instrument.cusip. merge_getter Instrument.cusip.
    reflexivity.
  - merge_getter Instrument.symbol. merge_getter Instrument.symbol.
    reflexivity.
  - merge_getter Instrument.primary_exchange.
    rewrite copy_symbol_exchange by exact H.
    merge_getter Instrument.symbol.
    merge_getter Instrument.primary_exchange. reflexivity.
  - merge_getter Instrument.sector. merge_getter Instrument.sector.
    reflexivity.
  - merge_getter Instrument.industry. merge_getter Instrument.industry.
    reflexivity.
  - merge_getter Instrument.is_active. reflexivity.
  - merge_getter Instrument.id. reflexivity.
  - merge_getter Instrument.canonical_id. reflexivity.
  - merge_getter Instrument.name. reflexivity.
  - merge_getter Instrument.asset_class. reflexivity.
  - merge_getter Instrument.currency. reflexivity.
  - merge_getter Instrument.country. reflexivity.
  - merge_getter Instrument.face_value. reflexivity.
  - merge_getter Instrument.lot_size. reflexivity.
Qed.

Lemma find_snoc {A : Type} (f : A -> bool) l x :
  List.find f (l ++ [x])
  = match List.find f l with
    | Some y => Some y
    | None => if f x then Some x else None
    end.
Proof.
  induction l as [|y l IH]; cbn; [reflexivity|].
  destruct (f y); [reflexivity | exact IH].
Qed.

Lemma find_map_truthy {A : Type} (g : A -> option string) l :
  List.find str_truthy (map g l)
  = option_map g (List.find (fun r => str_truthy (g r)) l).
Proof.
  induction l as [|y l IH]; cbn; [reflexivity|].
  destruct (str_truthy (g y)); [reflexivity | exact IH].
Qed.

Lemma first_truthy_snoc own l x :
  first_truthy (first_truthy own l) [x] = first_truthy own (l ++ [x]).
Proof.
  unfold first_truthy. rewrite find_snoc. cbn [List.find].
  destruct (str_truthy own) eqn:Eo.
  - now rewrite Eo.
  - destruct (List.find str_truthy l) as [v|] eqn:Ef; simpl.
    + apply List.find_some in Ef as [_ Hv]. now rewrite Hv.
    + rewrite Eo. now destruct (str_truthy x).
Qed.

Lemma exchange_with_symbol_snoc h p done r :
  (if str_truthy (Instrument.symbol (h r))
      && negb (str_truthy
                 (first_truthy (Instrument.symbol (h p))
                    (map (fun r => Instrument.symbol (h r)) done)))
   then Instrument.primary_exchange (h r)
   else exchange_with_symbol h p done)
  = exchange_with_symbol h p (done ++ [r]).
Proof.
  unfold exchange_with_symbol, first_truthy.
  rewrite find_snoc, find_map_truthy.
  destruct (str_truthy (Instrument.symbol (h p))) eqn:Eo.
  - rewrite Eo. now rewrite andb_false_r.
  - destruct (List.find _ done) as [r0|] eqn:Ef; simpl.
    + apply List.find_some in Ef as [_ Hv]. rewrite Hv.
      now rewrite andb_false_r.
    + rewrite Eo. now destruct (str_truthy (Instrument.symbol (h r))).
Qed.

Lemma merged_into_nothing h p : merged_into h p [] h.
Proof.
  unfold merged_into, first_truthy, exchange_with_symbol. cbn.
  repeat split; try (intros r []);
    try (match goal with |- context [str_truthy ?o] =>
           now destruct (str_truthy o) end).
Qed.

(** One more instrument merged. *)
Lemma merged_into_step h p done hk r :
  (forall x, In x done -> Instrument.id (h x) <> Instrument.id (h p)) ->
  Instrument.id (h r) <> Instrument.id (h p) ->
  merged_into h p done hk ->
  merged_into h p (done ++ [r]) (_merge_instrument_identifiers hk p r).
Proof.
  intros Hdone Hid Hinv.
  assert (Hpr : p <> r) by (intros ->; now apply Hid).
  destruct Hinv as (Hmerged & Hrest & Hisin & Hamfi & Hcusip & Hsym & Hex
                    & Hsec & Hind & Hact & Hi & Hcid & Hname & Hac & Hcur
                    & Hcty & Hfv & Hlot).
  assert (Hr : hk r = Instrument.set_is_active false (h r) \/ hk r = h r).
  { destruct (in_dec Nat.eq_dec r done) as [Hin|Hin];
      [left; now apply Hmerged | right; apply Hrest; congruence]. }
  destruct (merge_primary hk p r Hpr)
    as (Misin & Mamfi & Mcusip & Msym & Mex & Msec & Mind & Mact & Mi
        & Mcid & Mname & Mac & Mcur & Mcty & Mfv & Mlot).
  unfold merged_into. cbv zeta. rewrite !map_app. cbn [map].
  rewrite <- !first_truthy_snoc, <- exchange_with_symbol_snoc.
  rewrite <- Hisin, <- Hamfi, <- Hcusip, <- Hsym, <- Hex, <- Hsec, <- Hind.
  assert (Hfields :
    Instrument.isin (hk r) = Instrument.isin (h r) /\
    Instrument.amfi_code (hk r) = Instrument.amfi_code (h r) /\
    Instrument.cusip (hk r) = Instrument.cusip (h r) /\
    Instrument.symbol (hk r) = Instrument.symbol (h r) /\
    Instrument.primary_exchange (hk r) = Instrument.primary_exchange (h r) /\
    Instrument.sector (hk r) = Instrument.sector (h r) /\
    Instrument.industry (hk r) = Instrument.industry (h r)).
  { destruct Hr as [-> | ->]; repeat split. }
  destruct Hfields as (Fisin & Famfi & Fcusip & Fsym & Fex & Fsec & Find).
  rewrite <- Fisin, <- Famfi, <- Fcusip, <- Fsym, <- Fex, <- Fsec, <- Find.
  split; [|split].
  - intros x Hx. apply in_app_or in Hx as [Hx|[<-|[]]].
    + destruct (Nat.eq_dec x r) as [->|Hxr].
      * rewrite merge_secondary by exact Hpr.
        now destruct Hr as [-> | ->].
      * rewrite merge_elsewhere; [now apply Hmerged | | exact Hxr].
        intros ->. now apply (Hdone p).
    + rewrite merge_secondary by exact Hpr.
      now destruct Hr as [-> | ->].
  - intros x Hx Hxp.
    assert (Hxr : x <> r) by (intros ->; apply Hx, in_or_app; right; now left).
    rewrite merge_elsewhere by assumption.
    apply Hrest; [|exact Hxp]. intros Hin. apply Hx, in_or_app. now left.
  - repeat split; congruence.
Qed.

Lemma others_cons h p r refs :
  others h p (r :: refs)
  = (if negb (String.eqb (Instrument.id (h r)) (Instrument.id (h p)))
     then [r] else []) ++ others h p refs.
Proof. unfold others. cbn. now destruct (negb _). Qed.

Lemma others_differ h p refs x :
  In x (others h p refs) -> Instrument.id (h x) <> Instrument.id (h p).
Proof.
  unfold others. intros H. apply List.filter_In in H as [_ H].
  apply negb_true_iff, String.eqb_neq in H. exact H.
Qed.

(** The loop of [resolve_instrument_conflicts]. *)
Lemma merge_loop h p refs : forall done hk,
  (forall x, In x done -> Instrument.id (h x) <> Instrument.id (h p)) ->
  merged_into h p done hk ->
  merged_into h p (done ++ others h p refs)
    (fold_left (merge_other p) refs hk).
Proof.
  induction refs as [|r refs IH]; intros done hk Hdone Hinv.
  - cbn. now rewrite app_nil_r.
  - cbn [fold_left]. rewrite others_cons.
    assert (Hp : Instrument.id (hk p) = Instrument.id (h p))
      by apply Hinv.
    assert (Hr : Instrument.id (hk r) = Instrument.id (h r)).
    { destruct (Nat.eq_dec r p) as [->|Hrp]; [exact Hp|].
      destruct (in_dec Nat.eq_dec r done) as [Hin|Hin].
      - destruct Hinv as (Hmerged & _). now rewrite (Hmerged r Hin).
      - destruct Hinv as (_ & Hrest & _). now rewrite (Hrest r Hin Hrp). }
    unfold merge_other at 2. rewrite Hr, Hp.
    destruct (String.eqb_spec (Instrument.id (h r)) (Instrument.id (h p)))
      as [E|E]; cbn [negb].
    + now apply IH.
    + rewrite app_assoc. apply IH.
      * intros x Hx. apply in_app_or in Hx as [Hx|[<-|[]]];
          [now apply Hdone | exact E].
      * now apply merged_into_step.
Qed.

Lemma max_from_spec {A : Type} (key : A -> Z) l : forall best,
  In (max_from key best l) (best :: l) /\
  forall x, In x (best :: l) -> (key x <= key (max_from key best l))%Z.
Proof.
  induction l as [|a l IH]; intros best; cbn [max_from].
  - split; [now left|]. intros x [<-|[]]. lia.
  - destruct (IH (if (key best <? key a)%Z then a else best))
      as [Hin Hmax].
    destruct (key best <? key a)%Z eqn:E.
    + apply Z.ltb_lt in E. split.
      * right. exact Hin.
      * intros x [<-|Hx]; [|now apply Hmax].
        specialize (Hmax a (or_introl eq_refl)). lia.
    + apply Z.ltb_ge in E. split.
      * destruct Hin as [<-|Hin]; [now left | right; now right].
      * intros x [<-|[<-|Hx]].
        -- apply Hmax. now left.
        -- specialize (Hmax best (or_introl eq_refl)). lia.
        -- apply Hmax. now right.
Qed.

(** Of two or more conflicting instruments the service returns one of the
    list whose score no other exceeds, and merges the others into it:
    those with another id end inactive and otherwise as they were; the
    primary instrument keeps each identifier, sector and industry it has
    and takes each one it lacks from the first other instrument that has
    it, the exchange together with the symbol; nothing else changes. *)
Theorem resolve_conflicts_merges (h : nat -> Instrument.t)
    (conflicting_instruments : list nat) :
  (2 <= length conflicting_instruments)%nat ->
  exists primary,
    fst (resolve_instrument_conflicts h conflicting_instruments)
    = Ok (Some primary) /\
    In primary conflicting_instruments /\
    (forall r, In r conflicting_instruments ->
               (score_instrument (h r) <= score_instrument (h primary))%Z) /\
    merged_into h primary (others h primary conflicting_instruments)
      (snd (resolve_instrument_conflicts h conflicting_instruments)).
Proof.
  intros Hlen. unfold resolve_instrument_conflicts.
  destruct conflicting_instruments as [|a [|b l]]; cbn in Hlen; try lia.
  set (refs := a :: b :: l).
  replace (length refs <=? 1)%nat with false by reflexivity.
  unfold _choose_primary_instrument, py_max. subst refs.
  set (key := fun r => score_instrument (h r)).
  destruct (max_from_spec key (b :: l) a) as [Hin Hmax].
  exists (max_from key a (b :: l)). cbn [fst snd].
  split; [reflexivity|]. split; [exact Hin|]. split; [exact Hmax|].
  apply (merge_loop h _ (a :: b :: l) [] h); [intros x []|].
  apply merged_into_nothing.
Qed.

Lemma resolve_conflicts_merges_sample :
  exists primary,
    fst (resolve_instrument_conflicts conflict_heap [0; 1; 2]%nat)
    = Ok (Some primary) /\
    In primary [0; 1; 2]%nat /\
    (forall r, In r [0; 1; 2]%nat ->
               (score_instrument (conflict_heap r)
                <= score_instrument (conflict_heap primary))%Z) /\
    merged_into conflict_heap primary
      (others conflict_heap primary [0; 1; 2]%nat)
      (snd (resolve_instrument_conflicts conflict_heap [0; 1; 2]%nat)).
Proof.
  apply (resolve_conflicts_merges conflict_heap [0; 1; 2]%nat).
  cbn. lia.
Defined.
